(** * llama-moe: the noisy top-k gate and the clustering-distribution tally

    A shallow embedding of

    - [smoe/modules/moefication/moe_gates.py]
      ([get_gate_network], [WeightNoise], [TopKBalancedNoisyGate]),
    - [smoe/entrypoint/analysis/clustering_distribution.py] ([main]), and
    - [smoe/entrypoint/visualization/visualize_expert_load.py]
      ([change_forward], the drawing and the saving of the statistics).

    Tensors are lists (vectors) and lists of rows (matrices).  The element
    type of a floating tensor is left open: every tensor operation is written
    over a [Scalar] interface, so that statements about shapes, indices and
    raised exceptions hold for any arithmetic.  Statements that rely on
    algebra (a softmax row adds up to one, a variance is non-negative) are
    proved for the instance of exact real arithmetic, [R_scalar], and say
    so.  Where rounding decides, the instance [Float32.scalar] computes in
    IEEE 754 single precision.

    Python exceptions are values of type [exn]; code that can raise lives in
    the [result] monad. *)

From Stdlib Require Import String Ascii.
From Stdlib Require Import QArith Qreals Reals Lra.
From Stdlib Require Import ZArith Arith Lia Bool List Permutation Sorted.
From Stdlib Require SpecFloat.
Import ListNotations.

Close Scope Q_scope.
Close Scope R_scope.
Open Scope nat_scope.

Set Implicit Arguments.

(* ===================================================================== *)
(** * Exceptions and the result monad *)
(* ===================================================================== *)

(** What a [RuntimeError] of the tensor library complains about. *)
Inductive runtime_error : Type :=
| ShapeMismatch
| TopkOutOfRange (k size : nat)
| IndexOutOfBounds (index : Z) (size : nat).

(** The Python exceptions the modelled code can raise. *)
Inductive exn : Type :=
| AssertionError
| ValueError (msg : string) (choices : list string) (msg' : string) (got : string)
| TypeError (what : string)
| RuntimeError (what : runtime_error)
| UnboundLocalError (name : string)
| AttributeError (name : string)
| IndexError
| KeyError (key : string).

Inductive result (A : Type) : Type :=
| Ok (a : A)
| Err (e : exn).

Arguments Ok {A} a.
Arguments Err {A} e.

Definition bind {A B : Type} (c : result A) (k : A -> result B) : result B :=
  match c with
  | Ok a => k a
  | Err e => Err e
  end.

Declare Scope result_scope.
Delimit Scope result_scope with result.
Notation "x <- c ;; k" := (bind c (fun x => k))
  (at level 61, c at next level, right associativity) : result_scope.
Notation "' pat <- c ;; k" := (bind c (fun x => match x with pat => k end))
  (at level 61, pat pattern, c at next level, right associativity) : result_scope.
Open Scope result_scope.

(** [mapM f l] runs [f] on the elements of [l] from left to right and stops
    at the first exception. *)
Fixpoint mapM {A B : Type} (f : A -> result B) (l : list A) : result (list B) :=
  match l with
  | [] => Ok []
  | a :: l' => b <- f a ;; bs <- mapM f l' ;; Ok (b :: bs)
  end.

(* ===================================================================== *)
(** * Scalars *)
(* ===================================================================== *)

(** The arithmetic a floating tensor is computed with.  [s_gt] is the
    comparison behind [torch.gt] and the order [topk] sorts by; [s_exp],
    [s_tanh], [s_softplus] and [s_normal_cdf] are the library functions
    [exp], [nn.Tanh], [nn.Softplus] and the cumulative distribution function
    of the standard normal law; [s_lit] reads a decimal literal of the
    source and [s_of_nat] is the conversion [.float()] of an integer. *)
Class Scalar (T : Type) : Type := {
  s_zero : T;
  s_one : T;
  s_add : T -> T -> T;
  s_sub : T -> T -> T;
  s_mul : T -> T -> T;
  s_div : T -> T -> T;
  s_gt : T -> T -> bool;
  s_exp : T -> T;
  s_tanh : T -> T;
  s_softplus : T -> T;
  s_normal_cdf : T -> T;
  s_lit : Q -> T;
  s_of_nat : nat -> T
}.

(* ===================================================================== *)
(** * Generic list helpers *)
(* ===================================================================== *)

Definition map2 {A B C : Type} (f : A -> B -> C) (l : list A) (l' : list B) : list C :=
  map (fun p => f (fst p) (snd p)) (combine l l').

Definition map3 {A B C D : Type} (f : A -> B -> C -> D)
    (l : list A) (l' : list B) (l'' : list C) : list D :=
  map2 (fun p c => f (fst p) (snd p) c) (combine l l') l''.

(** [enumerate l] pairs every element with its position, as Python's
    [enumerate]. *)
Definition enumerate {A : Type} (l : list A) : list (nat * A) :=
  combine (seq 0 (length l)) l.

(** [set_nth i a l] is [l] with position [i] overwritten by [a]; nothing
    changes when [i] is out of range (callers check the range first). *)
Fixpoint set_nth {A : Type} (i : nat) (a : A) (l : list A) : list A :=
  match l, i with
  | [], _ => []
  | _ :: l', O => a :: l'
  | b :: l', S i' => b :: set_nth i' a l'
  end.

(** The number of rows of an index matrix in which [e] occurs. *)
Definition selected_count (index : list (list nat)) (e : nat) : nat :=
  length (filter (fun row => existsb (Nat.eqb e) row) index).

(** The number of rows in which [e] is selected with a positive score: the
    rows [i] that have a slot [j] with [index[i][j] = e] and
    [scores[i][j] > 0]. *)
Definition positive_score_count {T : Type} {ST : Scalar T}
    (index : list (list nat)) (scores : list (list T)) (e : nat) : nat :=
  length (filter (fun p => existsb (fun q => Nat.eqb e (fst q) && s_gt (snd q) s_zero)
                                   (combine (fst p) (snd p)))
                 (combine index scores)).

(** The number of rows in which [e] is selected and its entry of [logits]
    is positive. *)
Definition positive_logit_count {T : Type} {ST : Scalar T}
    (index : list (list nat)) (logits : list (list T)) (e : nat) : nat :=
  length (filter (fun p => existsb (Nat.eqb e) (fst p) &&
                           s_gt (nth e (snd p) s_zero) s_zero)
                 (combine index logits)).

Module MoeGates.

Section Tensors.

Context {T : Type} {ST : Scalar T}.

Definition vector : Type := list T.
Definition matrix : Type := list (list T).

(** [shape_is b d x]: [x] is a tensor of shape [(b, d)]. *)
Definition shape_is {A : Type} (b d : nat) (x : list (list A)) : Prop :=
  length x = b /\ Forall (fun row => length row = d) x.

Definition rows_have {A : Type} (d : nat) (x : list (list A)) : bool :=
  forallb (fun row => length row =? d) x.

Definition zeros (n : nat) : vector := repeat s_zero n.

Definition sum (v : vector) : T := fold_right s_add s_zero v.

Definition dot (a b : vector) : T := sum (map2 s_mul a b).

(** [x.sum(0)] of a matrix with [n] columns: the vector of column sums. *)
Definition sum0 (n : nat) (x : matrix) : vector :=
  fold_right (map2 s_add) (zeros n) x.

(** [(x > 0).sum(0)]: per column, the number of rows with a positive entry. *)
Definition count_positive0 (n : nat) (x : matrix) : list nat :=
  fold_right (map2 (fun v c => if s_gt v s_zero then S c else c)) (repeat 0 n) x.

(** [torch.randn_like(x)]: a tensor of the shape of [x] filled from the
    sample [randn], the entry [(i, j)] being [randn i j]. *)
Definition randn_like (randn : nat -> nat -> T) (x : matrix) : matrix :=
  map (fun ir => map (fun jv => randn (fst ir) (fst jv)) (enumerate (snd ir)))
      (enumerate x).

(** ** [nn.Linear] without bias *)

Record Linear : Type := {
  in_features : nat;
  out_features : nat;
  weight : matrix            (* shape (out_features, in_features) *)
}.

Definition Linear_wf (l : Linear) : Prop :=
  shape_is (out_features l) (in_features l) (weight l).

(** [F.linear(x, weight, None)]: every row of [x] is multiplied with every
    row of the weight; a row of [x] of the wrong length is a shape error. *)
Definition F_linear (x : matrix) (w : matrix) (d : nat) : result matrix :=
  if rows_have d x
  then Ok (map (fun row => map (fun wrow => dot row wrow) w) x)
  else Err (RuntimeError ShapeMismatch).

Definition Linear_forward (l : Linear) (x : matrix) : result matrix :=
  F_linear x (weight l) (in_features l).

(** ** [torch.mm] and dynamic typing

    [torch.mm] accepts tensors only.  The second argument that
    [forward_return_scores] passes is the attribute [self.weight_noise],
    which [__init__] binds to an [nn.Linear] module, so the values that
    can reach [torch.mm] are tensors and modules. *)
Inductive pyvalue : Type :=
| PTensor (x : matrix)
| PModule (l : Linear).

Definition transpose_cols (n : nat) (x : matrix) : matrix :=
  map (fun j => map (fun row => nth j row s_zero) x) (seq 0 n).

Definition torch_mm (a b : pyvalue) : result matrix :=
  match a, b with
  | PTensor x, PTensor y =>
      if rows_have (length y) x
      then Ok (map (fun row =>
                 map (fun col => dot row col)
                     (transpose_cols (length (hd [] y)) y)) x)
      else Err (RuntimeError ShapeMismatch)
  | _, _ => Err (TypeError "mm(): argument must be Tensor, not Linear")
  end.

(** ** [Tensor.topk] along dimension 1

    The [k] largest entries of a row with their positions, sorted from the
    largest down.  Among equal entries the smaller position comes first
    (the library leaves the order of ties open). *)
Fixpoint insert_desc (p : T * nat) (l : list (T * nat)) : list (T * nat) :=
  match l with
  | [] => [p]
  | q :: l' => if s_gt (fst q) (fst p) then q :: insert_desc p l' else p :: q :: l'
  end.

Definition sort_desc (l : list (T * nat)) : list (T * nat) :=
  fold_right insert_desc [] l.

Definition topk_row (k : nat) (row : vector) : result (vector * list nat) :=
  if k <=? length row
  then let s := firstn k (sort_desc (combine row (seq 0 (length row)))) in
       Ok (map fst s, map snd s)
  else Err (RuntimeError (TopkOutOfRange k (length row))).

Definition topk (k : nat) (x : matrix) : result (matrix * list (list nat)) :=
  rs <- mapM (topk_row k) x ;;
  Ok (map fst rs, map snd rs).

(** ** [nn.Softmax(1)]

    Every entry is its exponential over the sum of the exponentials of its
    row (the library shifts the row by its maximum first, which changes
    nothing in exact arithmetic). *)
Definition softmax_row (row : vector) : vector :=
  let e := map s_exp row in
  map (fun v => s_div v (sum e)) e.

Definition softmax (x : matrix) : matrix := map softmax_row x.

(** ** [Tensor.scatter(dim=1, index, src)] *)
Fixpoint scatter_row (self : vector) (index : list nat) (src : vector) : result vector :=
  match index, src with
  | [], _ => Ok self
  | i :: index', v :: src' =>
      if i <? length self
      then scatter_row (set_nth i v self) index' src'
      else Err (RuntimeError (IndexOutOfBounds (Z.of_nat i) (length self)))
  | _ :: _, [] => Err (RuntimeError ShapeMismatch)
  end.

Fixpoint scatter (self : matrix) (index : list (list nat)) (src : matrix) : result matrix :=
  match index, self, src with
  | [], _, _ => Ok self
  | irow :: index', srow :: self', vrow :: src' =>
      r <- scatter_row srow irow vrow ;;
      rs <- scatter self' index' src' ;;
      Ok (r :: rs)
  | _ :: _, _, _ => Err (RuntimeError ShapeMismatch)
  end.

(** ** [torch.gather(input, 0, index)] on a flat tensor

    Positions are 64-bit integers in the source; a negative position is out
    of bounds, as is one past the end. *)
Definition gather_at (input : vector) (p : Z) : result T :=
  if ((0 <=? p)%Z && (p <? Z.of_nat (length input))%Z)%bool
  then Ok (nth (Z.to_nat p) input s_zero)
  else Err (RuntimeError (IndexOutOfBounds p (length input))).

Definition gather (input : vector) (index : list Z) : result vector :=
  mapM (gather_at input) index.

End Tensors.

Arguments vector : clear implicits.
Arguments matrix : clear implicits.
Arguments Linear : clear implicits.
Arguments pyvalue : clear implicits.

(* ===================================================================== *)
(** * The gate network *)
(* ===================================================================== *)

(** [str.lower] on the letters A-Z.  A string is the sequence of the bytes
    of its text; on a text of ASCII characters ([isascii]) this is
    [str.lower].  Characters outside ASCII are left as they are, which
    [str.lower] does not do for all of them; none of them lowers to a
    letter of [linear] or [mlp], so that the comparison with the valid
    gate types is the one of the source for every text, and statements
    about the lowered text itself are made for ASCII texts. *)
Definition lower_ascii (c : ascii) : ascii :=
  let n := nat_of_ascii c in
  if (65 <=? n) && (n <=? 90) then ascii_of_nat (n + 32) else c.

Fixpoint lower (s : string) : string :=
  match s with
  | EmptyString => EmptyString
  | String c s' => String (lower_ascii c) (lower s')
  end.

(** [str.isascii] *)
Fixpoint isascii (s : string) : bool :=
  match s with
  | EmptyString => true
  | String c s' => (nat_of_ascii c <? 128) && isascii s'
  end.

Definition valid_gate_type : list string := ["linear"%string; "mlp"%string].

Definition dquote : string := String (ascii_of_nat 34) EmptyString.

(** The first argument of the [ValueError]: [Expected "gate_type" in]. *)
Definition expected_gate_type : string :=
  ("Expected " ++ dquote ++ "gate_type" ++ dquote ++ " in")%string.

Section Gate.

Context {T : Type} {ST : Scalar T}.

(** The two shapes [get_gate_network] builds: one linear layer, or
    [Sequential(Linear, Tanh, Linear)]. *)
Inductive GateNetwork : Type :=
| GateLinear (l : Linear T)
| GateMlp (l1 l2 : Linear T).

Definition GateNetwork_forward (gn : GateNetwork) (x : matrix T) : result (matrix T) :=
  match gn with
  | GateLinear l => Linear_forward l x
  | GateMlp l1 l2 =>
      h <- Linear_forward l1 x ;;
      Linear_forward l2 (map (map s_tanh) h)
  end.

Definition GateNetwork_wf (input_size num_experts : nat) (gn : GateNetwork) : Prop :=
  match gn with
  | GateLinear l =>
      Linear_wf l /\ in_features l = input_size /\ out_features l = num_experts
  | GateMlp l1 l2 =>
      Linear_wf l1 /\ in_features l1 = input_size /\ out_features l1 = num_experts /\
      Linear_wf l2 /\ in_features l2 = num_experts /\ out_features l2 = num_experts
  end.

(** [nn.Linear(in, out, bias=False)]: the weight is drawn at random by the
    library; [init i j] is the value drawn for entry [(i, j)]. *)
Definition new_Linear (n_in n_out : nat) (init : nat -> nat -> T) : Linear T :=
  {| in_features := n_in;
     out_features := n_out;
     weight := map (fun i => map (fun j => init i j) (seq 0 n_in)) (seq 0 n_out) |}.

(** [nn.init.zeros_(l.weight)] *)
Definition zeros_ (l : Linear T) : Linear T :=
  {| in_features := in_features l;
     out_features := out_features l;
     weight := map (map (fun _ => s_zero)) (weight l) |}.

Definition get_gate_network (gate_type : string) (input_size num_experts : nat)
    (init1 init2 : nat -> nat -> T) : result GateNetwork :=
  let gate_type := lower gate_type in
  if String.eqb gate_type "linear" then
    Ok (GateLinear (zeros_ (new_Linear input_size num_experts init1)))
  else if String.eqb gate_type "mlp" then
    Ok (GateMlp (new_Linear input_size num_experts init1)
                (new_Linear num_experts num_experts init2))
  else
    Err (ValueError expected_gate_type valid_gate_type "got" gate_type).

(* ===================================================================== *)
(** * [TopKBalancedNoisyGate] *)
(* ===================================================================== *)

(** The attributes of the module; [training] is the flag of [nn.Module]
    that [train()] and [eval()] switch.  The buffers [mean] and [std] are
    the constants 0 and 1. *)
Record TopKBalancedNoisyGate : Type := {
  input_size : nat;
  num_experts : nat;
  num_selects : nat;
  use_balance : bool;
  add_noise : bool;
  use_softmax : bool;
  gate_network : GateNetwork;
  weight_noise : Linear T;
  training : bool
}.

Definition reset_parameters (self : TopKBalancedNoisyGate) : TopKBalancedNoisyGate :=
  {| input_size := input_size self;
     num_experts := num_experts self;
     num_selects := num_selects self;
     use_balance := use_balance self;
     add_noise := add_noise self;
     use_softmax := use_softmax self;
     gate_network := gate_network self;
     weight_noise := zeros_ (weight_noise self);
     training := training self |}.

(** The random draws of the three [nn.Linear] layers a construction makes. *)
Record initial_draws : Type := {
  draw_gate1 : nat -> nat -> T;
  draw_gate2 : nat -> nat -> T;
  draw_noise : nat -> nat -> T
}.

Definition __init__ (input_size num_experts num_selects : nat)
    (gate_network : string) (use_balance add_noise use_softmax : bool)
    (draws : initial_draws) : result TopKBalancedNoisyGate :=
  if num_selects <=? num_experts then
    gn <- get_gate_network gate_network input_size num_experts
            (draw_gate1 draws) (draw_gate2 draws) ;;
    Ok (reset_parameters
          {| input_size := input_size;
             num_experts := num_experts;
             num_selects := num_selects;
             use_balance := use_balance;
             add_noise := add_noise;
             use_softmax := use_softmax;
             gate_network := gn;
             weight_noise := new_Linear input_size num_experts (draw_noise draws);
             training := true |})
  else Err AssertionError.

(** What [__init__] establishes and training (which only changes weight
    values) keeps. *)
Definition Gate_wf (self : TopKBalancedNoisyGate) : Prop :=
  num_selects self <= num_experts self /\
  GateNetwork_wf (input_size self) (num_experts self) (gate_network self) /\
  Linear_wf (weight_noise self) /\
  in_features (weight_noise self) = input_size self /\
  out_features (weight_noise self) = num_experts self.

(** ** [cv_squared] *)

(** A one-dimensional tensor is integer ([load] without noise) or floating. *)
Inductive tensor1 : Type :=
| IntTensor (v : list nat)
| FloatTensor (v : vector T).

Definition shape0 (x : tensor1) : nat :=
  match x with IntTensor v => length v | FloatTensor v => length v end.

(** [x.float()] *)
Definition float (x : tensor1) : vector T :=
  match x with IntTensor v => map s_of_nat v | FloatTensor v => v end.

(** [Tensor.mean()] *)
Definition mean (v : vector T) : T := s_div (sum v) (s_of_nat (length v)).

(** [Tensor.var()]: the unbiased sample variance. *)
Definition var (v : vector T) : T :=
  s_div (sum (map (fun a => s_mul (s_sub a (mean v)) (s_sub a (mean v))) v))
        (s_sub (s_of_nat (length v)) s_one).

Definition cv_squared_eps : T := s_lit (1 # 10000000000).

Definition cv_squared (x : tensor1) (eps : T) : T :=
  if shape0 x =? 1 then s_zero
  else s_div (var (float x)) (s_add (s_mul (mean (float x)) (mean (float x))) eps).

(** ** [forward] *)

Definition default_noise_epsilon : T := s_lit (1 # 100).
Definition default_loss_coef : T := s_lit (1 # 100).

(** The locals that exist only on the noisy branch (lines 114-117). *)
Record noise_locals : Type := {
  noise_control : matrix T;
  logits_noise : matrix T
}.

(** Lines 112-120: the logits the selection works on. *)
Definition noisy_logits (self : TopKBalancedNoisyGate) (x : matrix T)
    (randn : nat -> nat -> T) (noise_epsilon : T) (logits_gate : matrix T)
    : result (option noise_locals * matrix T) :=
  if training self && add_noise self then
    noise_mm <- Linear_forward (weight_noise self) x ;;
    let noise_control :=
      map (map (fun v => s_add (s_softplus v) noise_epsilon)) noise_mm in
    let logits_noise :=
      map2 (map2 s_mul) (randn_like randn logits_gate) noise_control in
    let logits := map2 (map2 s_add) logits_gate logits_noise in
    Ok (Some {| noise_control := noise_control; logits_noise := logits_noise |},
        logits)
  else
    Ok (None, logits_gate).

(** The locals of lines 124-133. *)
Record selection : Type := {
  top_logits : matrix T;
  top_indices : list (list nat);
  top_k_logits : matrix T;
  top_k_indices : list (list nat);
  top_k_scores : matrix T
}.

(** Lines 124-133 (and, word for word, lines 206-215). *)
Definition select_top_k (self : TopKBalancedNoisyGate) (logits : matrix T)
    : result selection :=
  ' (top_logits, top_indices) <-
      topk (Nat.min (num_selects self + 1) (num_experts self)) logits ;;
  let top_k_logits := map (firstn (num_selects self)) top_logits in
  let top_k_indices := map (firstn (num_selects self)) top_indices in
  let top_k_scores :=
    if use_softmax self then softmax top_k_logits else top_k_logits in
  Ok {| top_logits := top_logits; top_indices := top_indices;
        top_k_logits := top_k_logits; top_k_indices := top_k_indices;
        top_k_scores := top_k_scores |}.

(** [threshold_positions_if_in], line 155-157. *)
Definition threshold_positions_if_in (batch_size m num_selects : nat) : list Z :=
  map (fun i => (Z.of_nat i * Z.of_nat m + Z.of_nat num_selects)%Z)
      (seq 0 batch_size).

(** [threshold_positions_if_out], line 162. *)
Definition threshold_positions_if_out (batch_size m num_selects : nat) : list Z :=
  map (fun p => (p - 1)%Z) (threshold_positions_if_in batch_size m num_selects).

(** [Normal(mean, std).cdf] with the buffers [mean = 0] and [std = 1].
    The library also checks the argument and raises [ValueError] when an
    entry is not a number; an arithmetic given by [Scalar] has no test for
    that, and the check is left out.  Statements about runs that reach the
    noisy estimate of the load and return say so. *)
Definition normal_cdf (v : T) : T :=
  s_normal_cdf (s_div (s_sub v s_zero) s_one).

(** The locals of the balance branch. *)
Record balance_locals : Type := {
  scores_filtered : matrix T;
  importance : vector T;
  load : tensor1
}.

(** Lines 145-176: the load.  [m] is [top_logits.size(1)], the number of
    columns [topk] was asked for. *)
Definition compute_load (self : TopKBalancedNoisyGate) (m : nat)
    (logits_gate : matrix T) (noise : option noise_locals)
    (top_logits scores_filtered : matrix T) : result tensor1 :=
  if add_noise self then
    let batch_size := length logits_gate in
    let top_values_flat := concat top_logits in
    let positions_if_in :=
      threshold_positions_if_in batch_size m (num_selects self) in
    threshold_if_in <- gather top_values_flat positions_if_in ;;
    match noise with
    | None => Err (UnboundLocalError "logits_noise")
    | Some nl =>
        let is_in :=
          map2 (fun row t => map (fun v => s_gt v t) row)
               (logits_noise nl) threshold_if_in in
        let positions_if_out :=
          threshold_positions_if_out batch_size m (num_selects self) in
        threshold_if_out <- gather top_values_flat positions_if_out ;;
        let prob_given threshold :=
          map3 (fun grow t crow =>
                  map2 (fun g c => normal_cdf (s_div (s_sub g t) c)) grow crow)
               logits_gate threshold (noise_control nl) in
        let prob_if_in := prob_given threshold_if_in in
        let prob_if_out := prob_given threshold_if_out in
        let prob :=
          map3 (map3 (fun (b : bool) p q => if b then p else q))
               is_in prob_if_in prob_if_out in
        Ok (FloatTensor (sum0 (num_experts self) prob))
    end
  else
    Ok (IntTensor (count_positive0 (num_experts self) scores_filtered)).

(** Lines 136-184 (and, word for word, lines 218-266). *)
Definition balance_loss (self : TopKBalancedNoisyGate) (loss_coef : T)
    (logits_gate : matrix T) (noise : option noise_locals) (logits : matrix T)
    (sel : selection) : result (option balance_locals * option T) :=
  if training self && use_balance self then
    let zeros := map (map (fun _ => s_zero)) logits in
    scores_filtered <- scatter zeros (top_k_indices sel) (top_k_scores sel) ;;
    let importance := sum0 (num_experts self) scores_filtered in
    load <- compute_load self
              (Nat.min (num_selects self + 1) (num_experts self))
              logits_gate noise (top_logits sel) scores_filtered ;;
    let gate_loss :=
      s_add (cv_squared (FloatTensor importance) cv_squared_eps)
            (cv_squared load cv_squared_eps) in
    let gate_loss := s_mul gate_loss loss_coef in
    Ok (Some {| scores_filtered := scores_filtered;
                importance := importance;
                load := load |},
        Some gate_loss)
  else
    Ok (None, None).

(** All locals of one run of [forward]. *)
Record forward_locals : Type := {
  logits_gate : matrix T;
  noise : option noise_locals;
  logits : matrix T;
  selected : selection;
  balance : option balance_locals;
  gate_loss : option T
}.

(** The body of [forward], lines 111-184. *)
Definition forward_body (self : TopKBalancedNoisyGate) (x : matrix T)
    (randn : nat -> nat -> T) (noise_epsilon loss_coef : T)
    : result forward_locals :=
  logits_gate <- GateNetwork_forward (gate_network self) x ;;
  ' (noise, logits) <- noisy_logits self x randn noise_epsilon logits_gate ;;
  sel <- select_top_k self logits ;;
  ' (balance, gate_loss) <-
      balance_loss self loss_coef logits_gate noise logits sel ;;
  Ok {| logits_gate := logits_gate; noise := noise; logits := logits;
        selected := sel; balance := balance; gate_loss := gate_loss |}.

(** [forward]: the body and line 186,
    [return top_k_indices, top_k_scores, gate_loss]. *)
Definition forward (self : TopKBalancedNoisyGate) (x : matrix T)
    (randn : nat -> nat -> T) (noise_epsilon loss_coef : T)
    : result (list (list nat) * matrix T * option T) :=
  loc <- forward_body self x randn noise_epsilon loss_coef ;;
  Ok (top_k_indices (selected loc), top_k_scores (selected loc), gate_loss loc).

(** ** [forward_return_scores]

    Line 192 reads [torch.mm(x, self.weight_noise)] where [forward] has
    [self.weight_noise(x)]. *)
Definition forward_return_scores (self : TopKBalancedNoisyGate) (x : matrix T)
    (randn : nat -> nat -> T) (noise_epsilon loss_coef : T)
    : result (matrix T * option T) :=
  logits_gate <- GateNetwork_forward (gate_network self) x ;;
  ' (noise, logits) <-
      (if training self && add_noise self then
         noise_mm <- torch_mm (PTensor x) (PModule (weight_noise self)) ;;
         let noise_control :=
           map (map (fun v => s_add (s_softplus v) noise_epsilon)) noise_mm in
         let logits_noise :=
           map2 (map2 s_mul) (randn_like randn logits_gate) noise_control in
         let logits := map2 (map2 s_add) logits_gate logits_noise in
         Ok (Some {| noise_control := noise_control;
                     logits_noise := logits_noise |}, logits)
       else Ok (None, logits_gate)) ;;
  let scores := if use_softmax self then softmax logits else logits in
  sel <- select_top_k self logits ;;
  ' (_, gate_loss) <- balance_loss self loss_coef logits_gate noise logits sel ;;
  Ok (scores, gate_loss).

(** What the selection of a well-formed gate looks like on a batch of [b]
    rows. *)
Definition selection_ok (self : TopKBalancedNoisyGate) (b : nat) (sel : selection) : Prop :=
  shape_is b (Nat.min (num_selects self + 1) (num_experts self)) (top_logits sel) /\
  shape_is b (num_selects self) (top_k_indices sel) /\
  Forall (fun row => NoDup row /\ Forall (fun i => i < num_experts self) row)
         (top_k_indices sel) /\
  shape_is b (num_selects self) (top_k_scores sel).

End Gate.

End MoeGates.

(* ===================================================================== *)
(** * Exact real arithmetic *)
(* ===================================================================== *)

Module RealArith.

Local Open Scope R_scope.

(** The density of the standard normal law, up to its constant factor. *)
Definition gauss (t : R) : R := exp (- (t * t) / 2).

Lemma gauss_continuous : continuity gauss.
Proof.
  unfold gauss. apply continuity_comp with (f1 := fun t => - (t * t) / 2).
  - reg.
  - intro x. apply derivable_continuous_pt, derivable_pt_exp.
Qed.

Lemma gauss_integrable (a b : R) : Riemann_integrable gauss a b.
Proof.
  destruct (Rle_dec a b) as [Hab | Hab].
  - apply continuity_implies_RiemannInt; [exact Hab | ].
    intros x _. apply gauss_continuous.
  - apply RiemannInt_P1, continuity_implies_RiemannInt; [lra | ].
    intros x _. apply gauss_continuous.
Qed.

(** The cumulative distribution function of the standard normal law. *)
Definition Phi (x : R) : R :=
  1 / 2 + / sqrt (2 * PI) * RiemannInt (gauss_integrable 0 x).

(** [nn.Softplus()] with its defaults [beta = 1] and [threshold = 20]:
    above the threshold the library returns the input itself. *)
Definition softplus (x : R) : R :=
  if Rgt_dec x 20 then x else ln (1 + exp x).

Definition Rgtb (a b : R) : bool := if Rgt_dec a b then true else false.

#[export] Instance R_scalar : Scalar R := {|
  s_zero := 0;
  s_one := 1;
  s_add := Rplus;
  s_sub := Rminus;
  s_mul := Rmult;
  s_div := Rdiv;
  s_gt := Rgtb;
  s_exp := exp;
  s_tanh := tanh;
  s_softplus := softplus;
  s_normal_cdf := Phi;
  s_lit := Q2R;
  s_of_nat := INR
|}.

(** A gate over one input feature whose two projections hold zeros: what
    [__init__] builds for the gate type [linear] (see
    [init_example_gate]). *)
Definition zero_Linear (n_out : nat) : MoeGates.Linear R :=
  {| MoeGates.in_features := 1;
     MoeGates.out_features := n_out;
     MoeGates.weight := repeat [0] n_out |}.

Definition example_gate (num_experts num_selects : nat)
    (use_balance add_noise use_softmax training : bool)
    : MoeGates.TopKBalancedNoisyGate :=
  {| MoeGates.input_size := 1;
     MoeGates.num_experts := num_experts;
     MoeGates.num_selects := num_selects;
     MoeGates.use_balance := use_balance;
     MoeGates.add_noise := add_noise;
     MoeGates.use_softmax := use_softmax;
     MoeGates.gate_network := MoeGates.GateLinear (zero_Linear num_experts);
     MoeGates.weight_noise := zero_Linear num_experts;
     MoeGates.training := training |}.

(** A gate of two experts with trained weights: on the input 1 the logits
    of the experts are -1 and -2. *)
Definition trained_gate (num_selects : nat)
    (use_balance add_noise use_softmax training : bool)
    : MoeGates.TopKBalancedNoisyGate :=
  {| MoeGates.input_size := 1;
     MoeGates.num_experts := 2;
     MoeGates.num_selects := num_selects;
     MoeGates.use_balance := use_balance;
     MoeGates.add_noise := add_noise;
     MoeGates.use_softmax := use_softmax;
     MoeGates.gate_network :=
       MoeGates.GateLinear
         {| MoeGates.in_features := 1;
            MoeGates.out_features := 2;
            MoeGates.weight := [[-1]; [-2]] |};
     MoeGates.weight_noise := zero_Linear 2;
     MoeGates.training := training |}.

(** A row of zeros, as [torch.zeros_like] makes them. *)
Definition all_zero (row : list R) : Prop := Forall (fun a => a = 0) row.

(** A batch of one row, and a noise sample. *)
Definition example_batch : MoeGates.matrix R := [[1]].

Definition example_randn : nat -> nat -> R := fun i j => INR (i + j).

Definition example_draws : MoeGates.initial_draws :=
  {| MoeGates.draw_gate1 := fun _ _ => 1;
     MoeGates.draw_gate2 := fun _ _ => 1;
     MoeGates.draw_noise := fun _ _ => 1 |}.

End RealArith.

(** The quantities the description of [cv_squared] names, over the reals:
    the mean of a sample and its variance, the mean squared deviation with
    Bessel's correction (what [Tensor.var] computes by default). *)
Module SampleStatistics.

Local Open Scope R_scope.

Definition total (v : list R) : R := fold_right Rplus 0 v.

Definition sample_mean (v : list R) : R := total v / INR (length v).

Definition sample_variance (v : list R) : R :=
  total (map (fun a => (a - sample_mean v) ^ 2) v) / (INR (length v) - 1).

End SampleStatistics.

(* ===================================================================== *)
(** * Single precision *)
(* ===================================================================== *)

(** The arithmetic of a [torch.float32] tensor: IEEE 754 binary32 with
    rounding to nearest, ties to even, as [SpecFloat] defines it (24 bits
    of precision, exponents below 128).  The four library functions that
    are not arithmetic come in a record [libm]; nothing is assumed about
    them. *)
Module Float32.

Definition prec : Z := 24.
Definition emax : Z := 128.

Definition float32 : Type := SpecFloat.spec_float.

(** The conversion of an integer, rounded when it has more than 24 bits. *)
Definition of_Z (z : Z) : float32 :=
  SpecFloat.binary_normalize prec emax z 0 false.

(** A literal of the source is a Python float, that is a binary64 number,
    which the library casts to the element type of the tensor it meets.
    The quotient is the binary64 number next to the literal when numerator
    and denominator are binary64 numbers themselves (integers of at most
    53 bits, as in every literal of the source, or powers of two). *)
Definition float64_of_Z (z : Z) : SpecFloat.spec_float :=
  SpecFloat.binary_normalize 53 1024 z 0 false.

Definition of_float64 (x : SpecFloat.spec_float) : float32 :=
  match x with
  | SpecFloat.S754_finite s m e => SpecFloat.binary_round prec emax s m e
  | _ => x
  end.

Definition literal (q : Q) : float32 :=
  of_float64 (SpecFloat.SFdiv 53 1024 (float64_of_Z (Qnum q))
                                      (float64_of_Z (Zpos (Qden q)))).

Record libm : Type := {
  exp : float32 -> float32;
  tanh : float32 -> float32;
  softplus : float32 -> float32;
  normal_cdf : float32 -> float32
}.

Definition scalar (m : libm) : Scalar float32 :=
  {| s_zero := SpecFloat.S754_zero false;
     s_one := of_Z 1;
     s_add := SpecFloat.SFadd prec emax;
     s_sub := SpecFloat.SFsub prec emax;
     s_mul := SpecFloat.SFmul prec emax;
     s_div := SpecFloat.SFdiv prec emax;
     s_gt := fun a b => SpecFloat.SFltb b a;
     s_exp := exp m;
     s_tanh := tanh m;
     s_softplus := softplus m;
     s_normal_cdf := normal_cdf m;
     s_lit := literal;
     s_of_nat := fun n => of_Z (Z.of_nat n) |}.

End Float32.

(* ===================================================================== *)
(** * The clustering-distribution entry point *)
(* ===================================================================== *)

Module ClusteringDistribution.

(** A parsed line of a JSON-lines file. *)
#[local] Unset Elimination Schemes.
Inductive json : Type :=
| JNull
| JBool (b : bool)
| JNumber (z : Z)
| JString (s : string)
| JArray (items : list json)
| JObject (fields : list (string * json)).
#[local] Set Elimination Schemes.

(** A Python [dict] from strings to integers, in insertion order. *)
Definition dict : Type := list (string * nat).

Fixpoint dict_getitem (d : dict) (key : string) : result nat :=
  match d with
  | [] => Err (KeyError key)
  | (k, v) :: d' => if String.eqb k key then Ok v else dict_getitem d' key
  end.

Fixpoint dict_setitem (d : dict) (key : string) (v : nat) : dict :=
  match d with
  | [] => [(key, v)]
  | (k, w) :: d' =>
      if String.eqb k key then (k, v) :: d' else (k, w) :: dict_setitem d' key v
  end.

(** [ins[key]] on a parsed line. *)
Fixpoint fields_getitem (fields : list (string * json)) (key : string) : result json :=
  match fields with
  | [] => Err (KeyError key)
  | (k, v) :: fields' =>
      if String.eqb k key then Ok v else fields_getitem fields' key
  end.

Definition json_getitem (ins : json) (key : string) : result json :=
  match ins with
  | JObject fields => fields_getitem fields key
  | _ => Err (TypeError "indices must be integers")
  end.

(** [str.split(sep)] for a separator of one character: never empty. *)
Fixpoint split (sep : ascii) (s : string) : list string :=
  match s with
  | EmptyString => [EmptyString]
  | String c s' =>
      if Ascii.eqb c sep then EmptyString :: split sep s'
      else match split sep s' with
           | w :: ws => String c w :: ws
           | [] => [String c EmptyString]
           end
  end.

Definition json_split (v : json) (sep : ascii) : result (list string) :=
  match v with
  | JString s => Ok (split sep s)
  | _ => Err (AttributeError "split")
  end.

Definition getitem0 (l : list string) : result string :=
  match l with
  | w :: _ => Ok w
  | [] => Err IndexError
  end.

(** Lines 17-25. *)
Definition initial_source_to_num : dict :=
  [("arxiv"%string, 0); ("books"%string, 0); ("c4"%string, 0);
   ("commoncrawl"%string, 0); ("github"%string, 0);
   ("stackexchange"%string, 0); ("wikipedia"%string, 0)].

(** Line 28: [ins["file"].split("-")[0]]. *)
Definition source_of (ins : json) : result string :=
  file <- json_getitem ins "file" ;;
  parts <- json_split file "-"%char ;;
  getitem0 parts.

(** Lines 27-29: the loop over the records of one file. *)
Fixpoint count_sources (data : list json) (source_to_num : dict) : result dict :=
  match data with
  | [] => Ok source_to_num
  | ins :: data' =>
      source <- source_of ins ;;
      n <- dict_getitem source_to_num source ;;
      count_sources data' (dict_setitem source_to_num source (n + 1))
  end.

(** A file the directory scan found: its path, its stem and what
    [load_jsonlines] reads from it. *)
Record cluster_file : Type := {
  path : string;
  stem : string;
  records : list json
}.

(** What a run shows to the outside: the charts drawn and the lines printed. *)
Inductive event : Type :=
| Barh (source_to_num : dict) (title save_filepath : string)
| Print (line : string).

(** Lines 16-35 for one file. *)
Definition process_file (file : cluster_file) : result (list event) :=
  let cluster_idx := stem file in
  source_to_num <- count_sources (records file) initial_source_to_num ;;
  Ok [Barh source_to_num
           ("Cluster " ++ cluster_idx)%string
           ("results/analysis/cluster_" ++ cluster_idx ++ ".png")%string;
      Print ("Done: " ++ path file)%string].

(** [main]: the files in the order of the scan; an exception ends the run
    after the events of the files before it. *)
Fixpoint main (files : list cluster_file) : list event * option exn :=
  match files with
  | [] => ([], None)
  | file :: files' =>
      match process_file file with
      | Ok evs => let (evs', e) := main files' in (evs ++ evs', e)
      | Err e => ([], Some e)
      end
  end.

(** The source key of a [file] field: the part before the first dash. *)
Definition prefix_of (file : string) : string := hd EmptyString (split "-" file).

Definition known_sources : list string := map fst initial_source_to_num.

(** The number of records whose [file] field has the prefix [key]. *)
Definition count_prefix (key : string) (files : list string) : nat :=
  length (filter (fun f => String.eqb (prefix_of f) key) files).

(** A record that has a [file] field holding the string [f]. *)
Definition has_file (ins : json) (f : string) : Prop :=
  json_getitem ins "file" = Ok (JString f).

(** A record with the fields [text] and [file]. *)
Definition record_of (file : string) : json :=
  JObject [("text"%string, JString "..."); ("file"%string, JString file)].

End ClusteringDistribution.

(* ===================================================================== *)
(** * The class [WeightNoise] *)
(* ===================================================================== *)

Module WeightNoiseClass.

Import MoeGates.

Section WeightNoise.

Context {T : Type} {ST : Scalar T}.

(** The module has one parameter, [weight], a tensor of shape
    [(num_experts, input_size)]. *)
Record WeightNoise : Type := {
  weight_rows : nat;
  weight_cols : nat;
  weight_data : matrix T
}.

(** Lines 38-39. *)
Definition reset_parameters (self : WeightNoise) : WeightNoise :=
  {| weight_rows := weight_rows self;
     weight_cols := weight_cols self;
     weight_data := map (map (fun _ => s_zero)) (weight_data self) |}.

(** Lines 28-36: [torch.empty] leaves the entries as they are in memory,
    [empty i j] for the entry [(i, j)]. *)
Definition __init__ (input_size num_experts : nat) (empty : nat -> nat -> T)
    : WeightNoise :=
  reset_parameters
    {| weight_rows := num_experts;
       weight_cols := input_size;
       weight_data :=
         map (fun i => map (fun j => empty i j) (seq 0 input_size))
             (seq 0 num_experts) |}.

(** Lines 41-42. *)
Definition forward (self : WeightNoise) (input_hidden : matrix T)
    : result (matrix T) :=
  F_linear input_hidden (weight_data self) (weight_cols self).

End WeightNoise.

End WeightNoiseClass.

(* ===================================================================== *)
(** * The expert-load visualization entry point *)
(* ===================================================================== *)

Module VisualizeExpertLoad.

Import MoeGates.

(** The functions a [forward] attribute can be bound to: the one of the
    class, or one of the four replacements [change_forward] installs. *)
Inductive forward_impl : Type :=
| class_forward
| forward_llama_moe_model_with_padding_mask
| forward_llama_moe_decoder_with_padding_mask
| forward_linear_glu_moe_layer_with_padding_mask
| forward_mlp_moe_gate_with_hidden_states_recording.

(** [type(layer.mlp.gate)]. *)
Inductive gate_class : Type :=
| Class_TopKBalancedNoisyGate
| Class_other (name : string).

Definition gate_class_eqb (a b : gate_class) : bool :=
  match a, b with
  | Class_TopKBalancedNoisyGate, Class_TopKBalancedNoisyGate => true
  | Class_other n, Class_other n' => String.eqb n n'
  | _, _ => false
  end.

Section Model.

Context {T : Type} {ST : Scalar T}.

(** The five attributes lines 40-44 attach to a gate. *)
Record statistics : Type := {
  samples_cnt : nat;
  importance_sum : vector T;
  importance_loss_sum : vector T;
  load_sum : vector T;
  load_loss_sum : vector T
}.

(** A gate object: its class, what its [forward] is bound to, and the
    statistics, absent until they are attached. *)
Record gate_object : Type := {
  gate_type : gate_class;
  gate_forward : forward_impl;
  gate_statistics : option statistics
}.

Record mlp_object : Type := {
  mlp_forward : forward_impl;
  gate : gate_object
}.

Record layer_object : Type := {
  layer_forward : forward_impl;
  mlp : mlp_object
}.

Record LlamaModel : Type := {
  model_forward : forward_impl;
  config_num_experts : nat;
  layers : list layer_object
}.

(** [type(layer.mlp.gate)] and the statistics attached to
    [layer.mlp.gate]. *)
Definition class_of (layer : layer_object) : gate_class :=
  gate_type (gate (mlp layer)).

Definition statistics_of (layer : layer_object) : option statistics :=
  gate_statistics (gate (mlp layer)).

(** Lines 40-44. *)
Definition zero_statistics (num_experts : nat) : statistics :=
  {| samples_cnt := 0;
     importance_sum := zeros num_experts;
     importance_loss_sum := zeros 1;
     load_sum := zeros num_experts;
     load_loss_sum := zeros 1 |}.

(** Lines 36-44: what the loop body does to one layer whose gate passed the
    assertion. *)
Definition patch_layer (num_experts : nat) (layer : layer_object) : layer_object :=
  {| layer_forward := forward_llama_moe_decoder_with_padding_mask;
     mlp :=
       {| mlp_forward := forward_linear_glu_moe_layer_with_padding_mask;
          gate :=
            {| gate_type := gate_type (gate (mlp layer));
               gate_forward := forward_mlp_moe_gate_with_hidden_states_recording;
               gate_statistics := Some (zero_statistics num_experts) |} |} |}.

(** Lines 33-44: the loop.  The objects are changed in place, so the layers
    already patched stay patched when the assertion stops the loop. *)
Fixpoint patch_layers (num_experts : nat) (ls : list layer_object)
    : list layer_object * option exn :=
  match ls with
  | [] => ([], None)
  | layer :: ls' =>
      if gate_class_eqb (gate_type (gate (mlp layer))) Class_TopKBalancedNoisyGate
      then let (ls'', e) := patch_layers num_experts ls' in
           (patch_layer num_experts layer :: ls'', e)
      else (layer :: ls', Some AssertionError)
  end.

(** [change_forward], lines 30-44: the model after the call, and the
    exception if one was raised.  The argument [device] only says where the
    zero tensors are placed. *)
Definition change_forward (llama_model : LlamaModel) : LlamaModel * option exn :=
  let (ls, e) := patch_layers (config_num_experts llama_model) (layers llama_model) in
  ({| model_forward := forward_llama_moe_model_with_padding_mask;
      config_num_experts := config_num_experts llama_model;
      layers := ls |}, e).

(** [layer.mlp.gate.<name>] for one of the attached attributes. *)
Definition gate_attribute {A : Type} (name : string) (get : statistics -> A)
    (layer : layer_object) : result A :=
  match gate_statistics (gate (mlp layer)) with
  | Some st => Ok (get st)
  | None => Err (AttributeError name)
  end.

(** The mapping lines 119-135 assemble and line 139 saves. *)
Record saved_dict : Type := {
  saved_samples_cnt : nat;
  importance_sum_list : list (vector T);
  importance_loss_sum_list : list (vector T);
  load_sum_list : list (vector T);
  load_loss_sum_list : list (vector T)
}.

(** Lines 131-135: the loop that appends, layer by layer, to the four
    lists. *)
Fixpoint append_statistics (ls : list layer_object) (d : saved_dict)
    : result saved_dict :=
  match ls with
  | [] => Ok d
  | layer :: ls' =>
      a <- gate_attribute "importance_sum" importance_sum layer ;;
      b <- gate_attribute "importance_loss_sum" importance_loss_sum layer ;;
      c <- gate_attribute "load_sum" load_sum layer ;;
      e <- gate_attribute "load_loss_sum" load_loss_sum layer ;;
      append_statistics ls'
        {| saved_samples_cnt := saved_samples_cnt d;
           importance_sum_list := importance_sum_list d ++ [a];
           importance_loss_sum_list := importance_loss_sum_list d ++ [b];
           load_sum_list := load_sum_list d ++ [c];
           load_loss_sum_list := load_loss_sum_list d ++ [e] |}
  end.

(** Lines 119-135: the count is read off the first layer before the loop
    starts. *)
Definition collect_saved_dict (model : LlamaModel) : result saved_dict :=
  match layers model with
  | [] => Err IndexError
  | layer0 :: _ =>
      cnt <- gate_attribute "samples_cnt" samples_cnt layer0 ;;
      append_statistics (layers model)
        {| saved_samples_cnt := cnt;
           importance_sum_list := [];
           importance_loss_sum_list := [];
           load_sum_list := [];
           load_loss_sum_list := [] |}
  end.

(** The charts of lines 103-116. *)
Inductive chart : Type :=
| Heatmap (load_sum : vector T) (layer_idx : nat) (dataset_name save_dir : string)
| Barv (load_sum : vector T) (layer_idx : nat) (dataset_name save_dir : string).

(** Lines 103-116: the charts drawn before an exception, and the
    exception. *)
Fixpoint visualize_from (layer_idx : nat) (ls : list layer_object)
    (dataset_name save_path : string) : list chart * option exn :=
  match ls with
  | [] => ([], None)
  | layer :: ls' =>
      match gate_attribute "load_sum" load_sum layer with
      | Err e => ([], Some e)
      | Ok v =>
          let (cs, e) := visualize_from (S layer_idx) ls' dataset_name save_path in
          (Heatmap v layer_idx dataset_name (save_path ++ "-heat")
             :: Barv v layer_idx dataset_name (save_path ++ "-bar") :: cs, e)
      end
  end.

(** The two charts of one layer. *)
Definition charts_of (dataset_name save_path : string) (ist : nat * statistics)
    : list chart :=
  [Heatmap (load_sum (snd ist)) (fst ist) dataset_name (save_path ++ "-heat");
   Barv (load_sum (snd ist)) (fst ist) dataset_name (save_path ++ "-bar")].

Definition visualize (model : LlamaModel) (dataset_name save_path : string)
    : list chart * option exn :=
  visualize_from 0 (layers model) dataset_name save_path.

End Model.

(** [os.path.split(path)[1]]: what follows the last slash. *)
Definition path_tail (path : string) : string :=
  last (ClusteringDistribution.split "/" path) EmptyString.

(** Line 102: [os.path.split(args.data_path)[1].split(".")[0] +
    args.save_name_prefix]. *)
Definition dataset_name (data_path save_name_prefix : string) : string :=
  (hd EmptyString (ClusteringDistribution.split "." (path_tail data_path))
   ++ save_name_prefix)%string.

End VisualizeExpertLoad.

(** Example models: layers as a checkpoint loads them, with a gate of the
    expected class or of another one, and a layer whose gate has gathered
    statistics. *)
Module VisualizeExamples.

Import VisualizeExpertLoad RealArith.

Definition loaded_layer (c : gate_class) : layer_object (T:=R) :=
  {| layer_forward := class_forward;
     mlp := {| mlp_forward := class_forward;
               gate := {| gate_type := c;
                          gate_forward := class_forward;
                          gate_statistics := None |} |} |}.

Definition used_statistics : statistics (T:=R) :=
  {| samples_cnt := 4;
     importance_sum := [1; 3]%R;
     importance_loss_sum := [2]%R;
     load_sum := [1; 3]%R;
     load_loss_sum := [2]%R |}.

Definition used_layer : layer_object (T:=R) :=
  {| layer_forward := forward_llama_moe_decoder_with_padding_mask;
     mlp := {| mlp_forward := forward_linear_glu_moe_layer_with_padding_mask;
               gate := {| gate_type := Class_TopKBalancedNoisyGate;
                          gate_forward :=
                            forward_mlp_moe_gate_with_hidden_states_recording;
                          gate_statistics := Some used_statistics |} |} |}.

Definition example_model (ls : list (layer_object (T:=R))) : LlamaModel :=
  {| model_forward := class_forward; config_num_experts := 2; layers := ls |}.

End VisualizeExamples.

(** [occurs c s]: the character [c] occurs in [s] (Python's [c in s]). *)
Fixpoint occurs (c : ascii) (s : string) : bool :=
  match s with
  | EmptyString => false
  | String c' s' => Ascii.eqb c' c || occurs c s'
  end.

(* ===================================================================== *)
(** * Facts about the list helpers and the result monad *)
(* ===================================================================== *)

Unset Implicit Arguments.

Section ListFacts.

Lemma bind_ok {A B : Type} (c : result A) (k : A -> result B) (b : B) :
  bind c k = Ok b -> exists a, c = Ok a /\ k a = Ok b.
Proof. destruct c as [a | e]; simpl; [eauto | discriminate]. Qed.

Lemma map2_length {A B C : Type} (f : A -> B -> C) (l : list A) (l' : list B) :
  length (map2 f l l') = Nat.min (length l) (length l').
Proof. unfold map2. now rewrite length_map, length_combine. Qed.

Lemma map2_cons {A B C : Type} (f : A -> B -> C) a b (l : list A) (l' : list B) :
  map2 f (a :: l) (b :: l') = f a b :: map2 f l l'.
Proof. reflexivity. Qed.

Lemma mapM_ok_length {A B : Type} (f : A -> result B) (l : list A) (r : list B) :
  mapM f l = Ok r -> length r = length l.
Proof.
  revert r. induction l as [| a l IH]; simpl; intros r Hr.
  - now inversion Hr.
  - apply bind_ok in Hr as (b & _ & Hr).
    apply bind_ok in Hr as (bs & Hbs & Hr).
    inversion Hr; subst. simpl. f_equal. now apply IH.
Qed.

Lemma mapM_ok_Forall2 {A B : Type} (f : A -> result B) (l : list A) (r : list B) :
  mapM f l = Ok r -> Forall2 (fun a b => f a = Ok b) l r.
Proof.
  revert r. induction l as [| a l IH]; simpl; intros r Hr.
  - inversion Hr. constructor.
  - apply bind_ok in Hr as (b & Hb & Hr).
    apply bind_ok in Hr as (bs & Hbs & Hr).
    inversion Hr; subst. constructor; auto.
Qed.

Lemma mapM_total {A B : Type} (f : A -> result B) (l : list A) :
  Forall (fun a => exists b, f a = Ok b) l -> exists r, mapM f l = Ok r.
Proof.
  induction 1 as [| a l (b & Hb) _ (r & Hr)]; simpl.
  - eauto.
  - rewrite Hb, Hr. simpl. eauto.
Qed.

Lemma set_nth_length {A : Type} (i : nat) (a : A) (l : list A) :
  length (set_nth i a l) = length l.
Proof.
  revert i. induction l as [| b l IH]; intros [| i]; simpl; auto.
Qed.

Lemma map_snd_combine {A B : Type} (l : list A) (l' : list B) :
  length l = length l' -> map snd (combine l l') = l'.
Proof.
  revert l'. induction l as [| a l IH]; intros [| b l']; simpl; intro Hlen;
    try discriminate; [reflexivity | ].
  f_equal. apply IH. now injection Hlen.
Qed.

End ListFacts.

(* ===================================================================== *)
(** * Facts about the tensor operations *)
(* ===================================================================== *)

Module TensorFacts.

Import MoeGates.

Section Generic.

Context {T : Type} {ST : Scalar T}.

Lemma In_firstn {A : Type} (k : nat) (l : list A) (a : A) :
  In a (firstn k l) -> In a l.
Proof.
  intro Hin. rewrite <- (firstn_skipn k l). apply in_or_app. now left.
Qed.

Lemma NoDup_firstn {A : Type} (k : nat) (l : list A) :
  NoDup l -> NoDup (firstn k l).
Proof.
  intro Hnd. rewrite <- (firstn_skipn k l) in Hnd.
  now apply NoDup_app_remove_r in Hnd.
Qed.

Lemma Forall_firstn {A : Type} (P : A -> Prop) (k : nat) (l : list A) :
  Forall P l -> Forall P (firstn k l).
Proof.
  rewrite !Forall_forall. intros Hl a Ha. apply Hl. eapply In_firstn, Ha.
Qed.

(** ** Shapes *)

Lemma shape_is_rows {A : Type} (b d : nat) (x : list (list A)) :
  shape_is b d x -> rows_have d x = true.
Proof.
  intros [_ Hrows]. unfold rows_have. apply forallb_forall.
  rewrite Forall_forall in Hrows. intros row Hrow.
  apply Nat.eqb_eq. now apply Hrows.
Qed.

Lemma shape_is_map {A B : Type} (f : list A -> list B) (b d d' : nat)
    (x : list (list A)) :
  (forall row, length row = d -> length (f row) = d') ->
  shape_is b d x -> shape_is b d' (map f x).
Proof.
  intros Hf [Hb Hrows]. split.
  - now rewrite length_map.
  - apply Forall_map. eapply Forall_impl; [ | exact Hrows]. exact Hf.
Qed.

Lemma shape_is_map2 {A B C : Type} (f : list A -> list B -> list C)
    (b d1 d2 d : nat) (x : list (list A)) (y : list (list B)) :
  (forall r1 r2, length r1 = d1 -> length r2 = d2 -> length (f r1 r2) = d) ->
  shape_is b d1 x -> shape_is b d2 y -> shape_is b d (map2 f x y).
Proof.
  intros Hf [Hx Hxr] [Hy Hyr]. split.
  - rewrite map2_length. lia.
  - clear Hx Hy. revert y Hyr.
    induction Hxr as [| r1 x Hr1 _ IH]; intros y Hyr.
    + constructor.
    + destruct Hyr as [| r2 y Hr2 Hyr].
      * constructor.
      * rewrite map2_cons. constructor; auto.
Qed.

Lemma F_linear_shape (x w : matrix T) (b d : nat) :
  shape_is b d x ->
  exists y, F_linear x w d = Ok y /\ shape_is b (length w) y.
Proof.
  intro Hx. unfold F_linear. rewrite (shape_is_rows _ _ _ Hx).
  eexists. split; [reflexivity | ].
  eapply shape_is_map; [ | exact Hx].
  intros row _. now rewrite length_map.
Qed.

Lemma randn_like_shape (randn : nat -> nat -> T) (b d : nat) (x : matrix T) :
  shape_is b d x -> shape_is b d (randn_like randn x).
Proof.
  intros [Hb Hrows]. unfold randn_like, enumerate. split.
  - now rewrite length_map, length_combine, length_seq, Nat.min_id.
  - apply Forall_map. rewrite Forall_forall in *. intros [i row] Hin.
    apply in_combine_r in Hin. simpl.
    rewrite length_map, length_combine, length_seq, Nat.min_id. auto.
Qed.

(** ** [topk] *)

Lemma insert_desc_perm (p : T * nat) (l : list (T * nat)) :
  Permutation (insert_desc p l) (p :: l).
Proof.
  induction l as [| q l IH]; simpl.
  - apply Permutation_refl.
  - destruct (s_gt (fst q) (fst p)).
    + rewrite IH. apply perm_swap.
    + apply Permutation_refl.
Qed.

Lemma sort_desc_perm (l : list (T * nat)) : Permutation (sort_desc l) l.
Proof.
  induction l as [| p l IH]; simpl.
  - constructor.
  - rewrite insert_desc_perm. now constructor.
Qed.

Lemma topk_row_spec (k : nat) (row : vector T) (vals : vector T) (idxs : list nat) :
  topk_row k row = Ok (vals, idxs) ->
  k <= length row /\ length vals = k /\ length idxs = k /\
  NoDup idxs /\ Forall (fun i => i < length row) idxs.
Proof.
  unfold topk_row. destruct (Nat.leb_spec k (length row)) as [Hk | Hk];
    [ | discriminate].
  intro Hr. inversion Hr; subst; clear Hr.
  pose proof (sort_desc_perm (combine row (seq 0 (length row)))) as Hperm.
  assert (Hlen : length (sort_desc (combine row (seq 0 (length row)))) = length row).
  { rewrite (Permutation_length Hperm), length_combine, length_seq. lia. }
  assert (Hsnd : Permutation
                   (map snd (sort_desc (combine row (seq 0 (length row)))))
                   (seq 0 (length row))).
  { rewrite (Permutation_map snd Hperm).
    rewrite map_snd_combine by (now rewrite length_seq).
    apply Permutation_refl. }
  repeat split.
  - exact Hk.
  - rewrite length_map, length_firstn. lia.
  - rewrite length_map, length_firstn. lia.
  - rewrite <- firstn_map. apply NoDup_firstn.
    eapply Permutation_NoDup; [apply Permutation_sym, Hsnd | apply seq_NoDup].
  - rewrite <- firstn_map. apply Forall_firstn, Forall_forall.
    intros i Hi. apply (Permutation_in _ Hsnd), in_seq in Hi. lia.
Qed.

Lemma topk_row_total (k : nat) (row : vector T) :
  k <= length row -> exists r, topk_row k row = Ok r.
Proof.
  intro Hk. unfold topk_row.
  destruct (Nat.leb_spec k (length row)); [eauto | lia].
Qed.

Lemma in_combine_seq (row : vector T) (n : nat) (v : T) (i : nat) :
  In (v, i) (combine row (seq n (length row))) ->
  n <= i /\ nth (i - n) row s_zero = v.
Proof.
  revert n. induction row as [| a row IH]; simpl; intros n Hin; [contradiction | ].
  destruct Hin as [Heq | Hin].
  - inversion Heq; subst. rewrite Nat.sub_diag. auto.
  - apply IH in Hin as [Hle Hnth]. split; [lia | ].
    replace (i - n) with (S (i - S n)) by lia. exact Hnth.
Qed.

(** The entries [topk] returns are the entries of the row at the positions
    it returns. *)
Lemma topk_row_values (k : nat) (row : vector T) (vals : vector T) (idxs : list nat) :
  topk_row k row = Ok (vals, idxs) ->
  vals = map (fun i => nth i row s_zero) idxs.
Proof.
  unfold topk_row. destruct (k <=? length row); [ | discriminate].
  intro Hr. inversion Hr; subst; clear Hr.
  rewrite map_map. apply map_ext_in. intros [v i] Hin. simpl.
  apply In_firstn in Hin.
  apply (Permutation_in _ (sort_desc_perm _)) in Hin.
  apply in_combine_seq in Hin as [_ Hnth]. now rewrite Nat.sub_0_r in Hnth.
Qed.

Lemma topk_spec (k b d : nat) (x top : matrix T) (idx : list (list nat)) :
  shape_is b d x ->
  topk k x = Ok (top, idx) ->
  shape_is b k top /\ shape_is b k idx /\
  Forall (fun row => NoDup row /\ Forall (fun i => i < d) row) idx.
Proof.
  intros [Hb Hrows] Htop. unfold topk in Htop.
  apply bind_ok in Htop as (rs & Hrs & Htop). inversion Htop; subst; clear Htop.
  pose proof (mapM_ok_length _ _ _ Hrs) as Hlen.
  apply mapM_ok_Forall2 in Hrs.
  assert (Hall : Forall (fun r => length (fst r) = k /\ length (snd r) = k /\
                                  NoDup (snd r) /\ Forall (fun i => i < d) (snd r)) rs).
  { clear Hlen. induction Hrs as [| row [vals idxs] x rs Hrow _ IH];
      [constructor | ].
    inversion Hrows as [| ? ? Hrow_len Hrows']; subst.
    constructor; [ | now apply IH].
    apply topk_row_spec in Hrow as (_ & ? & ? & ? & ?). simpl. auto. }
  repeat split.
  - now rewrite length_map.
  - apply Forall_map. eapply Forall_impl; [ | exact Hall]. now intros r (? & _).
  - now rewrite length_map.
  - apply Forall_map. eapply Forall_impl; [ | exact Hall]. now intros r (_ & ? & _).
  - apply Forall_map. eapply Forall_impl; [ | exact Hall]. now intros r (_ & _ & ?).
Qed.

Lemma topk_total (k b d : nat) (x : matrix T) :
  shape_is b d x -> k <= d -> exists r, topk k x = Ok r.
Proof.
  intros [_ Hrows] Hk. unfold topk.
  destruct (mapM_total (topk_row k) x) as (rs & Hrs).
  - eapply Forall_impl; [ | exact Hrows]. intros row Hrow. cbv beta in Hrow.
    apply topk_row_total. lia.
  - rewrite Hrs. simpl. eauto.
Qed.

(** ** [scatter] *)

Lemma scatter_row_total (self : vector T) (index : list nat) (src : vector T) :
  length index <= length src ->
  Forall (fun i => i < length self) index ->
  exists r, scatter_row self index src = Ok r /\ length r = length self.
Proof.
  revert self src. induction index as [| i index IH]; intros self src Hlen Hidx.
  - simpl. eauto.
  - destruct src as [| v src]; simpl in Hlen; [lia | ].
    inversion Hidx; subst. simpl.
    destruct (Nat.ltb_spec i (length self)); [ | lia].
    destruct (IH (set_nth i v self) src) as (r & Hr & Hlr).
    + lia.
    + now rewrite set_nth_length.
    + exists r. split; [exact Hr | ]. now rewrite Hlr, set_nth_length.
Qed.

Lemma scatter_total (b d k : nat) (self : matrix T) (index : list (list nat))
    (src : matrix T) :
  shape_is b d self -> shape_is b k index -> shape_is b k src ->
  Forall (Forall (fun i => i < d)) index ->
  exists r, scatter self index src = Ok r /\ shape_is b d r.
Proof.
  intros [Hb Hself] [Hib Hidx] [Hsb Hsrc] Hrange. subst b.
  revert index src Hib Hidx Hsb Hsrc Hrange.
  induction Hself as [| srow self Hsrow _ IH];
    intros index src Hib Hidx Hsb Hsrc Hrange.
  - destruct index; [ | discriminate]. simpl. exists []. repeat split. constructor.
  - destruct index as [| irow index]; [discriminate | ].
    destruct src as [| vrow src]; [discriminate | ].
    simpl in Hib, Hsb.
    pose proof (Forall_inv Hidx) as Hirow. pose proof (Forall_inv Hsrc) as Hvrow.
    cbv beta in Hirow, Hvrow.
    destruct (scatter_row_total srow irow vrow) as (r & Hr & Hlr).
    + lia.
    + rewrite Hsrow. exact (Forall_inv Hrange).
    + destruct (IH index src) as (rs & Hrs & Hrsb & Hrsr);
        eauto using Forall_inv_tail.
      simpl. rewrite Hr. simpl. rewrite Hrs. simpl.
      exists (r :: rs). repeat split.
      * simpl. now rewrite Hrsb.
      * constructor; [lia | exact Hrsr].
Qed.

(** ** [gather] *)

Lemma gather_total (input : vector T) (index : list Z) :
  Forall (fun p => (0 <= p < Z.of_nat (length input))%Z) index ->
  exists r, gather input index = Ok r /\ length r = length index.
Proof.
  intro Hidx. destruct (mapM_total (gather_at input) index) as (r & Hr).
  - eapply Forall_impl; [ | exact Hidx]. intros p Hp. cbv beta in Hp.
    unfold gather_at.
    destruct (Z.leb_spec 0 p); [ | lia].
    destruct (Z.ltb_spec p (Z.of_nat (length input))); [ | lia].
    simpl. eauto.
  - exists r. split; [exact Hr | ]. eapply mapM_ok_length, Hr.
Qed.

(** The first position out of bounds is what [gather] fails on. *)
Lemma gather_out_of_bounds (input : vector T) (good bad : list Z) (p : Z) :
  Forall (fun q => (0 <= q < Z.of_nat (length input))%Z) good ->
  (p < 0 \/ Z.of_nat (length input) <= p)%Z ->
  gather input (good ++ p :: bad) =
    Err (RuntimeError (IndexOutOfBounds p (length input))).
Proof.
  intros Hgood Hp. unfold gather. induction Hgood as [| q good Hq _ IH]; simpl.
  - unfold gather_at.
    destruct (Z.leb_spec 0 p); destruct (Z.ltb_spec p (Z.of_nat (length input)));
      simpl; try reflexivity; lia.
  - unfold gather_at at 1.
    destruct (Z.leb_spec 0 q); [ | lia].
    destruct (Z.ltb_spec q (Z.of_nat (length input))); [ | lia].
    simpl. now rewrite IH.
Qed.

Lemma concat_length_shape {A : Type} (b d : nat) (x : list (list A)) :
  shape_is b d x -> length (concat x) = b * d.
Proof.
  intros [Hb Hrows]. subst b. induction Hrows as [| row x Hrow _ IH]; simpl.
  - reflexivity.
  - rewrite length_app, IH, Hrow. reflexivity.
Qed.

(** ** The stages of [forward] *)

Lemma Linear_forward_shape (l : Linear T) (x : matrix T) (b : nat) :
  Linear_wf l -> shape_is b (in_features l) x ->
  exists y, Linear_forward l x = Ok y /\ shape_is b (out_features l) y.
Proof.
  intros [Hw _] Hx. unfold Linear_forward.
  destruct (F_linear_shape x (weight l) b (in_features l) Hx) as (y & Hy & Hs).
  exists y. split; [exact Hy | ]. now rewrite <- Hw.
Qed.

Lemma GateNetwork_forward_shape (gn : GateNetwork) (x : matrix T) (b i n : nat) :
  GateNetwork_wf i n gn -> shape_is b i x ->
  exists y, GateNetwork_forward gn x = Ok y /\ shape_is b n y.
Proof.
  intros Hwf Hx. destruct gn as [l | l1 l2]; simpl in *.
  - destruct Hwf as (Hl & Hin & Hout). subst.
    now apply Linear_forward_shape.
  - destruct Hwf as (Hl1 & Hin1 & Hout1 & Hl2 & Hin2 & Hout2). subst i.
    destruct (Linear_forward_shape l1 x b Hl1 Hx) as (h & Hh & Hhs).
    rewrite Hh. simpl. rewrite <- Hout2. apply Linear_forward_shape; [exact Hl2 | ].
    rewrite Hin2, <- Hout1.
    eapply shape_is_map; [ | exact Hhs]. intros row Hrow. now rewrite length_map.
Qed.

Lemma map2_rows_length {A B C : Type} (f : A -> B -> C) (d : nat)
    (r1 : list A) (r2 : list B) :
  length r1 = d -> length r2 = d -> length (map2 f r1 r2) = d.
Proof. intros H1 H2. rewrite map2_length. lia. Qed.

Lemma noisy_logits_spec (self : TopKBalancedNoisyGate) (x : matrix T)
    (randn : nat -> nat -> T) (noise_epsilon : T) (lg : matrix T) (b : nat) :
  Gate_wf self ->
  shape_is b (input_size self) x ->
  shape_is b (num_experts self) lg ->
  exists noise logits,
    noisy_logits self x randn noise_epsilon lg = Ok (noise, logits) /\
    shape_is b (num_experts self) logits /\
    (training self && add_noise self = true ->
       exists nl, noise = Some nl /\
                  shape_is b (num_experts self) (noise_control nl) /\
                  shape_is b (num_experts self) (logits_noise nl)) /\
    (training self && add_noise self = false -> noise = None /\ logits = lg).
Proof.
  intros (_ & _ & Hwn & Hin & Hout) Hx Hlg. unfold noisy_logits.
  destruct (training self && add_noise self).
  - rewrite <- Hin in Hx.
    destruct (Linear_forward_shape _ x b Hwn Hx) as (mm & Hmm & Hs).
    rewrite Hmm. simpl. rewrite Hout in Hs.
    set (nc := map (map (fun v => s_add (s_softplus v) noise_epsilon)) mm).
    set (ln := map2 (map2 s_mul) (randn_like randn lg) nc).
    assert (Hnc : shape_is b (num_experts self) nc).
    { eapply shape_is_map; [ | exact Hs]. intros row Hrow. now rewrite length_map. }
    assert (Hln : shape_is b (num_experts self) ln).
    { eapply shape_is_map2; [ | apply randn_like_shape, Hlg | exact Hnc].
      intros. now apply map2_rows_length. }
    do 2 eexists. split; [reflexivity | ]. repeat split.
    + rewrite map2_length. destruct Hlg, Hln. lia.
    + eapply shape_is_map2; [ | exact Hlg | exact Hln].
      intros. now apply map2_rows_length.
    + intros _. eexists. split; [reflexivity | ]. simpl. split; assumption.
    + discriminate.
    + discriminate.
  - do 2 eexists. split; [reflexivity | ]. repeat split; try apply Hlg.
    discriminate.
Qed.

Lemma softmax_row_length (row : vector T) : length (softmax_row row) = length row.
Proof. unfold softmax_row. now rewrite !length_map. Qed.

Lemma select_top_k_spec (self : TopKBalancedNoisyGate) (logits : matrix T) (b : nat) :
  num_selects self <= num_experts self ->
  shape_is b (num_experts self) logits ->
  exists sel,
    select_top_k self logits = Ok sel /\
    shape_is b (Nat.min (num_selects self + 1) (num_experts self)) (top_logits sel) /\
    shape_is b (num_selects self) (top_k_indices sel) /\
    Forall (fun row => NoDup row /\ Forall (fun i => i < num_experts self) row)
           (top_k_indices sel) /\
    shape_is b (num_selects self) (top_k_scores sel).
Proof.
  intros Hns Hlogits. unfold select_top_k.
  set (k := Nat.min (num_selects self + 1) (num_experts self)).
  destruct (topk_total k b (num_experts self) logits Hlogits) as ([top idx] & Htop);
    [subst k; lia | ].
  rewrite Htop. simpl.
  destruct (topk_spec k b _ logits top idx Hlogits Htop) as (Hts & His & Hidx).
  assert (Hfirst : forall A (row : list A),
             length row = k -> length (firstn (num_selects self) row) = num_selects self).
  { intros A row Hrow. rewrite length_firstn. subst k. lia. }
  eexists. split; [reflexivity | ]. simpl. repeat split.
  - apply Hts.
  - apply Hts.
  - rewrite length_map. apply His.
  - apply Forall_map. eapply Forall_impl; [ | apply His]. apply Hfirst.
  - apply Forall_map. eapply Forall_impl; [ | exact Hidx].
    intros row [Hnd Hlt]. split; [now apply NoDup_firstn | now apply Forall_firstn].
  - destruct (use_softmax self); unfold softmax; rewrite ?length_map; apply Hts.
  - assert (Hk : Forall (fun row => length row = num_selects self)
                   (map (firstn (num_selects self)) top)).
    { apply Forall_map. eapply Forall_impl; [ | apply Hts]. apply Hfirst. }
    destruct (use_softmax self); [ | exact Hk].
    unfold softmax. apply Forall_map. rewrite Forall_map in Hk.
    rewrite Forall_map. eapply Forall_impl; [ | exact Hk].
    intros row Hrow. cbv beta in *. now rewrite softmax_row_length.
Qed.

(** ** The threshold positions of the noisy load *)

Lemma positions_if_in_in_range (b m ns : nat) :
  ns < m ->
  Forall (fun p => (0 <= p < Z.of_nat (b * m))%Z) (threshold_positions_if_in b m ns).
Proof.
  intro Hns. unfold threshold_positions_if_in. apply Forall_map, Forall_forall.
  intros i Hi. apply in_seq in Hi. nia.
Qed.

Lemma positions_if_out_in_range (b m ns : nat) :
  0 < ns -> ns <= m ->
  Forall (fun p => (0 <= p < Z.of_nat (b * m))%Z) (threshold_positions_if_out b m ns).
Proof.
  intros Hpos Hns. unfold threshold_positions_if_out, threshold_positions_if_in.
  rewrite map_map. apply Forall_map, Forall_forall.
  intros i Hi. apply in_seq in Hi. nia.
Qed.

(** With [num_selects = m] the position of the last row is the length of
    the flattened tensor. *)
Lemma positions_if_in_last (b m : nat) :
  0 < b ->
  exists good bad,
    threshold_positions_if_in b m m =
      good ++ Z.of_nat (b * m - m + m) :: bad /\
    Forall (fun p => (0 <= p < Z.of_nat (b * m))%Z) good.
Proof.
  intro Hb. unfold threshold_positions_if_in.
  destruct m as [| m'].
  - destruct b as [| b']; [lia | ]. simpl seq. simpl map.
    exists [], (map (fun i => (Z.of_nat i * 0 + 0)%Z) (seq 1 b')).
    split; [ | constructor]. simpl app. f_equal. lia.
  - destruct b as [| b']; [lia | ]. rewrite seq_S, map_app. simpl map at 2.
    exists (map (fun i => (Z.of_nat i * Z.of_nat (S m') + Z.of_nat (S m'))%Z) (seq 0 b')), [].
    split.
    + f_equal. f_equal. lia.
    + apply Forall_map, Forall_forall. intros i Hi. apply in_seq in Hi. nia.
Qed.

Lemma compute_load_no_noise (self : TopKBalancedNoisyGate) (m : nat)
    (lg : matrix T) (noise : option noise_locals) (top sf : matrix T) :
  add_noise self = false ->
  compute_load self m lg noise top sf =
    Ok (IntTensor (count_positive0 (num_experts self) sf)).
Proof. intro Hn. unfold compute_load. now rewrite Hn. Qed.

Lemma compute_load_noisy_total (self : TopKBalancedNoisyGate) (b m : nat)
    (lg : matrix T) (nl : noise_locals) (top sf : matrix T) :
  add_noise self = true ->
  length lg = b -> shape_is b m top ->
  b = 0 \/ (0 < num_selects self < m) ->
  exists v, compute_load self m lg (Some nl) top sf = Ok (FloatTensor v).
Proof.
  intros Hn Hlg Htop Hrange. unfold compute_load. rewrite Hn, Hlg.
  pose proof (concat_length_shape b m top Htop) as Hlen.
  destruct (gather_total (concat top)
              (threshold_positions_if_in b m (num_selects self))) as (tin & Htin & _).
  { rewrite Hlen. destruct Hrange as [-> | [_ Hlt]].
    - constructor.
    - now apply positions_if_in_in_range. }
  destruct (gather_total (concat top)
              (threshold_positions_if_out b m (num_selects self))) as (tout & Htout & _).
  { rewrite Hlen. destruct Hrange as [-> | [Hpos Hlt]].
    - constructor.
    - apply positions_if_out_in_range; lia. }
  rewrite Htin. simpl. rewrite Htout. simpl. eauto.
Qed.

(** The missing slot: [num_selects = m] on a batch that is not empty. *)
Lemma compute_load_noisy_no_slot (self : TopKBalancedNoisyGate) (b : nat)
    (lg : matrix T) (noise : option noise_locals) (top sf : matrix T) :
  add_noise self = true ->
  length lg = b -> shape_is b (num_selects self) top -> 0 < b ->
  compute_load self (num_selects self) lg noise top sf =
    Err (RuntimeError
           (IndexOutOfBounds
              (Z.of_nat (b * num_selects self - num_selects self + num_selects self))
              (b * num_selects self))).
Proof.
  intros Hn Hlg Htop Hb. unfold compute_load. rewrite Hn, Hlg.
  pose proof (concat_length_shape b _ top Htop) as Hlen.
  destruct (positions_if_in_last b (num_selects self) Hb) as (good & bad & -> & Hgood).
  rewrite gather_out_of_bounds.
  - simpl. now rewrite Hlen.
  - now rewrite Hlen.
  - rewrite Hlen. right. lia.
Qed.

(** Nothing selected: the position before the first slot of row 0 is -1. *)
Lemma compute_load_noisy_nothing_selected (self : TopKBalancedNoisyGate) (b m : nat)
    (lg : matrix T) (nl : noise_locals) (top sf : matrix T) :
  add_noise self = true ->
  length lg = b -> shape_is b m top -> 0 < b -> 0 < m ->
  num_selects self = 0 ->
  compute_load self m lg (Some nl) top sf =
    Err (RuntimeError (IndexOutOfBounds (-1) (b * m))).
Proof.
  intros Hn Hlg Htop Hb Hm Hns. unfold compute_load. rewrite Hn, Hlg, Hns.
  pose proof (concat_length_shape b m top Htop) as Hlen.
  destruct (gather_total (concat top) (threshold_positions_if_in b m 0))
    as (tin & Htin & _).
  { rewrite Hlen. now apply positions_if_in_in_range. }
  rewrite Htin. simpl.
  destruct b as [| b']; [lia | ].
  assert (Hout : threshold_positions_if_out (S b') m 0 =
                 [] ++ (-1)%Z :: map (fun p => (p - 1)%Z)
                                    (map (fun i => (Z.of_nat i * Z.of_nat m + Z.of_nat 0)%Z)
                                         (seq 1 b'))).
  { unfold threshold_positions_if_out, threshold_positions_if_in.
    simpl seq. simpl map. simpl app. f_equal. }
  rewrite Hout, gather_out_of_bounds.
  - simpl. now rewrite Hlen.
  - constructor.
  - left. lia.
Qed.

(** ** [balance_loss] and [forward_body] *)

Lemma balance_loss_off (self : TopKBalancedNoisyGate) (loss_coef : T)
    (lg : matrix T) (noise : option noise_locals) (logits : matrix T) (sel : selection) :
  training self && use_balance self = false ->
  balance_loss self loss_coef lg noise logits sel = Ok (None, None).
Proof. intro Hoff. unfold balance_loss. now rewrite Hoff. Qed.

Lemma balance_loss_on (self : TopKBalancedNoisyGate) (loss_coef : T)
    (lg : matrix T) (noise : option noise_locals) (logits : matrix T)
    (sel : selection) (b : nat) :
  training self && use_balance self = true ->
  shape_is b (num_experts self) logits ->
  selection_ok self b sel ->
  exists sf,
    scatter (map (map (fun _ => s_zero)) logits)
            (top_k_indices sel) (top_k_scores sel) = Ok sf /\
    shape_is b (num_experts self) sf /\
    balance_loss self loss_coef lg noise logits sel =
      (load <- compute_load self
                 (Nat.min (num_selects self + 1) (num_experts self))
                 lg noise (top_logits sel) sf ;;
       Ok (Some {| scores_filtered := sf;
                   importance := sum0 (num_experts self) sf;
                   load := load |},
           Some (s_mul
                   (s_add (cv_squared (FloatTensor (sum0 (num_experts self) sf))
                                      cv_squared_eps)
                          (cv_squared load cv_squared_eps))
                   loss_coef))).
Proof.
  intros Hon Hlogits (_ & Hidx & Hrange & Hsc). unfold balance_loss. rewrite Hon.
  destruct (scatter_total b (num_experts self) (num_selects self)
              (map (map (fun _ => s_zero)) logits)
              (top_k_indices sel) (top_k_scores sel)) as (sf & Hsf & Hshape); auto.
  - eapply shape_is_map; [ | exact Hlogits]. intros row Hrow. now rewrite length_map.
  - eapply Forall_impl; [ | exact Hrange]. now intros row [_ ?].
  - exists sf. rewrite Hsf. simpl. auto.
Qed.

(** The stages before the balance loss never raise on a well-formed gate
    and a batch of the right width. *)
Lemma forward_body_stages (self : TopKBalancedNoisyGate) (x : matrix T)
    (randn : nat -> nat -> T) (noise_epsilon loss_coef : T) (b : nat) :
  Gate_wf self ->
  shape_is b (input_size self) x ->
  exists lg noise logits sel,
    GateNetwork_forward (gate_network self) x = Ok lg /\
    noisy_logits self x randn noise_epsilon lg = Ok (noise, logits) /\
    select_top_k self logits = Ok sel /\
    shape_is b (num_experts self) lg /\
    shape_is b (num_experts self) logits /\
    (training self && add_noise self = true -> exists nl, noise = Some nl) /\
    (training self && add_noise self = false -> noise = None /\ logits = lg) /\
    selection_ok self b sel /\
    forward_body self x randn noise_epsilon loss_coef =
      (bl <- balance_loss self loss_coef lg noise logits sel ;;
       Ok {| logits_gate := lg; noise := noise; logits := logits;
             selected := sel; balance := fst bl; gate_loss := snd bl |}).
Proof.
  intros Hwf Hx. pose proof Hwf as (Hns & Hgn & _).
  destruct (GateNetwork_forward_shape _ x b _ _ Hgn Hx) as (lg & Hlg & Hlgs).
  destruct (noisy_logits_spec self x randn noise_epsilon lg b Hwf Hx Hlgs)
    as (noise & logits & Hnl & Hls & Hon & Hoff).
  destruct (select_top_k_spec self logits b Hns Hls) as (sel & Hsel & Hok).
  exists lg, noise, logits, sel.
  split; [exact Hlg | ]. split; [exact Hnl | ]. split; [exact Hsel | ].
  split; [exact Hlgs | ]. split; [exact Hls | ].
  split; [intro Hn; destruct (Hon Hn) as (nl & ? & _); eauto | ].
  split; [exact Hoff | ]. split; [exact Hok | ].
  unfold forward_body. rewrite Hlg. simpl. rewrite Hnl. simpl. rewrite Hsel. simpl.
  destruct (balance_loss self loss_coef lg noise logits sel) as [[bal gl] | e];
    reflexivity.
Qed.

Lemma forward_body_total (self : TopKBalancedNoisyGate) (x : matrix T)
    (randn : nat -> nat -> T) (noise_epsilon loss_coef : T) (b : nat) :
  Gate_wf self ->
  shape_is b (input_size self) x ->
  (training self = true -> use_balance self = true -> add_noise self = true ->
   b = 0 \/ 0 < num_selects self < num_experts self) ->
  exists loc, forward_body self x randn noise_epsilon loss_coef = Ok loc.
Proof.
  intros Hwf Hx Hslot.
  destruct (forward_body_stages self x randn noise_epsilon loss_coef b Hwf Hx)
    as (lg & noise & logits & sel & _ & _ & _ & Hlg & Hlogits & Hon & _ & Hsel & ->).
  destruct (training self && use_balance self) eqn:Hbal.
  - destruct (balance_loss_on self loss_coef lg noise logits sel b Hbal Hlogits Hsel)
      as (sf & _ & _ & ->).
    apply andb_prop in Hbal as [Htr Hub].
    destruct (add_noise self) eqn:Hn.
    + destruct Hon as (nl & ->); [now rewrite Htr | ].
      destruct (compute_load_noisy_total self b
                  (Nat.min (num_selects self + 1) (num_experts self))
                  lg nl (top_logits sel) sf Hn) as (v & ->).
      * apply Hlg.
      * apply Hsel.
      * destruct (Hslot Htr Hub eq_refl) as [-> | Hlt]; [now left | right; lia].
      * simpl. eauto.
    + rewrite compute_load_no_noise by assumption. simpl. eauto.
  - rewrite balance_loss_off by assumption. simpl. eauto.
Qed.

Lemma forward_body_no_slot (self : TopKBalancedNoisyGate) (x : matrix T)
    (randn : nat -> nat -> T) (noise_epsilon loss_coef : T) (b : nat) :
  Gate_wf self ->
  shape_is b (input_size self) x -> 0 < b ->
  training self = true -> use_balance self = true -> add_noise self = true ->
  num_selects self = num_experts self ->
  forward_body self x randn noise_epsilon loss_coef =
    Err (RuntimeError
           (IndexOutOfBounds
              (Z.of_nat (b * num_experts self - num_experts self + num_selects self))
              (b * num_experts self))).
Proof.
  intros Hwf Hx Hb Htr Hub Hn Heq.
  destruct (forward_body_stages self x randn noise_epsilon loss_coef b Hwf Hx)
    as (lg & noise & logits & sel & _ & _ & _ & Hlg & Hlogits & _ & _ & Hsel & ->).
  assert (Hbal : training self && use_balance self = true) by now rewrite Htr, Hub.
  destruct (balance_loss_on self loss_coef lg noise logits sel b Hbal Hlogits Hsel)
    as (sf & _ & _ & ->).
  destruct Hsel as (Htop & _).
  replace (Nat.min (num_selects self + 1) (num_experts self))
    with (num_selects self) in * by lia.
  rewrite (compute_load_noisy_no_slot self b lg noise (top_logits sel) sf Hn);
    try assumption; [ | apply Hlg].
  simpl. now rewrite Heq.
Qed.

Lemma forward_body_nothing_selected (self : TopKBalancedNoisyGate) (x : matrix T)
    (randn : nat -> nat -> T) (noise_epsilon loss_coef : T) (b : nat) :
  Gate_wf self ->
  shape_is b (input_size self) x -> 0 < b ->
  training self = true -> use_balance self = true -> add_noise self = true ->
  num_selects self = 0 -> 0 < num_experts self ->
  forward_body self x randn noise_epsilon loss_coef =
    Err (RuntimeError (IndexOutOfBounds (-1) (b * 1))).
Proof.
  intros Hwf Hx Hb Htr Hub Hn Hns Hne.
  destruct (forward_body_stages self x randn noise_epsilon loss_coef b Hwf Hx)
    as (lg & noise & logits & sel & _ & _ & _ & Hlg & Hlogits & Hon & _ & Hsel & ->).
  assert (Hbal : training self && use_balance self = true) by now rewrite Htr, Hub.
  destruct (balance_loss_on self loss_coef lg noise logits sel b Hbal Hlogits Hsel)
    as (sf & _ & _ & ->).
  destruct Hon as (nl & ->); [now rewrite Htr, Hn | ].
  destruct Hsel as (Htop & _).
  replace (Nat.min (num_selects self + 1) (num_experts self)) with 1 in * by lia.
  rewrite (compute_load_noisy_nothing_selected self b 1 lg nl (top_logits sel) sf Hn);
    try assumption; try lia; [reflexivity | apply Hlg].
Qed.

(** What a run that returns has computed. *)
Lemma forward_body_ok (self : TopKBalancedNoisyGate) (x : matrix T)
    (randn : nat -> nat -> T) (noise_epsilon loss_coef : T) (b : nat)
    (loc : forward_locals) :
  Gate_wf self ->
  shape_is b (input_size self) x ->
  forward_body self x randn noise_epsilon loss_coef = Ok loc ->
  GateNetwork_forward (gate_network self) x = Ok (logits_gate loc) /\
  noisy_logits self x randn noise_epsilon (logits_gate loc) =
    Ok (noise loc, logits loc) /\
  select_top_k self (logits loc) = Ok (selected loc) /\
  shape_is b (num_experts self) (logits loc) /\
  selection_ok self b (selected loc) /\
  balance_loss self loss_coef (logits_gate loc) (noise loc) (logits loc)
    (selected loc) = Ok (balance loc, gate_loss loc).
Proof.
  intros Hwf Hx Hrun.
  destruct (forward_body_stages self x randn noise_epsilon loss_coef b Hwf Hx)
    as (lg & noise & logits & sel & Hlg & Hnl & Hsl & _ & Hlogits & _ & _ & Hsel & Hbody).
  rewrite Hbody in Hrun. apply bind_ok in Hrun as ([bal gl] & Hbl & Hloc).
  inversion Hloc; subst; clear Hloc. simpl. auto 10.
Qed.

End Generic.

End TensorFacts.

(* ===================================================================== *)
(** * The gate: construction and [forward] *)
(* ===================================================================== *)

Module MoeGatesSpec.

Import MoeGates TensorFacts RealArith.

Lemma example_gate_wf (ne ns : nat) (ub an us tr : bool) :
  ns <= ne -> Gate_wf (example_gate ne ns ub an us tr).
Proof.
  intro Hns. unfold Gate_wf, GateNetwork_wf, Linear_wf, shape_is. simpl.
  rewrite repeat_length.
  assert (Hrows : Forall (fun row : list R => length row = 1) (repeat [0%R] ne)).
  { apply Forall_forall. intros row Hrow. apply repeat_spec in Hrow. now subst. }
  auto 10.
Qed.

Lemma trained_gate_wf (ns : nat) (ub an us tr : bool) :
  ns <= 2 -> Gate_wf (trained_gate ns ub an us tr).
Proof.
  intro Hns. unfold Gate_wf, GateNetwork_wf, Linear_wf, shape_is. simpl.
  repeat split; auto.
Qed.

Lemma example_batch_shape : shape_is 1 1 example_batch.
Proof. split; [reflexivity | repeat constructor]. Qed.

(** The example gate is what the constructor returns for the gate type
    [linear], whatever the library draws for the initial weights. *)
Lemma init_example_gate (ub an us : bool) :
  __init__ 1 2 1 "Linear" ub an us example_draws = Ok (example_gate 2 1 ub an us true).
Proof. reflexivity. Qed.

Section Claims.

Context {T : Type} {ST : Scalar T}.

Lemma new_Linear_wf (n_in n_out : nat) (init : nat -> nat -> T) :
  Linear_wf (new_Linear n_in n_out init).
Proof.
  unfold Linear_wf, shape_is, new_Linear. simpl. split.
  - now rewrite length_map, length_seq.
  - apply Forall_map, Forall_forall. intros i _.
    now rewrite length_map, length_seq.
Qed.

Lemma zeros__wf (l : Linear T) : Linear_wf l -> Linear_wf (zeros_ l).
Proof.
  unfold Linear_wf, zeros_. simpl. intro Hl.
  eapply shape_is_map; [ | exact Hl]. intros row Hrow. now rewrite length_map.
Qed.

(** Every gate the constructor returns is well formed. *)
Lemma init_wf (input_size num_experts num_selects : nat) (gate_network : string)
    (use_balance add_noise use_softmax : bool) (draws : initial_draws (T:=T))
    (self : TopKBalancedNoisyGate) :
  __init__ input_size num_experts num_selects gate_network
    use_balance add_noise use_softmax draws = Ok self ->
  Gate_wf self.
Proof.
  unfold __init__. destruct (Nat.leb_spec num_selects num_experts) as [Hle | _];
    [ | discriminate].
  intro Hinit. apply bind_ok in Hinit as (gn & Hgn & Hself).
  inversion Hself; subst; clear Hself.
  unfold Gate_wf, reset_parameters. simpl.
  split; [exact Hle | ]. split.
  - unfold get_gate_network in Hgn.
    destruct (String.eqb (lower gate_network) "linear").
    + inversion Hgn; subst. simpl.
      split; [apply zeros__wf, new_Linear_wf | auto].
    + destruct (String.eqb (lower gate_network) "mlp"); [ | discriminate].
      inversion Hgn; subst. simpl.
      repeat split; try apply new_Linear_wf.
  - split; [apply zeros__wf, new_Linear_wf | auto].
Qed.

(** Outside the noisy branch the two methods run the same stages:
    [forward_return_scores] returns the gate loss of [forward]. *)
Lemma forward_return_scores_without_noise (self : TopKBalancedNoisyGate)
    (x : matrix T) (randn : nat -> nat -> T) (noise_epsilon loss_coef : T) :
  training self && add_noise self = false ->
  forward_return_scores self x randn noise_epsilon loss_coef =
    (loc <- forward_body self x randn noise_epsilon loss_coef ;;
     Ok (if use_softmax self then softmax (logits loc) else logits loc,
         gate_loss loc)).
Proof.
  intro Hoff. unfold forward_return_scores, forward_body, noisy_logits.
  rewrite Hoff.
  destruct (GateNetwork_forward (gate_network self) x) as [lg | e];
    [ | reflexivity].
  simpl. destruct (select_top_k self lg) as [sel | e]; [ | reflexivity].
  simpl. destruct (balance_loss self loss_coef lg None lg sel) as [[bal gl] | e];
    reflexivity.
Qed.

Lemma forward_of_body (self : TopKBalancedNoisyGate) (x : matrix T)
    (randn : nat -> nat -> T) (noise_epsilon loss_coef : T) :
  forward self x randn noise_epsilon loss_coef =
    (loc <- forward_body self x randn noise_epsilon loss_coef ;;
     Ok (top_k_indices (selected loc), top_k_scores (selected loc), gate_loss loc)).
Proof. reflexivity. Qed.

(** A run that returns, returns indices of the promised shape, in range and
    pairwise distinct within each row. *)
Lemma forward_indices (self : TopKBalancedNoisyGate) (x : matrix T)
    (randn : nat -> nat -> T) (noise_epsilon loss_coef : T) (b : nat)
    (idx : list (list nat)) (scores : matrix T) (gl : option T) :
  Gate_wf self ->
  shape_is b (input_size self) x ->
  forward self x randn noise_epsilon loss_coef = Ok (idx, scores, gl) ->
  shape_is b (num_selects self) idx /\
  Forall (fun row => NoDup row /\ Forall (fun i => i < num_experts self) row) idx.
Proof.
  intros Hwf Hx Hrun. rewrite forward_of_body in Hrun.
  apply bind_ok in Hrun as (loc & Hloc & Hret). inversion Hret; subst; clear Hret.
  destruct (forward_body_ok self x randn noise_epsilon loss_coef b loc Hwf Hx Hloc)
    as (_ & _ & _ & _ & (_ & Hshape & Hrange & _) & _).
  auto.
Qed.

(** C1, where the code departs from it: in training mode with [add_noise]
    the two methods do not perform the same computation.  On a well-formed
    gate and a batch of the right width, [forward_return_scores] raises a
    [TypeError] at its line 192, where it hands the module
    [self.weight_noise] to [torch.mm], whereas [forward], which calls the
    module, returns (and returns a gate loss when [use_balance] is set). *)
Theorem forward_return_scores_raises_where_forward_returns
    (self : TopKBalancedNoisyGate) (x : matrix T)
    (randn : nat -> nat -> T) (noise_epsilon loss_coef : T) (b : nat) :
  Gate_wf self ->
  shape_is b (input_size self) x ->
  training self = true -> add_noise self = true ->
  (use_balance self = true -> b = 0 \/ 0 < num_selects self < num_experts self) ->
  forward_return_scores self x randn noise_epsilon loss_coef =
    Err (TypeError "mm(): argument must be Tensor, not Linear") /\
  exists idx scores gl,
    forward self x randn noise_epsilon loss_coef = Ok (idx, scores, gl) /\
    (use_balance self = true -> exists v, gl = Some v).
Proof.
  intros Hwf Hx Htr Hn Hslot. split.
  - destruct Hwf as (_ & Hgn & _).
    destruct (GateNetwork_forward_shape _ x b _ _ Hgn Hx) as (lg & Hlg & _).
    unfold forward_return_scores. rewrite Hlg, Htr, Hn. reflexivity.
  - destruct (forward_body_total self x randn noise_epsilon loss_coef b Hwf Hx)
      as (loc & Hloc); [auto | ].
    rewrite forward_of_body, Hloc. simpl. do 3 eexists. split; [reflexivity | ].
    intro Hub.
    destruct (forward_body_ok self x randn noise_epsilon loss_coef b loc Hwf Hx Hloc)
      as (_ & _ & _ & _ & _ & Hbl).
    unfold balance_loss in Hbl. rewrite Htr, Hub in Hbl. simpl in Hbl.
    apply bind_ok in Hbl as (sf & _ & Hbl).
    apply bind_ok in Hbl as (ld & _ & Hbl).
    inversion Hbl. eauto.
Qed.

Lemma balance_loss_gate_loss (self : TopKBalancedNoisyGate) (loss_coef : T)
    (lg : matrix T) (noise : option noise_locals) (logits : matrix T)
    (sel : selection) (bal : option balance_locals) (gl : option T) :
  balance_loss self loss_coef lg noise logits sel = Ok (bal, gl) ->
  (exists v, gl = Some v) <-> training self && use_balance self = true.
Proof.
  unfold balance_loss. destruct (training self && use_balance self).
  - intro Hbl. apply bind_ok in Hbl as (sf & _ & Hbl).
    apply bind_ok in Hbl as (ld & _ & Hbl). inversion Hbl. split; eauto.
  - intro Hbl. inversion Hbl. split; [intros [v Hv] | ]; discriminate.
Qed.

(** C3: whatever the input and the configuration, the gate loss that
    [forward] returns is a value exactly when the module is in training
    mode and [use_balance] is set, and is [None] otherwise; [add_noise] and
    [use_softmax] play no part. *)
Theorem forward_gate_loss_presence
    (self : TopKBalancedNoisyGate) (x : matrix T)
    (randn : nat -> nat -> T) (noise_epsilon loss_coef : T)
    (idx : list (list nat)) (scores : matrix T) (gl : option T) :
  forward self x randn noise_epsilon loss_coef = Ok (idx, scores, gl) ->
  ((exists v, gl = Some v) <-> (training self = true /\ use_balance self = true)) /\
  (gl = None <-> ~ (training self = true /\ use_balance self = true)).
Proof.
  intro Hrun. unfold forward, forward_body in Hrun.
  apply bind_ok in Hrun as (loc & Hloc & Hret).
  apply bind_ok in Hloc as (lg & _ & Hloc).
  apply bind_ok in Hloc as ([noise logits] & _ & Hloc).
  apply bind_ok in Hloc as (sel & _ & Hloc).
  apply bind_ok in Hloc as ([bal gl'] & Hbl & Hloc).
  inversion Hloc; subst; clear Hloc. inversion Hret; subst; clear Hret. simpl.
  apply balance_loss_gate_loss in Hbl. rewrite andb_true_iff in Hbl.
  split; [exact Hbl | ].
  match goal with |- ?g = None <-> _ => destruct g as [v | ] end.
  - split; [discriminate | ]. intro Hno. exfalso. apply Hno, Hbl. eauto.
  - split; [ | reflexivity]. intros _ Hyes. apply Hbl in Hyes as [v Hv]. discriminate.
Qed.

(** C7: when the module is not in training mode, or [add_noise] is off, the
    noise sample is never read: two runs of [forward] on the same input and
    the same module state return the same indices and the same scores (and
    the same gate loss), whatever the two samples are. *)
Theorem forward_deterministic_without_noise
    (self : TopKBalancedNoisyGate) (x : matrix T)
    (randn1 randn2 : nat -> nat -> T) (noise_epsilon loss_coef : T) :
  training self = false \/ add_noise self = false ->
  forward self x randn1 noise_epsilon loss_coef =
    forward self x randn2 noise_epsilon loss_coef.
Proof.
  intro Hoff.
  assert (Hcond : training self && add_noise self = false).
  { destruct Hoff as [-> | ->]; [reflexivity | apply andb_false_r]. }
  unfold forward, forward_body, noisy_logits. now rewrite Hcond.
Qed.

(** C8, as the code has it: the assertion on the number of selections is
    checked first.  A construction with more selections than experts fails
    on it, with an [AssertionError] that carries no message, whatever the
    gate type is.  A construction that passes it with a gate type that is
    neither [linear] nor [mlp] once lowered fails with the [ValueError]
    whose arguments are the text [Expected "gate_type" in], the two valid
    types, [got] and the type received, lowered (stated for a type of ASCII
    characters).  Either way the constructor returns no gate, so no
    [forward] can run on one. *)
Theorem init_rejects_invalid_configuration
    (input_size num_experts num_selects : nat) (gate_network : string)
    (use_balance add_noise use_softmax : bool) (draws : initial_draws (T:=T)) :
  num_experts < num_selects \/ ~ In (lower gate_network) valid_gate_type ->
  (exists e, __init__ input_size num_experts num_selects gate_network
               use_balance add_noise use_softmax draws = Err e) /\
  (num_experts < num_selects ->
   __init__ input_size num_experts num_selects gate_network
     use_balance add_noise use_softmax draws = Err AssertionError) /\
  (num_selects <= num_experts -> ~ In (lower gate_network) valid_gate_type ->
   exists got,
     __init__ input_size num_experts num_selects gate_network
       use_balance add_noise use_softmax draws =
       Err (ValueError expected_gate_type ["linear"%string; "mlp"%string]
                       "got" got) /\
     (isascii gate_network = true -> got = lower gate_network)).
Proof.
  intro Hbad.
  assert (Hassert : num_experts < num_selects ->
            __init__ input_size num_experts num_selects gate_network
              use_balance add_noise use_softmax draws = Err AssertionError).
  { intro Hlt. unfold __init__.
    destruct (Nat.leb_spec num_selects num_experts); [lia | reflexivity]. }
  assert (Hvalue : num_selects <= num_experts ->
            ~ In (lower gate_network) valid_gate_type ->
            __init__ input_size num_experts num_selects gate_network
              use_balance add_noise use_softmax draws =
              Err (ValueError expected_gate_type ["linear"%string; "mlp"%string]
                              "got" (lower gate_network))).
  { intros Hle Hnot. unfold __init__, get_gate_network.
    destruct (Nat.leb_spec num_selects num_experts); [ | lia].
    destruct (String.eqb_spec (lower gate_network) "linear") as [Heq | _].
    { exfalso. apply Hnot. rewrite Heq. now left. }
    destruct (String.eqb_spec (lower gate_network) "mlp") as [Heq | _].
    { exfalso. apply Hnot. rewrite Heq. right. now left. }
    reflexivity. }
  split; [ | split; [assumption | ]].
  - destruct (Nat.le_gt_cases num_selects num_experts) as [Hle | Hlt].
    + destruct Hbad as [Hlt | Hnot]; [lia | ]. rewrite Hvalue by assumption. eauto.
    + rewrite Hassert by assumption. eauto.
  - intros Hle Hnot. exists (lower gate_network).
    split; [now apply Hvalue | reflexivity].
Qed.

(** C10, as the code has it: in training mode with [add_noise] and
    [use_balance], let [m] be the number of values [topk] keeps per row.
    When [num_selects = num_experts], [m] is [num_experts], the threshold
    position of the last row of a batch that is not empty,
    [batch_size * m - m + num_selects], is the length [batch_size * m] of
    the flattened top logits, and [forward] fails on that position.  When
    [0 < num_selects < num_experts], every threshold position, of the
    [if_in] and of the [if_out] kind, is in range and [forward] returns. *)
Theorem noisy_load_threshold_positions
    (self : TopKBalancedNoisyGate) (x : matrix T)
    (randn : nat -> nat -> T) (noise_epsilon loss_coef : T) (b : nat) :
  Gate_wf self ->
  shape_is b (input_size self) x ->
  training self = true -> add_noise self = true -> use_balance self = true ->
  let m := Nat.min (num_selects self + 1) (num_experts self) in
  (num_selects self = num_experts self -> 0 < b ->
   m = num_experts self /\
   In (Z.of_nat (b * m - m + num_selects self))
      (threshold_positions_if_in b m (num_selects self)) /\
   b * m - m + num_selects self = b * m /\
   forward self x randn noise_epsilon loss_coef =
     Err (RuntimeError
            (IndexOutOfBounds (Z.of_nat (b * m - m + num_selects self)) (b * m)))) /\
  (0 < num_selects self < num_experts self ->
   Forall (fun p => (0 <= p < Z.of_nat (b * m))%Z)
          (threshold_positions_if_in b m (num_selects self)) /\
   Forall (fun p => (0 <= p < Z.of_nat (b * m))%Z)
          (threshold_positions_if_out b m (num_selects self)) /\
   exists r, forward self x randn noise_epsilon loss_coef = Ok r).
Proof.
  intros Hwf Hx Htr Hn Hub m. split.
  - intros Heq Hb.
    assert (Hm : m = num_experts self) by (subst m; lia).
    rewrite Hm. repeat split.
    + rewrite Heq.
      destruct (positions_if_in_last b (num_experts self) Hb) as (good & bad & -> & _).
      apply in_or_app. right. now left.
    + rewrite Heq. nia.
    + rewrite forward_of_body.
      now rewrite (forward_body_no_slot self x randn noise_epsilon loss_coef b).
  - intros [Hpos Hlt].
    assert (Hm : m = num_selects self + 1) by (subst m; lia).
    split; [ | split].
    + apply positions_if_in_in_range. lia.
    + apply positions_if_out_in_range; lia.
    + destruct (forward_body_total self x randn noise_epsilon loss_coef b Hwf Hx)
        as (loc & Hloc); [auto | ].
      rewrite forward_of_body, Hloc. simpl. eauto.
Qed.

End Claims.

(** ** The claims at concrete inputs *)

Lemma forward_return_scores_raises_where_forward_returns_witness :
  forward_return_scores (example_gate 2 1 true true true true) example_batch
    example_randn default_noise_epsilon default_loss_coef =
    Err (TypeError "mm(): argument must be Tensor, not Linear") /\
  exists idx scores gl,
    forward (example_gate 2 1 true true true true) example_batch
      example_randn default_noise_epsilon default_loss_coef = Ok (idx, scores, gl) /\
    exists v, gl = Some v.
Proof.
  destruct (forward_return_scores_raises_where_forward_returns
              (example_gate 2 1 true true true true) example_batch
              example_randn default_noise_epsilon default_loss_coef 1)
    as (Hraise & idx & scores & gl & Hrun & Hloss).
  - apply example_gate_wf. lia.
  - exact example_batch_shape.
  - reflexivity.
  - reflexivity.
  - intros _. right. simpl. lia.
  - split; [exact Hraise | ]. exists idx, scores, gl. split; [exact Hrun | ].
    apply Hloss. reflexivity.
Defined.

(** C2, where the code departs from it: the constructor accepts
    [num_selects = num_experts], yet in training mode with [add_noise] and
    [use_balance] (the defaults) [forward] raises on a batch of one row
    instead of returning the indices: the load estimate reads the slot
    after the [num_selects] selected ones, which [topk] did not keep. *)
Theorem forward_raises_when_all_experts_selected :
  __init__ 1 1 1 "linear" true true true example_draws =
    Ok (example_gate 1 1 true true true true) /\
  forward (example_gate 1 1 true true true true) example_batch
    example_randn default_noise_epsilon default_loss_coef =
    Err (RuntimeError (IndexOutOfBounds 1 1)).
Proof.
  split; [reflexivity | ].
  rewrite forward_of_body.
  rewrite (forward_body_no_slot (example_gate 1 1 true true true true)
             example_batch example_randn default_noise_epsilon default_loss_coef 1);
    try reflexivity.
  - apply example_gate_wf. lia.
  - exact example_batch_shape.
  - lia.
Qed.

(** C10 fails as stated for [num_selects = 0 < num_experts]: the [if_out]
    position of the first row is -1 and [forward] fails on it. *)
Lemma noisy_load_nothing_selected_counterexample :
  MoeGates.num_selects (example_gate 1 0 true true true true) <
    MoeGates.num_experts (example_gate 1 0 true true true true) /\
  threshold_positions_if_out 1 (Nat.min (0 + 1) 1) 0 = [(-1)%Z] /\
  forward (example_gate 1 0 true true true true) example_batch
    example_randn default_noise_epsilon default_loss_coef =
    Err (RuntimeError (IndexOutOfBounds (-1) 1)).
Proof.
  split; [simpl; lia | ]. split; [reflexivity | ].
  rewrite forward_of_body.
  rewrite (forward_body_nothing_selected (example_gate 1 0 true true true true)
             example_batch example_randn default_noise_epsilon default_loss_coef 1);
    try reflexivity.
  - apply example_gate_wf. lia.
  - exact example_batch_shape.
  - lia.
  - simpl. lia.
Qed.

Lemma noisy_load_threshold_positions_witness :
  exists r,
    forward (example_gate 2 1 true true true true) example_batch
      example_randn default_noise_epsilon default_loss_coef = Ok r.
Proof.
  apply (noisy_load_threshold_positions
           (example_gate 2 1 true true true true) example_batch
           example_randn default_noise_epsilon default_loss_coef 1).
  - apply example_gate_wf. lia.
  - exact example_batch_shape.
  - reflexivity.
  - reflexivity.
  - reflexivity.
  - simpl. lia.
Defined.

Lemma forward_deterministic_without_noise_witness :
  forward (example_gate 2 1 true true true false) example_batch
    example_randn default_noise_epsilon default_loss_coef =
  forward (example_gate 2 1 true true true false) example_batch
    (fun _ _ => 7%R) default_noise_epsilon default_loss_coef.
Proof.
  apply (forward_deterministic_without_noise
           (example_gate 2 1 true true true false)).
  left. reflexivity.
Defined.

Lemma init_rejects_invalid_configuration_witness :
  __init__ 4 2 3 "MLP" true true true example_draws = Err AssertionError /\
  exists got,
    __init__ 4 2 1 "Conv" true true true example_draws =
      Err (ValueError expected_gate_type ["linear"%string; "mlp"%string] "got" got) /\
    (isascii "Conv" = true -> got = "conv"%string).
Proof.
  split.
  - apply (init_rejects_invalid_configuration 4 2 3 "MLP" true true true example_draws).
    + left. lia.
    + lia.
  - apply (init_rejects_invalid_configuration 4 2 1 "Conv" true true true example_draws).
    + right. simpl. intros [H | [H | []]]; discriminate H.
    + lia.
    + simpl. intros [H | [H | []]]; discriminate H.
Defined.

(** C8 fails as stated on a gate type that is not valid when there are more
    selections than experts as well: the assertion of line 62 comes before
    the check of the gate type, and the construction ends with an
    [AssertionError], which carries no message and names no valid gate
    type, where the claim has the message that lists them. *)
Lemma init_invalid_gate_type_without_message_counterexample :
  lower "Conv" = "conv"%string /\
  existsb (String.eqb "conv") valid_gate_type = false /\
  __init__ 4 2 3 "Conv" true true true example_draws = Err AssertionError /\
  __init__ 4 2 1 "Conv" true true true example_draws =
    Err (ValueError expected_gate_type ["linear"%string; "mlp"%string] "got" "conv").
Proof. repeat split. Qed.

End MoeGatesSpec.

(* ===================================================================== *)
(** * The gate in exact real arithmetic *)
(* ===================================================================== *)

Module MoeGatesExact.

Import MoeGates TensorFacts RealArith MoeGatesSpec.

Local Open Scope R_scope.

Lemma Rgtb_gt (a b : R) : a > b -> Rgtb a b = true.
Proof. intro Hab. unfold Rgtb. destruct (Rgt_dec a b); [reflexivity | lra]. Qed.

Lemma Rgtb_le (a b : R) : a <= b -> Rgtb a b = false.
Proof. intro Hab. unfold Rgtb. destruct (Rgt_dec a b); [lra | reflexivity]. Qed.

(** Evaluation of a run on concrete reals: compute, and settle every
    comparison that shows up. *)
Ltac eval_real :=
  repeat (cbn;
          first [ rewrite Rgtb_le by lra
                | rewrite Rgtb_gt by lra ]);
  cbn.

(** ** Sums *)

Lemma sum_cons (a : R) (v : list R) : sum (a :: v) = a + sum v.
Proof. reflexivity. Qed.

Lemma sum_repeat (c : R) (n : nat) : sum (repeat c n) = INR n * c.
Proof.
  induction n as [| n IH].
  - simpl. lra.
  - rewrite S_INR. simpl repeat. rewrite sum_cons, IH. lra.
Qed.

Lemma sum_map_div (v : list R) (d : R) :
  sum (map (fun a => a / d) v) = sum v / d.
Proof.
  induction v as [| a v IH].
  - simpl. unfold Rdiv. lra.
  - simpl map. rewrite !sum_cons, IH. unfold Rdiv. lra.
Qed.

Lemma sum_nonneg (v : list R) : Forall (fun a => 0 <= a) v -> 0 <= sum v.
Proof.
  induction 1 as [| a v Ha _ IH]; [simpl; lra | ]. rewrite sum_cons. lra.
Qed.

Lemma sum_pos (v : list R) :
  v <> [] -> Forall (fun a => 0 < a) v -> 0 < sum v.
Proof.
  intros Hne Hpos. destruct Hpos as [| a v Ha Hv]; [congruence | ].
  rewrite sum_cons.
  assert (0 <= sum v).
  { apply sum_nonneg. eapply Forall_impl; [ | exact Hv]. intros; cbv beta in *; lra. }
  lra.
Qed.

Lemma sum_map2_plus (a b : list R) :
  length a = length b -> sum (map2 Rplus a b) = sum a + sum b.
Proof.
  revert b. induction a as [| x a IH]; intros [| y b] Hlen; try discriminate.
  - simpl. lra.
  - rewrite map2_cons, !sum_cons, IH by (simpl in Hlen; lia). lra.
Qed.

(** ** [cv_squared] *)

Lemma mean_eq (v : list R) : mean v = sum v / INR (length v).
Proof. reflexivity. Qed.

Lemma var_eq (v : list R) :
  var v = sum (map (fun a => (a - mean v) * (a - mean v)) v) / (INR (length v) - 1).
Proof. reflexivity. Qed.

Lemma cv_squared_eq (x : tensor1) (eps : R) :
  cv_squared x eps =
    if (shape0 x =? 1)%nat then 0
    else var (float x) / (mean (float x) * mean (float x) + eps).
Proof. reflexivity. Qed.

Lemma shape0_float (x : tensor1 (T:=R)) : shape0 x = length (float x).
Proof. destruct x; simpl; [now rewrite length_map | reflexivity]. Qed.

Lemma squares_sum_nonneg (m : R) (v : list R) :
  0 <= sum (map (fun a => (a - m) * (a - m)) v).
Proof.
  apply sum_nonneg, Forall_map, Forall_forall. intros a _.
  exact (Rle_0_sqr (a - m)).
Qed.

Lemma var_short (v : list R) : (length v < 2)%nat -> var v = 0.
Proof.
  intro Hlen. destruct v as [| a [| a' v]]; [ | | simpl in Hlen; lia].
  - rewrite var_eq. simpl. unfold Rdiv. ring.
  - rewrite var_eq, mean_eq. simpl. unfold Rdiv. rewrite Rinv_1. ring.
Qed.

Lemma var_nonneg (v : list R) : 0 <= var v.
Proof.
  destruct (Nat.lt_ge_cases (length v) 2) as [Hshort | Hlong].
  - rewrite var_short by assumption. lra.
  - rewrite var_eq. apply Rmult_le_pos; [apply squares_sum_nonneg | ].
    apply Rlt_le, Rinv_0_lt_compat.
    apply le_INR in Hlong. simpl in Hlong. lra.
Qed.

Lemma cv_squared_eps_eq : cv_squared_eps = 1 / 10000000000.
Proof. unfold cv_squared_eps. simpl. unfold Q2R. simpl. lra. Qed.

Lemma sum_total (v : list R) : sum v = SampleStatistics.total v.
Proof. reflexivity. Qed.

Lemma mean_sample_mean (v : list R) : mean v = SampleStatistics.sample_mean v.
Proof. reflexivity. Qed.

Lemma var_sample_variance (v : list R) :
  var v = SampleStatistics.sample_variance v.
Proof.
  rewrite var_eq. unfold SampleStatistics.sample_variance.
  rewrite sum_total, mean_sample_mean. do 2 f_equal.
  apply map_ext. intro a. ring.
Qed.

(** C4, as the code has it.  In any arithmetic [cv_squared] is 0 on every
    tensor of one element.  In exact real arithmetic it is 0 on every
    constant tensor of two elements or more (whether the constant is 0 or
    not), and on every tensor whose sample variance (with Bessel's
    correction, as [Tensor.var] has it) is not 0 it is that variance over
    the square of the sample mean plus [1e-10], a positive number. *)
Theorem cv_squared_boundary :
  (forall (T : Type) (ST : Scalar T) (x : tensor1 (T:=T)) (eps : T),
     shape0 x = 1%nat -> cv_squared x eps = s_zero) /\
  (forall (x : tensor1 (T:=R)) (c : R) (n : nat) (eps : R),
     float x = repeat c n -> (2 <= n)%nat -> cv_squared x eps = 0) /\
  (forall x : tensor1 (T:=R),
     SampleStatistics.sample_variance (float x) <> 0 ->
     cv_squared x cv_squared_eps =
       SampleStatistics.sample_variance (float x) /
       (SampleStatistics.sample_mean (float x) ^ 2 + 1 / 10000000000) /\
     0 < cv_squared x cv_squared_eps).
Proof.
  split; [ | split].
  - intros T ST x eps Hone. unfold cv_squared. now rewrite Hone.
  - intros x c n eps Hconst Hn. rewrite cv_squared_eq, shape0_float, Hconst.
    rewrite repeat_length.
    destruct (Nat.eqb_spec n 1) as [Hone | _]; [lia | ].
    assert (Hnz : INR n <> 0) by (apply not_0_INR; lia).
    assert (Hmean : mean (repeat c n) = c).
    { rewrite mean_eq, sum_repeat, repeat_length. now field. }
    assert (Hvar : var (repeat c n) = 0).
    { rewrite var_eq, Hmean, map_repeat, sum_repeat. unfold Rdiv. ring. }
    rewrite Hvar. unfold Rdiv. ring.
  - intros x. rewrite <- var_sample_variance, <- mean_sample_mean. intro Hvar.
    assert (Hlen : (2 <= length (float x))%nat).
    { destruct (Nat.lt_ge_cases (length (float x)) 2) as [Hshort | Hlong];
        [ | exact Hlong].
      exfalso. apply Hvar. now apply var_short. }
    assert (Hpos : 0 < var (float x)).
    { pose proof (var_nonneg (float x)). lra. }
    assert (Hden : 0 < mean (float x) ^ 2 + 1 / 10000000000).
    { pose proof (pow2_ge_0 (mean (float x))). lra. }
    assert (Heq : cv_squared x cv_squared_eps =
                  var (float x) / (mean (float x) ^ 2 + 1 / 10000000000)).
    { rewrite cv_squared_eq, shape0_float, cv_squared_eps_eq.
      destruct (Nat.eqb_spec (length (float x)) 1) as [Hone | _]; [lia | ].
      f_equal. ring. }
    split; [exact Heq | ]. rewrite Heq. now apply Rdiv_lt_0_compat.
Qed.

Lemma cv_squared_boundary_witness :
  (forall m : Float32.libm,
     @cv_squared _ (Float32.scalar m) (FloatTensor [Float32.literal (9 # 5)])
       (@cv_squared_eps _ (Float32.scalar m)) = SpecFloat.S754_zero false) /\
  cv_squared (FloatTensor [5]) cv_squared_eps = 0 /\
  cv_squared (FloatTensor [3; 3; 3]) cv_squared_eps = 0 /\
  SampleStatistics.sample_mean [0; 2] = 1 /\
  SampleStatistics.sample_variance [0; 2] = 2 /\
  cv_squared (IntTensor [0%nat; 2%nat]) cv_squared_eps =
    2 / (1 ^ 2 + 1 / 10000000000) /\
  0 < cv_squared (IntTensor [0%nat; 2%nat]) cv_squared_eps.
Proof.
  destruct cv_squared_boundary as (Hone & Hconst & Hvar).
  assert (Hmean : SampleStatistics.sample_mean [0; 2] = 1).
  { unfold SampleStatistics.sample_mean. simpl. lra. }
  assert (Hvariance : SampleStatistics.sample_variance [0; 2] = 2).
  { unfold SampleStatistics.sample_variance. rewrite Hmean. simpl. lra. }
  split.
  { intro m.
    exact (Hone _ (Float32.scalar m) (FloatTensor [Float32.literal (9 # 5)])
             (@cv_squared_eps _ (Float32.scalar m)) eq_refl). }
  split; [exact (Hone R R_scalar (FloatTensor [5]) cv_squared_eps eq_refl) | ].
  split; [apply (Hconst _ 3 3%nat); [reflexivity | lia] | ].
  split; [exact Hmean | ]. split; [exact Hvariance | ].
  assert (Hfloat : float (IntTensor [0%nat; 2%nat]) = [0; 2]).
  { simpl; repeat f_equal; lra. }
  rewrite <- Hmean at 1. rewrite <- Hvariance at 1. rewrite <- Hfloat.
  apply Hvar. rewrite Hfloat, Hvariance. lra.
Defined.

(** C4 fails as stated in the arithmetic of the code, on both counts.

    The three entries of [torch.tensor([1.8, 1.8, 1.8])] are the
    single-precision number [15099494 * 2^-23]; their sum is rounded, the
    mean comes out one unit in the last place below the entries, and
    [cv_squared] returns [15534463 * 2^-71], about [6.58e-15], where the
    claim has exactly 0.

    The entries of [torch.tensor([2.0 ** -80, 0.0])] differ, so the
    variance of that vector is not 0; the squares of the two deviations
    [2^-81] are below the least positive single-precision number and
    round to 0, and [cv_squared] returns 0, where the claim has a positive
    number.  On [torch.tensor([2.0 ** 127, 2.0 ** 127, 0.0])] the sum
    overflows, the variance and the squared mean are both infinite, and
    [cv_squared] returns their quotient, which is not a number.

    All three hold whatever the functions of [libm] are: [cv_squared] uses
    none of them. *)
Lemma cv_squared_float32_counterexample :
  Float32.literal (9 # 5) = SpecFloat.S754_finite false 15099494 (-23) /\
  Float32.literal (1 # Pos.pow 2 80) = SpecFloat.S754_finite false 8388608 (-103) /\
  Float32.literal (Z.pow 2 127 # 1) = SpecFloat.S754_finite false 8388608 104 /\
  Float32.literal 0 = SpecFloat.S754_zero false /\
  (forall m : Float32.libm,
     @mean _ (Float32.scalar m) (repeat (Float32.literal (9 # 5)) 3) =
       SpecFloat.S754_finite false 15099493 (-23) /\
     @cv_squared _ (Float32.scalar m)
       (FloatTensor (repeat (Float32.literal (9 # 5)) 3))
       (@cv_squared_eps _ (Float32.scalar m)) =
       SpecFloat.S754_finite false 15534463 (-71) /\
     @cv_squared _ (Float32.scalar m)
       (FloatTensor [Float32.literal (1 # Pos.pow 2 80); Float32.literal 0])
       (@cv_squared_eps _ (Float32.scalar m)) =
       SpecFloat.S754_zero false /\
     @var _ (Float32.scalar m)
       [Float32.literal (Z.pow 2 127 # 1); Float32.literal (Z.pow 2 127 # 1);
        Float32.literal 0] =
       SpecFloat.S754_infinity false /\
     @cv_squared _ (Float32.scalar m)
       (FloatTensor [Float32.literal (Z.pow 2 127 # 1);
                     Float32.literal (Z.pow 2 127 # 1); Float32.literal 0])
       (@cv_squared_eps _ (Float32.scalar m)) =
       SpecFloat.S754_nan).
Proof.
  repeat split; vm_compute; reflexivity.
Qed.

(** ** [scatter], entry by entry *)

Lemma nth_set_nth_eq {A : Type} (i : nat) (a d : A) (l : list A) :
  (i < length l)%nat -> nth i (set_nth i a l) d = a.
Proof.
  revert i. induction l as [| b l IH]; intros [| i] Hi; simpl in *; try lia.
  - reflexivity.
  - apply IH. lia.
Qed.

Lemma nth_set_nth_neq {A : Type} (i j : nat) (a d : A) (l : list A) :
  i <> j -> nth j (set_nth i a l) d = nth j l d.
Proof.
  revert i j. induction l as [| b l IH]; intros [| i] [| j] Hij; simpl;
    try reflexivity; try congruence.
  apply IH. congruence.
Qed.

Lemma scatter_row_nth {T : Type} {ST : Scalar T}
    (self : vector T) (index : list nat) (src r : vector T) (e : nat) (d : T) :
  scatter_row self index src = Ok r ->
  (~ In e index -> nth e r d = nth e self d) /\
  (In e index -> In (nth e r d) src).
Proof.
  revert self src. induction index as [| i index IH]; intros self src Hr.
  - simpl in Hr. inversion Hr; subst. split; [reflexivity | intros []].
  - destruct src as [| v src]; simpl in Hr; [discriminate | ].
    destruct (Nat.ltb_spec i (length self)) as [Hi | Hi]; [ | discriminate].
    destruct (IH _ _ Hr) as [Hout Hin]. split.
    + intro Hnot. rewrite Hout by (intro; apply Hnot; now right).
      apply nth_set_nth_neq. intro; apply Hnot; now left.
    + intro He. destruct (in_dec Nat.eq_dec e index) as [Hin' | Hnot'].
      * right. now apply Hin.
      * left. destruct He as [-> | He]; [ | contradiction].
        rewrite Hout by assumption. symmetry. now apply nth_set_nth_eq.
Qed.

Lemma map2_nth {A B C : Type} (f : A -> B -> C) (l : list A) (l' : list B)
    (e : nat) (da : A) (db : B) (dc : C) :
  (e < length l)%nat -> (e < length l')%nat ->
  nth e (map2 f l l') dc = f (nth e l da) (nth e l' db).
Proof.
  revert l' e. induction l as [| a l IH]; intros [| b l'] [| e] Hl Hl';
    simpl in *; try lia; try reflexivity.
  rewrite <- (IH l' e) by lia. reflexivity.
Qed.

Lemma count_positive0_cons {T : Type} {ST : Scalar T} (n : nat)
    (row : vector T) (x : matrix T) :
  count_positive0 n (row :: x) =
    map2 (fun v c => if s_gt v s_zero then S c else c) row (count_positive0 n x).
Proof. reflexivity. Qed.

Lemma count_positive0_length {T : Type} {ST : Scalar T} (n : nat) (x : matrix T) :
  Forall (fun row => length row = n) x -> length (count_positive0 n x) = n.
Proof.
  induction 1 as [| row x Hrow _ IH].
  - apply repeat_length.
  - rewrite count_positive0_cons, map2_length, IH. lia.
Qed.

(** Column [e] of [(x > 0).sum(0)] counts the rows with a positive entry
    [e]; this holds in any arithmetic. *)
Lemma count_positive0_nth {T : Type} {ST : Scalar T} (n e : nat) (x : matrix T) :
  Forall (fun row => length row = n) x -> (e < n)%nat ->
  nth e (count_positive0 n x) 0%nat =
    length (filter (fun row => s_gt (nth e row s_zero) s_zero) x).
Proof.
  intros Hrows He. induction Hrows as [| row x Hrow Hrows IH].
  - simpl. apply nth_repeat_lt. exact He.
  - pose proof (count_positive0_length n x Hrows) as Hlen.
    rewrite count_positive0_cons.
    rewrite (map2_nth _ _ _ e s_zero 0%nat 0%nat) by lia.
    rewrite IH. simpl filter.
    destruct (s_gt (nth e row s_zero) s_zero); reflexivity.
Qed.

(** ** Softmax rows *)

Lemma exp_row_pos (row : list R) : Forall (fun a => 0 < a) (map exp row).
Proof. apply Forall_map, Forall_forall. intros a _. apply exp_pos. Qed.

Lemma softmax_row_eq (row : list R) :
  softmax_row row = map (fun v => v / sum (map exp row)) (map exp row).
Proof. reflexivity. Qed.

Lemma softmax_row_pos (row : list R) : Forall (fun a => 0 < a) (softmax_row row).
Proof.
  rewrite softmax_row_eq. apply Forall_map, Forall_forall. intros v Hv.
  assert (Hne : map exp row <> []) by (intro Hnil; rewrite Hnil in Hv; destruct Hv).
  pose proof (sum_pos (map exp row) Hne (exp_row_pos row)) as Hsum.
  pose proof (exp_row_pos row) as Hpos. rewrite Forall_forall in Hpos.
  apply Rdiv_lt_0_compat; [now apply Hpos | exact Hsum].
Qed.

Lemma softmax_row_sum (row : list R) : row <> [] -> sum (softmax_row row) = 1.
Proof.
  intro Hne. rewrite softmax_row_eq, sum_map_div.
  assert (Hsum : 0 < sum (map exp row)).
  { apply sum_pos; [ | apply exp_row_pos]. destruct row; [congruence | discriminate]. }
  field. lra.
Qed.

(** ** [scatter] into zeros *)

Lemma all_zero_nth (row : list R) (e : nat) : all_zero row -> nth e row 0 = 0.
Proof.
  intro Hz. destruct (Nat.lt_ge_cases e (length row)) as [Hlt | Hge].
  - unfold all_zero in Hz. rewrite Forall_forall in Hz. apply Hz. now apply nth_In.
  - now apply nth_overflow.
Qed.

Lemma zeros_like_all_zero (x : matrix R) :
  Forall all_zero (map (map (fun _ => 0)) x).
Proof.
  apply Forall_map, Forall_forall. intros row _.
  apply Forall_map, Forall_forall. reflexivity.
Qed.

Lemma sum_all_zero (row : list R) : all_zero row -> sum row = 0.
Proof.
  induction 1 as [| a row Ha _ IH]; [reflexivity | ]. rewrite sum_cons, IH, Ha. lra.
Qed.

Lemma sum_set_nth (i : nat) (v : R) (l : list R) :
  (i < length l)%nat -> sum (set_nth i v l) = sum l - nth i l 0 + v.
Proof.
  revert i. induction l as [| a l IH]; intros [| i] Hi; simpl in Hi; try lia.
  - simpl set_nth. simpl nth. rewrite !sum_cons. lra.
  - simpl set_nth. simpl nth. rewrite !sum_cons, IH by lia. lra.
Qed.

(** Scattering at pairwise distinct positions that hold zeros adds the
    scattered values to the total. *)
Lemma scatter_row_sum (self : list R) (index : list nat) (src r : list R) :
  scatter_row self index src = Ok r ->
  NoDup index -> length index = length src ->
  (forall i, In i index -> nth i self 0 = 0) ->
  sum r = sum self + sum src.
Proof.
  revert self src. induction index as [| i index IH]; intros self src Hr Hnd Hlen Hz.
  - destruct src; [ | discriminate]. simpl in Hr. inversion Hr; subst.
    change (sum []) with 0. lra.
  - destruct src as [| v src]; [discriminate | ]. simpl in Hr.
    destruct (Nat.ltb_spec i (length self)) as [Hi | Hi]; [ | discriminate].
    inversion Hnd as [| ? ? Hnotin Hnd']; subst.
    rewrite (IH _ _ Hr Hnd').
    + rewrite sum_set_nth by assumption. rewrite (Hz i) by now left.
      rewrite sum_cons. lra.
    + simpl in Hlen. lia.
    + intros j Hj. rewrite nth_set_nth_neq by (intro; subst; contradiction).
      apply Hz. now right.
Qed.

Lemma scatter_total_sum (self : matrix R) (index : list (list nat)) (src sf : matrix R) :
  scatter self index src = Ok sf ->
  length index = length self -> length src = length index ->
  Forall all_zero self ->
  Forall (fun row => NoDup row) index ->
  Forall2 (fun irow vrow => length irow = length vrow) index src ->
  sum (map sum sf) = sum (map sum src).
Proof.
  revert self src sf.
  induction index as [| irow index IH]; intros self src sf Hsf Hlen Hlen' Hz Hnd Hrows.
  - destruct self; [ | discriminate]. destruct src; [ | discriminate].
    simpl in Hsf. inversion Hsf; subst. reflexivity.
  - destruct self as [| srow self]; [discriminate | ].
    destruct src as [| vrow src]; [discriminate | ].
    simpl in Hsf. apply bind_ok in Hsf as (r & Hr & Hsf).
    apply bind_ok in Hsf as (rs & Hrs & Hsf). inversion Hsf; subst; clear Hsf.
    inversion Hz; inversion Hnd; inversion Hrows; subst.
    simpl map. rewrite !sum_cons.
    rewrite (IH self src rs); auto.
    rewrite (scatter_row_sum srow irow vrow r); auto.
    + rewrite sum_all_zero by assumption. lra.
    + intros i _. now apply all_zero_nth.
Qed.

(** With positive scores, the positive entries of a scattered row are the
    selected positions. *)
Lemma scatter_positive_count (self : matrix R) (index : list (list nat))
    (src sf : matrix R) (e : nat) :
  scatter self index src = Ok sf ->
  length index = length self ->
  Forall all_zero self ->
  Forall (Forall (fun a => 0 < a)) src ->
  length (filter (fun row => Rgtb (nth e row 0) 0) sf) = selected_count index e.
Proof.
  revert self src sf.
  induction index as [| irow index IH]; intros self src sf Hsf Hlen Hz Hpos.
  - destruct self; [ | discriminate]. simpl in Hsf. inversion Hsf; subst. reflexivity.
  - destruct self as [| srow self]; [discriminate | ].
    destruct src as [| vrow src]; [destruct irow; discriminate | ].
    simpl in Hsf. apply bind_ok in Hsf as (r & Hr & Hsf).
    apply bind_ok in Hsf as (rs & Hrs & Hsf). inversion Hsf; subst; clear Hsf.
    inversion Hz; inversion Hpos; subst.
    unfold selected_count in *. simpl filter.
    destruct (scatter_row_nth srow irow vrow r e 0 Hr) as [Hout Hin].
    destruct (existsb (Nat.eqb e) irow) eqn:Hsel.
    + apply existsb_exists in Hsel as (e' & He' & Heq).
      apply Nat.eqb_eq in Heq. subst e'.
      assert (Hgt : 0 < nth e r 0).
      { match goal with H : Forall (fun a => 0 < a) vrow |- _ =>
          rewrite Forall_forall in H; apply H end. now apply Hin. }
      rewrite Rgtb_gt by lra. simpl. f_equal. eapply IH; eauto.
    + assert (Hnot : ~ In e irow).
      { intro He. assert (existsb (Nat.eqb e) irow = true) as Hyes.
        { apply existsb_exists. exists e. split; [exact He | apply Nat.eqb_refl]. }
        congruence. }
      rewrite Hout by assumption. rewrite all_zero_nth by assumption.
      rewrite Rgtb_le by lra. eapply IH; eauto.
Qed.

Lemma sum0_cons (n : nat) (row : list R) (x : matrix R) :
  sum0 n (row :: x) = map2 Rplus row (sum0 n x).
Proof. reflexivity. Qed.

Lemma sum0_length (n : nat) (x : matrix R) :
  Forall (fun row => length row = n) x -> length (sum0 n x) = n.
Proof.
  induction 1 as [| row x Hrow _ IH].
  - apply repeat_length.
  - rewrite sum0_cons, map2_length, IH. lia.
Qed.

(** The column sums add up to the sum of all entries. *)
Lemma sum_sum0 (n : nat) (x : matrix R) :
  Forall (fun row => length row = n) x -> sum (sum0 n x) = sum (map sum x).
Proof.
  induction 1 as [| row x Hrow Hrows IH].
  - simpl. change (sum (zeros n) = 0). unfold zeros. rewrite sum_repeat.
    change s_zero with 0. lra.
  - rewrite sum0_cons, sum_map2_plus by (now rewrite sum0_length).
    simpl map. rewrite sum_cons, IH. reflexivity.
Qed.

(** ** Importance and load *)

Lemma select_top_k_scores_eq {T : Type} {ST : Scalar T}
    (self : TopKBalancedNoisyGate) (logits : matrix T) (sel : selection) :
  select_top_k self logits = Ok sel ->
  top_k_scores sel =
    if use_softmax self then softmax (top_k_logits sel) else top_k_logits sel.
Proof.
  unfold select_top_k. intro Hsel. apply bind_ok in Hsel as ([top idx] & _ & Hsel).
  inversion Hsel; subst. reflexivity.
Qed.

Lemma softmax_rows_positive (x : matrix R) :
  Forall (Forall (fun a => 0 < a)) (softmax x).
Proof.
  unfold softmax. apply Forall_map, Forall_forall. intros row _.
  apply softmax_row_pos.
Qed.

(** The locals of the balance branch of a run without noise. *)
Lemma forward_body_balance_no_noise (self : TopKBalancedNoisyGate) (x : matrix R)
    (randn : nat -> nat -> R) (noise_epsilon loss_coef : R) (b : nat)
    (loc : forward_locals) :
  Gate_wf self ->
  shape_is b (input_size self) x ->
  training self = true -> use_balance self = true -> add_noise self = false ->
  forward_body self x randn noise_epsilon loss_coef = Ok loc ->
  exists bl,
    balance loc = Some bl /\
    scatter (map (map (fun _ => 0)) (logits loc))
            (top_k_indices (selected loc)) (top_k_scores (selected loc))
      = Ok (scores_filtered bl) /\
    shape_is b (num_experts self) (scores_filtered bl) /\
    load bl = IntTensor (count_positive0 (num_experts self) (scores_filtered bl)).
Proof.
  intros Hwf Hx Htr Hub Hn Hrun.
  destruct (forward_body_ok self x randn noise_epsilon loss_coef b loc Hwf Hx Hrun)
    as (_ & _ & _ & Hlogits & Hselok & Hbl).
  assert (Hbal : training self && use_balance self = true) by now rewrite Htr, Hub.
  destruct (balance_loss_on self loss_coef (logits_gate loc) (noise loc) (logits loc)
              (selected loc) b Hbal Hlogits Hselok) as (sf & Hsf & Hshape & Heq).
  rewrite Heq, compute_load_no_noise in Hbl by assumption. simpl in Hbl.
  inversion Hbl as [[Hbalance Hloss]].
  eexists. split; [reflexivity | ]. simpl. auto.
Qed.

(** C5 fails as stated without softmax: on the input 1 the logits of the
    trained gate are -1 and -2, expert 0 is selected for the one row of the
    batch with the score -1, which is not positive, and its load is 0. *)
Lemma load_without_softmax_counterexample :
  exists loc bl,
    forward_body (trained_gate 1 true false false true) example_batch
      example_randn default_noise_epsilon default_loss_coef = Ok loc /\
    logits loc = [[1 * -1 + 0; 1 * -2 + 0]] /\
    balance loc = Some bl /\
    top_k_indices (selected loc) = [[0%nat]] /\
    selected_count (top_k_indices (selected loc)) 0 = 1%nat /\
    load bl = IntTensor [0%nat; 0%nat].
Proof.
  do 2 eexists. split.
  - unfold forward_body. eval_real. reflexivity.
  - eval_real. repeat split; reflexivity.
Qed.

Lemma sum_map_const_one {A : Type} (f : A -> R) (l : list A) :
  Forall (fun a => f a = 1) l -> sum (map f l) = INR (length l).
Proof.
  induction 1 as [| a l Ha _ IH].
  - reflexivity.
  - simpl map. simpl length. rewrite sum_cons, IH, Ha, S_INR. lra.
Qed.

(** C6, as the code has it (exact real arithmetic): with [use_softmax] and
    at least one selection per row, every row of the [top_k_scores] that
    [forward] returns adds up to 1 and has no negative entry; and when the
    balance branch runs (training mode with [use_balance]), the importance
    vector, the column sums of the scores scattered into zeros, adds up to
    the batch size. *)
Theorem softmax_scores_sum_to_one (self : TopKBalancedNoisyGate) (x : matrix R)
    (randn : nat -> nat -> R) (noise_epsilon loss_coef : R) (b : nat)
    (loc : forward_locals) :
  Gate_wf self ->
  shape_is b (input_size self) x ->
  use_softmax self = true -> (0 < num_selects self)%nat ->
  forward_body self x randn noise_epsilon loss_coef = Ok loc ->
  forward self x randn noise_epsilon loss_coef =
    Ok (top_k_indices (selected loc), top_k_scores (selected loc), gate_loss loc) /\
  Forall (fun row => sum row = 1 /\ Forall (fun a => 0 <= a) row)
         (top_k_scores (selected loc)) /\
  (training self = true -> use_balance self = true ->
   exists bl,
     balance loc = Some bl /\
     scatter (map (map (fun _ => 0)) (logits loc))
             (top_k_indices (selected loc)) (top_k_scores (selected loc))
       = Ok (scores_filtered bl) /\
     importance bl = sum0 (num_experts self) (scores_filtered bl) /\
     sum (importance bl) = INR b).
Proof.
  intros Hwf Hx Hsoft Hns Hrun.
  destruct (forward_body_ok self x randn noise_epsilon loss_coef b loc Hwf Hx Hrun)
    as (_ & _ & Hsel & Hlogits & Hselok & Hbl).
  pose proof Hselok as (_ & Hidx & Hrange & Hscores).
  assert (Hrows : Forall (fun row => sum row = 1 /\ Forall (fun a => 0 <= a) row)
                         (top_k_scores (selected loc))).
  { pose proof (select_top_k_scores_eq _ _ _ Hsel) as Heq. rewrite Hsoft in Heq.
    destruct Hscores as [_ Hlen]. rewrite Heq in *. unfold softmax in *.
    rewrite Forall_map in Hlen. apply Forall_map.
    eapply Forall_impl; [ | exact Hlen]. intros row Hrow. cbv beta in Hrow.
    rewrite softmax_row_length in Hrow. split.
    - apply softmax_row_sum. intro Hnil. subst row. simpl in Hrow. lia.
    - eapply Forall_impl; [ | apply softmax_row_pos]. intros a Ha.
      cbv beta in Ha. lra. }
  split; [ | split; [exact Hrows | ]].
  - rewrite forward_of_body, Hrun. reflexivity.
  - intros Htr Hub.
    assert (Hbal : training self && use_balance self = true) by now rewrite Htr, Hub.
    destruct (balance_loss_on self loss_coef (logits_gate loc) (noise loc) (logits loc)
                (selected loc) b Hbal Hlogits Hselok) as (sf & Hsf & Hshape & Heq).
    rewrite Heq in Hbl. apply bind_ok in Hbl as (ld & _ & Hbl).
    inversion Hbl as [[Hbalance Hloss]].
    eexists. split; [reflexivity | ]. simpl.
    split; [exact Hsf | ]. split; [reflexivity | ].
    rewrite sum_sum0 by apply Hshape.
    rewrite (scatter_total_sum _ _ _ _ Hsf).
    + rewrite sum_map_const_one.
      * f_equal. exact (proj1 Hscores).
      * eapply Forall_impl; [ | exact Hrows]. now intros row [? _].
    + rewrite length_map. exact (eq_trans (proj1 Hidx) (eq_sym (proj1 Hlogits))).
    + exact (eq_trans (proj1 Hscores) (eq_sym (proj1 Hidx))).
    + apply zeros_like_all_zero.
    + eapply Forall_impl; [ | exact Hrange]. now intros row [? _].
    + destruct Hidx as [Hib Hil]. destruct Hscores as [Hsb Hsl].
      clear - Hib Hil Hsb Hsl. subst b.
      revert Hsb Hsl. generalize (top_k_scores (selected loc)).
      induction Hil as [| irow index Hirow _ IH]; intros [| vrow src] Hsb Hsl;
        try discriminate; constructor.
      * inversion Hsl; subst. lia.
      * apply IH; [simpl in Hsb; lia | now inversion Hsl].
Qed.

(** C6 fails as stated for [num_selects = 0]: the one row of scores that
    [forward] returns is empty and adds up to 0, and the importance of the
    one expert is 0 on a batch of one row. *)
Lemma softmax_nothing_selected_counterexample :
  exists loc bl,
    forward_body (example_gate 1 0 true false true true) example_batch
      example_randn default_noise_epsilon default_loss_coef = Ok loc /\
    top_k_scores (selected loc) = [[]] /\ sum [] <> 1 /\
    balance loc = Some bl /\ importance bl = [0 + 0] /\
    sum (importance bl) <> INR 1.
Proof.
  do 2 eexists. split.
  - unfold forward_body. eval_real. reflexivity.
  - cbn. split; [reflexivity | ]. split; [lra | ].
    split; [reflexivity | ]. split; [reflexivity | ]. cbn. lra.
Qed.

Lemma softmax_scores_sum_to_one_witness :
  exists loc bl,
    forward_body (trained_gate 1 true false true true) example_batch
      example_randn default_noise_epsilon default_loss_coef = Ok loc /\
    Forall (fun row => sum row = 1 /\ Forall (fun a => 0 <= a) row)
           (top_k_scores (selected loc)) /\
    balance loc = Some bl /\ sum (importance bl) = INR 1.
Proof.
  assert (Hrun : exists loc,
            forward_body (trained_gate 1 true false true true) example_batch
              example_randn default_noise_epsilon default_loss_coef = Ok loc).
  { eexists. unfold forward_body. eval_real. reflexivity. }
  destruct Hrun as (loc & Hrun).
  destruct (softmax_scores_sum_to_one
              (trained_gate 1 true false true true) example_batch
              example_randn default_noise_epsilon default_loss_coef 1 loc
              (trained_gate_wf 1 true false true true (Nat.le_succ_diag_r 1))
              example_batch_shape eq_refl (Nat.lt_0_succ 0) Hrun)
    as (_ & Hrows & Himp).
  destruct (Himp eq_refl eq_refl) as (bl & Hbl & _ & _ & Hsum).
  exists loc, bl. auto.
Defined.

(** A run of [forward] in training mode with [use_balance], and one in
    evaluation mode. *)
Lemma forward_gate_loss_presence_witness :
  (exists idx scores gl,
     forward (trained_gate 1 true false true true) example_batch
       example_randn default_noise_epsilon default_loss_coef = Ok (idx, scores, gl) /\
     exists v, gl = Some v) /\
  (exists idx scores gl,
     forward (trained_gate 1 true true true false) example_batch
       example_randn default_noise_epsilon default_loss_coef = Ok (idx, scores, gl) /\
     gl = None).
Proof.
  split.
  - assert (Hrun : exists idx scores gl,
              forward (trained_gate 1 true false true true) example_batch
                example_randn default_noise_epsilon default_loss_coef =
                Ok (idx, scores, gl)).
    { do 3 eexists. unfold forward, forward_body. eval_real. reflexivity. }
    destruct Hrun as (idx & scores & gl & Hrun). exists idx, scores, gl.
    split; [exact Hrun | ].
    apply (forward_gate_loss_presence _ _ _ _ _ _ _ _ Hrun). now split.
  - assert (Hrun : exists idx scores gl,
              forward (trained_gate 1 true true true false) example_batch
                example_randn default_noise_epsilon default_loss_coef =
                Ok (idx, scores, gl)).
    { do 3 eexists. unfold forward, forward_body. eval_real. reflexivity. }
    destruct Hrun as (idx & scores & gl & Hrun). exists idx, scores, gl.
    split; [exact Hrun | ].
    apply (forward_gate_loss_presence _ _ _ _ _ _ _ _ Hrun).
    intros [Htr _]. discriminate Htr.
Defined.

End MoeGatesExact.

(* ===================================================================== *)
(** * The clustering-distribution tally *)
(* ===================================================================== *)

Module ClusteringSpec.

Import ClusteringDistribution.

Lemma split_nonempty (sep : ascii) (s : string) : split sep s <> [].
Proof.
  destruct s as [| c s]; simpl; [discriminate | ].
  destruct (Ascii.eqb c sep); [discriminate | ].
  destruct (split sep s); discriminate.
Qed.

Lemma source_of_has_file (ins : json) (f : string) :
  has_file ins f -> source_of ins = Ok (prefix_of f).
Proof.
  unfold has_file, source_of, prefix_of. intros ->. simpl.
  pose proof (split_nonempty "-" f) as Hne.
  destruct (split "-" f); [congruence | reflexivity].
Qed.

Lemma dict_getitem_in (d : dict) (key : string) :
  In key (map fst d) -> exists v, dict_getitem d key = Ok v.
Proof.
  induction d as [| [k v] d IH]; simpl; [intros [] | ].
  intro Hin. destruct (String.eqb_spec k key) as [_ | Hne]; [eauto | ].
  destruct Hin as [Heq | Hin]; [congruence | auto].
Qed.

Lemma dict_getitem_notin (d : dict) (key : string) :
  ~ In key (map fst d) -> dict_getitem d key = Err (KeyError key).
Proof.
  induction d as [| [k v] d IH]; simpl; [reflexivity | ].
  intro Hnot. destruct (String.eqb_spec k key) as [Heq | _].
  - exfalso. apply Hnot. now left.
  - apply IH. intro. apply Hnot. now right.
Qed.

Lemma dict_setitem_keys (d : dict) (key : string) (v : nat) :
  In key (map fst d) -> map fst (dict_setitem d key v) = map fst d.
Proof.
  induction d as [| [k w] d IH]; simpl; [intros [] | ].
  intro Hin. destruct (String.eqb_spec k key) as [_ | Hne]; [reflexivity | ].
  simpl. f_equal. apply IH. destruct Hin; [congruence | assumption].
Qed.

Lemma dict_getitem_setitem_eq (d : dict) (key : string) (v : nat) :
  dict_getitem (dict_setitem d key v) key = Ok v.
Proof.
  induction d as [| [k w] d IH]; simpl.
  - now rewrite String.eqb_refl.
  - destruct (String.eqb_spec k key) as [Heq | Hne]; simpl.
    + subst. now rewrite String.eqb_refl.
    + destruct (String.eqb_spec k key); [congruence | exact IH].
Qed.

Lemma dict_getitem_setitem_neq (d : dict) (key key' : string) (v : nat) :
  key <> key' ->
  dict_getitem (dict_setitem d key v) key' = dict_getitem d key'.
Proof.
  intro Hne. induction d as [| [k w] d IH]; simpl.
  - destruct (String.eqb_spec key key'); [congruence | reflexivity].
  - destruct (String.eqb_spec k key) as [Heq | Hk]; simpl.
    + subst. destruct (String.eqb_spec key key'); [congruence | reflexivity].
    + destruct (String.eqb_spec k key'); [reflexivity | exact IH].
Qed.

Lemma count_prefix_cons (key f : string) (files : list string) :
  count_prefix key (f :: files) =
    (if String.eqb (prefix_of f) key then 1 else 0) + count_prefix key files.
Proof.
  unfold count_prefix. simpl. destruct (String.eqb (prefix_of f) key); reflexivity.
Qed.

(** The loop adds, to every key of the dict, the number of records with
    that prefix, and leaves the keys as they are. *)
Lemma count_sources_adds (data : list json) (files : list string) :
  Forall2 has_file data files ->
  forall d : dict,
    Forall (fun f => In (prefix_of f) (map fst d)) files ->
    exists d',
      count_sources data d = Ok d' /\
      map fst d' = map fst d /\
      forall key v, dict_getitem d key = Ok v ->
                    dict_getitem d' key = Ok (v + count_prefix key files).
Proof.
  induction 1 as [| ins f data files Hins _ IH]; intros d Hknown.
  - exists d. simpl. repeat split. intros key v Hv. now rewrite Nat.add_0_r.
  - inversion Hknown as [| ? ? Hf Hrest]; subst.
    simpl. rewrite (source_of_has_file ins f Hins). simpl.
    destruct (dict_getitem_in d (prefix_of f) Hf) as (n & Hn).
    rewrite Hn. simpl.
    destruct (IH (dict_setitem d (prefix_of f) (n + 1))) as (d' & Hd' & Hkeys & Hget).
    { now rewrite dict_setitem_keys. }
    exists d'. split; [exact Hd' | ]. split.
    { now rewrite Hkeys, dict_setitem_keys. }
    intros key v Hv. rewrite count_prefix_cons.
    destruct (String.eqb_spec (prefix_of f) key) as [Heq | Hne].
    + subst key. rewrite Hn in Hv. inversion Hv; subst.
      rewrite (Hget (prefix_of f) (v + 1)) by apply dict_getitem_setitem_eq.
      f_equal. lia.
    + rewrite (Hget key v); [reflexivity | ].
      now rewrite dict_getitem_setitem_neq.
Qed.

(** The first record with an unknown prefix ends the loop with a
    [KeyError], whatever comes after it. *)
Lemma count_sources_unknown (before : list json) (good : list string)
    (ins : json) (f : string) (rest : list json) :
  Forall2 has_file before good ->
  forall d : dict,
    Forall (fun g => In (prefix_of g) (map fst d)) good ->
    has_file ins f ->
    ~ In (prefix_of f) (map fst d) ->
    count_sources (before ++ ins :: rest) d = Err (KeyError (prefix_of f)).
Proof.
  induction 1 as [| rec g before good Hrec _ IH]; intros d Hgood Hins Hbad.
  - simpl. rewrite (source_of_has_file ins f Hins). simpl.
    now rewrite dict_getitem_notin.
  - inversion Hgood as [| ? ? Hg Hgood']; subst.
    simpl. rewrite (source_of_has_file rec g Hrec). simpl.
    destruct (dict_getitem_in d (prefix_of g) Hg) as (n & Hn).
    rewrite Hn. simpl. apply IH; [ | exact Hins | ];
      now rewrite dict_setitem_keys.
Qed.

(** C9: when every record of a cluster file has a [file] field whose
    prefix, the part before the first dash, is one of the seven sources, the
    tally holds exactly the seven keys and maps each of them to the number of
    records with that prefix; the file [3.jsonl] with the fields
    [arxiv-001], [arxiv-002] and [github-005] yields arxiv 2, github 1 and
    0 for the five others, on a chart titled [Cluster 3]; and a record whose
    prefix is not among the seven makes the lookup fail with a [KeyError]. *)
Theorem tally_counts_sources :
  (forall (data : list json) (files : list string),
     Forall2 has_file data files ->
     Forall (fun f => In (prefix_of f) known_sources) files ->
     exists d,
       count_sources data initial_source_to_num = Ok d /\
       map fst d = known_sources /\
       forall key, In key known_sources ->
                   dict_getitem d key = Ok (count_prefix key files)) /\
  main [{| path := "clusters/3.jsonl"; stem := "3";
           records := [record_of "arxiv-001"; record_of "arxiv-002";
                       record_of "github-005"] |}] =
    ([Barh [("arxiv"%string, 2); ("books"%string, 0); ("c4"%string, 0);
            ("commoncrawl"%string, 0); ("github"%string, 1);
            ("stackexchange"%string, 0); ("wikipedia"%string, 0)]
           "Cluster 3" "results/analysis/cluster_3.png";
      Print "Done: clusters/3.jsonl"], None) /\
  (forall (before : list json) (good : list string) (ins : json) (f : string)
          (rest : list json),
     Forall2 has_file before good ->
     Forall (fun g => In (prefix_of g) known_sources) good ->
     has_file ins f ->
     ~ In (prefix_of f) known_sources ->
     count_sources (before ++ ins :: rest) initial_source_to_num =
       Err (KeyError (prefix_of f))).
Proof.
  split; [ | split].
  - intros data files Hdata Hknown.
    destruct (count_sources_adds data files Hdata initial_source_to_num Hknown)
      as (d & Hd & Hkeys & Hget).
    exists d. split; [exact Hd | ]. split; [exact Hkeys | ].
    intros key Hkey. rewrite (Hget key 0); [reflexivity | ].
    simpl in Hkey.
    repeat (destruct Hkey as [<- | Hkey]; [reflexivity | ]). destruct Hkey.
  - reflexivity.
  - intros before good ins f rest Hbefore Hgood Hins Hbad.
    now apply (count_sources_unknown before good ins f rest Hbefore).
Qed.

Ltac in_known := cbv; repeat (first [left; reflexivity | right]).

Lemma tally_counts_sources_witness :
  (exists d,
     count_sources [record_of "c4-17"; record_of "books-2-a"; record_of "c4-18"]
       initial_source_to_num = Ok d /\
     dict_getitem d "c4" = Ok 2 /\ dict_getitem d "wikipedia" = Ok 0) /\
  count_sources [record_of "c4-17"; record_of "pile-3"; record_of "c4-18"]
    initial_source_to_num = Err (KeyError "pile").
Proof.
  destruct tally_counts_sources as (Hcount & _ & Hfail). split.
  - destruct (Hcount
                [record_of "c4-17"; record_of "books-2-a"; record_of "c4-18"]
                ["c4-17"; "books-2-a"; "c4-18"]%string) as (d & Hd & _ & Hget).
    + repeat (apply Forall2_cons; [reflexivity | ]). apply Forall2_nil.
    + repeat (apply Forall_cons; [in_known | ]). apply Forall_nil.
    + exists d. split; [exact Hd | ]. split.
      * apply (Hget "c4"%string). in_known.
      * apply (Hget "wikipedia"%string). in_known.
  - apply (Hfail [record_of "c4-17"] ["c4-17"%string] (record_of "pile-3")
                 "pile-3"%string [record_of "c4-18"]).
    + repeat (apply Forall2_cons; [reflexivity | ]). apply Forall2_nil.
    + repeat (apply Forall_cons; [in_known | ]). apply Forall_nil.
    + reflexivity.
    + cbv. intros H. repeat (destruct H as [H | H]; [discriminate H | ]). exact H.
Defined.

End ClusteringSpec.

(* ===================================================================== *)
(** * More on the clustering-distribution entry point *)
(* ===================================================================== *)

Module ClusteringMore.

Import ClusteringDistribution ClusteringSpec.

(** ** [str.split] *)

Lemma split_absent (sep : ascii) (s : string) :
  occurs sep s = false -> split sep s = [s].
Proof.
  induction s as [| c s IH]; simpl; [reflexivity | ].
  intro Hno. apply orb_false_iff in Hno as [Hc Hs].
  rewrite Hc, (IH Hs). reflexivity.
Qed.

(** [(a + sep + b).split(sep) = a.split(sep) + b.split(sep)]. *)
Lemma split_app (sep : ascii) (a b : string) :
  split sep (a ++ String sep b) = split sep a ++ split sep b.
Proof.
  induction a as [| c a IH]; simpl.
  - now rewrite Ascii.eqb_refl.
  - destruct (Ascii.eqb c sep); [now rewrite IH | ].
    rewrite IH. pose proof (split_nonempty sep a) as Hne.
    destruct (split sep a); [congruence | reflexivity].
Qed.

Lemma split_head_absent (sep : ascii) (s : string) :
  occurs sep (hd EmptyString (split sep s)) = false.
Proof.
  induction s as [| c s IH]; simpl; [reflexivity | ].
  destruct (Ascii.eqb c sep) eqn:Hc; [reflexivity | ].
  pose proof (split_nonempty sep s) as Hne.
  destruct (split sep s) as [| w ws]; [congruence | ].
  simpl in *. now rewrite Hc, IH.
Qed.

(** X1: the source key never holds a dash; it is the whole [file] value
    when that holds no dash, and it is [p] for every value [p-rest] whose
    [p] holds no dash, whatever dashes [rest] holds. *)
Theorem prefix_of_first_dash (file p rest : string) :
  occurs "-" (prefix_of file) = false /\
  (occurs "-" file = false -> prefix_of file = file) /\
  (occurs "-" p = false -> prefix_of (p ++ String "-" rest) = p).
Proof.
  unfold prefix_of. split; [apply split_head_absent | ]. split.
  - intro Hno. now rewrite split_absent.
  - intro Hno. now rewrite split_app, split_absent.
Qed.

Lemma prefix_of_first_dash_witness :
  prefix_of "wikipedia" = "wikipedia"%string /\
  prefix_of "c4-en-0012" = "c4"%string.
Proof.
  split.
  - apply (prefix_of_first_dash "wikipedia" EmptyString EmptyString). reflexivity.
  - apply (prefix_of_first_dash EmptyString "c4" "en-0012"). reflexivity.
Defined.

(** ** The tallies add up *)

Lemma dict_setitem_total (d : dict) (key : string) (n : nat) :
  dict_getitem d key = Ok n ->
  list_sum (map snd (dict_setitem d key (n + 1))) = list_sum (map snd d) + 1.
Proof.
  induction d as [| [k v] d IH]; simpl; [discriminate | ].
  destruct (String.eqb k key).
  - intro Hv. inversion Hv; subst. simpl. lia.
  - intro Hn. simpl. rewrite (IH Hn). lia.
Qed.

(** X2: every record is counted once: a loop that ends without an
    exception leaves the keys of the dict as they were and has raised the
    sum of its values by the number of records; from the initial dict, the
    seven tallies add up to the number of records. *)
Theorem count_sources_total (data : list json) (d d' : dict) :
  count_sources data d = Ok d' ->
  map fst d' = map fst d /\
  list_sum (map snd d') = list_sum (map snd d) + length data /\
  (d = initial_source_to_num -> list_sum (map snd d') = length data).
Proof.
  intro Hrun.
  assert (Hgen : map fst d' = map fst d /\
                 list_sum (map snd d') = list_sum (map snd d) + length data).
  { revert d Hrun. induction data as [| ins data IH]; intros d Hrun; simpl in Hrun.
    - inversion Hrun; subst. simpl. split; [reflexivity | lia].
    - apply bind_ok in Hrun as (source & _ & Hrun).
      apply bind_ok in Hrun as (n & Hn & Hrun).
      destruct (IH _ Hrun) as [Hkeys Hsum]. split.
      + rewrite Hkeys. apply dict_setitem_keys.
        destruct (in_dec string_dec source (map fst d)) as [Hin | Hnot];
          [exact Hin | ].
        rewrite (dict_getitem_notin d source Hnot) in Hn. discriminate.
      + rewrite Hsum, (dict_setitem_total d source n Hn). simpl. lia. }
  destruct Hgen as [Hkeys Hsum]. split; [exact Hkeys | ]. split; [exact Hsum | ].
  intros ->. rewrite Hsum. reflexivity.
Qed.

Lemma count_sources_total_witness :
  exists d,
    count_sources [record_of "c4-1"; record_of "github-2"; record_of "c4-3"]
      initial_source_to_num = Ok d /\
    list_sum (map snd d) = 3.
Proof.
  eexists. split; [reflexivity | ].
  apply (count_sources_total
           [record_of "c4-1"; record_of "github-2"; record_of "c4-3"]
           initial_source_to_num _ eq_refl).
  reflexivity.
Defined.

(** ** Records that are not as expected *)

Lemma fields_getitem_absent (fields : list (string * json)) (key : string) :
  ~ In key (map fst fields) -> fields_getitem fields key = Err (KeyError key).
Proof.
  induction fields as [| [k v] fields IH]; simpl; [reflexivity | ].
  intro Hnot. destruct (String.eqb_spec k key) as [Heq | _].
  - exfalso. apply Hnot. now left.
  - apply IH. intro. apply Hnot. now right.
Qed.

(** The records before the first exception are counted and the loop goes
    on with the rest. *)
Lemma count_sources_app (before rest : list json) (d : dict) :
  count_sources (before ++ rest) d =
    (d' <- count_sources before d ;; count_sources rest d').
Proof.
  revert d. induction before as [| ins before IH]; intro d; simpl.
  - reflexivity.
  - destruct (source_of ins) as [source | e]; [ | reflexivity]. simpl.
    destruct (dict_getitem d source) as [n | e]; [ | reflexivity]. simpl.
    apply IH.
Qed.

(** X3: after records that are counted, the first record that is not as
    expected ends the loop with the exception of its kind: a [KeyError]
    for the key [file] when the record is an object without that field, an
    [AttributeError] when the field holds no string, a [TypeError] when the
    record is not an object; what follows that record is not read. *)
Theorem count_sources_malformed_record (before : list json) (d d' : dict)
    (ins : json) (rest : list json) :
  count_sources before d = Ok d' ->
  (forall fields, ins = JObject fields -> ~ In "file"%string (map fst fields) ->
     count_sources (before ++ ins :: rest) d = Err (KeyError "file")) /\
  (forall v, json_getitem ins "file" = Ok v -> (forall s, v <> JString s) ->
     count_sources (before ++ ins :: rest) d = Err (AttributeError "split")) /\
  ((forall fields, ins <> JObject fields) ->
     count_sources (before ++ ins :: rest) d =
       Err (TypeError "indices must be integers")).
Proof.
  intro Hbefore. rewrite count_sources_app, Hbefore. simpl. unfold source_of.
  split; [ | split].
  - intros fields -> Hnot. simpl. now rewrite fields_getitem_absent.
  - intros v Hv Hnostr. rewrite Hv. simpl.
    destruct v; try reflexivity. exfalso. now apply (Hnostr s).
  - intro Hnoobj. destruct ins; try reflexivity. exfalso. now apply (Hnoobj fields).
Qed.

Lemma count_sources_malformed_record_witness :
  count_sources [record_of "c4-1"; JObject [("text"%string, JString "t")];
                 record_of "c4-2"] initial_source_to_num = Err (KeyError "file") /\
  count_sources [record_of "c4-1"; JObject [("file"%string, JNumber 7)]]
    initial_source_to_num = Err (AttributeError "split") /\
  count_sources [record_of "c4-1"; JArray []] initial_source_to_num =
    Err (TypeError "indices must be integers").
Proof.
  destruct (count_sources_malformed_record [record_of "c4-1"]
              initial_source_to_num _ (JObject [("text"%string, JString "t")])
              [record_of "c4-2"] eq_refl) as (Hkey & _ & _).
  destruct (count_sources_malformed_record [record_of "c4-1"]
              initial_source_to_num _ (JObject [("file"%string, JNumber 7)])
              [] eq_refl) as (_ & Hattr & _).
  destruct (count_sources_malformed_record [record_of "c4-1"]
              initial_source_to_num _ (JArray []) [] eq_refl) as (_ & _ & Htype).
  split; [ | split].
  - apply (Hkey _ eq_refl). simpl. intros [H | []]. discriminate H.
  - apply (Hattr _ eq_refl). intros s H. discriminate H.
  - apply Htype. intros fields H. discriminate H.
Defined.

(** ** [main] over several files *)

(** X4: the files are handled one after the other and independently: a
    run over two lists of files is the run over the first followed, when it
    raised nothing, by the run over the second; when a file raises, the
    charts of the files before it have been drawn and the files after it
    are not read. *)
Theorem main_app (files files' : list cluster_file) :
  main (files ++ files') =
    match main files with
    | (events, None) => let (events', e) := main files' in (events ++ events', e)
    | (events, Some e) => (events, Some e)
    end.
Proof.
  induction files as [| file files IH]; simpl.
  - destruct (main files') as [events' e]. reflexivity.
  - destruct (process_file file) as [evs | e]; [ | reflexivity].
    rewrite IH. destruct (main files) as [events [e | ]].
    + reflexivity.
    + destruct (main files') as [events' e']. now rewrite app_assoc.
Qed.

End ClusteringMore.

(* ===================================================================== *)
(** * The expert-load visualization entry point: patching and saving *)
(* ===================================================================== *)

Module VisualizeSpec.

Import MoeGates VisualizeExpertLoad.

Section Patching.

Context {T : Type} {ST : Scalar T}.

Lemma patch_layers_good (n : nat) (ls : list (layer_object (T:=T))) :
  Forall (fun l => class_of l = Class_TopKBalancedNoisyGate) ls ->
  patch_layers n ls = (map (patch_layer n) ls, None).
Proof.
  induction 1 as [| layer ls Hlayer _ IH]; simpl; [reflexivity | ].
  unfold class_of in Hlayer. rewrite Hlayer, IH. reflexivity.
Qed.

Lemma gate_class_eqb_other (c : gate_class) :
  c <> Class_TopKBalancedNoisyGate ->
  gate_class_eqb c Class_TopKBalancedNoisyGate = false.
Proof. destruct c; [congruence | reflexivity]. Qed.

Lemma patch_layers_bad (n : nat) (good : list (layer_object (T:=T))) (bad : layer_object (T:=T))
    (rest : list (layer_object (T:=T))) :
  Forall (fun l => class_of l = Class_TopKBalancedNoisyGate) good ->
  class_of bad <> Class_TopKBalancedNoisyGate ->
  patch_layers n (good ++ bad :: rest) =
    (map (patch_layer n) good ++ bad :: rest, Some AssertionError).
Proof.
  intros Hgood Hbad. induction Hgood as [| layer good Hlayer _ IH]; simpl.
  - unfold class_of in Hbad. now rewrite gate_class_eqb_other.
  - unfold class_of in Hlayer. rewrite Hlayer, IH. reflexivity.
Qed.

(** X5: when the gate of every layer is a [TopKBalancedNoisyGate],
    [change_forward] raises nothing and leaves the model with its own
    [forward] and the [forward] of every layer, of every MoE block and of
    every gate replaced, and with the statistics of every gate at zero:
    a count of 0, two zero vectors of [config.num_experts] entries and two
    of one entry. *)
Theorem change_forward_patches_every_layer (model : LlamaModel (T:=T)) :
  Forall (fun l => class_of l = Class_TopKBalancedNoisyGate) (layers model) ->
  snd (change_forward model) = None /\
  model_forward (fst (change_forward model)) =
    forward_llama_moe_model_with_padding_mask /\
  length (layers (fst (change_forward model))) = length (layers model) /\
  Forall (fun l =>
            layer_forward l = forward_llama_moe_decoder_with_padding_mask /\
            mlp_forward (mlp l) = forward_linear_glu_moe_layer_with_padding_mask /\
            gate_forward (gate (mlp l)) =
              forward_mlp_moe_gate_with_hidden_states_recording /\
            class_of l = Class_TopKBalancedNoisyGate /\
            statistics_of l =
              Some {| samples_cnt := 0;
                      importance_sum := repeat s_zero (config_num_experts model);
                      importance_loss_sum := [s_zero];
                      load_sum := repeat s_zero (config_num_experts model);
                      load_loss_sum := [s_zero] |})
         (layers (fst (change_forward model))).
Proof.
  intro Hgood. unfold change_forward.
  rewrite (patch_layers_good _ _ Hgood). simpl.
  split; [reflexivity | ]. split; [reflexivity | ].
  split; [apply length_map | ].
  apply Forall_map. eapply Forall_impl; [ | exact Hgood].
  intros l Hl. simpl. unfold class_of, statistics_of in *. simpl. auto.
Qed.

(** X6: the patch is not all or nothing: when the gate of a layer is of
    another class, [change_forward] raises an [AssertionError] after it has
    replaced the [forward] of the model and patched every layer before
    that one; that layer and the layers after it are left as they
    were. *)
Theorem change_forward_stops_at_foreign_gate (model : LlamaModel (T:=T))
    (good : list (layer_object (T:=T))) (bad : layer_object (T:=T)) (rest : list (layer_object (T:=T))) :
  layers model = good ++ bad :: rest ->
  Forall (fun l => class_of l = Class_TopKBalancedNoisyGate) good ->
  class_of bad <> Class_TopKBalancedNoisyGate ->
  snd (change_forward model) = Some AssertionError /\
  model_forward (fst (change_forward model)) =
    forward_llama_moe_model_with_padding_mask /\
  layers (fst (change_forward model)) =
    map (patch_layer (config_num_experts model)) good ++ bad :: rest.
Proof.
  intros Hlayers Hgood Hbad. unfold change_forward.
  rewrite Hlayers, (patch_layers_bad _ _ _ _ Hgood Hbad). simpl. auto.
Qed.

Lemma patch_layers_twice (n : nat) (ls : list (layer_object (T:=T))) :
  patch_layers n (fst (patch_layers n ls)) = patch_layers n ls.
Proof.
  induction ls as [| l ls IH]; simpl; [reflexivity | ].
  destruct (gate_class_eqb (gate_type (gate (mlp l))) Class_TopKBalancedNoisyGate)
    eqn:Hc.
  - destruct (patch_layers n ls) as [ls' e] eqn:Hp. simpl in *.
    rewrite Hc, IH. reflexivity.
  - simpl. now rewrite Hc.
Qed.

(** X7: a second [change_forward] gives the result of the first, and a
    [change_forward] on a patched model whose gates have gathered
    statistics puts every statistic back to zero: on a model whose gates
    are all [TopKBalancedNoisyGate]s the result depends on the number of
    layers and on [config.num_experts] only. *)
Theorem change_forward_resets (model model' : LlamaModel (T:=T)) :
  change_forward (fst (change_forward model)) = change_forward model /\
  (config_num_experts model = config_num_experts model' ->
   length (layers model) = length (layers model') ->
   Forall (fun l => class_of l = Class_TopKBalancedNoisyGate) (layers model) ->
   Forall (fun l => class_of l = Class_TopKBalancedNoisyGate) (layers model') ->
   change_forward model = change_forward model').
Proof.
  split.
  - unfold change_forward.
    destruct (patch_layers (config_num_experts model) (layers model))
      as [ls e] eqn:Hp. simpl.
    pose proof (patch_layers_twice (config_num_experts model) (layers model)) as Htw.
    rewrite Hp in Htw. simpl in Htw. rewrite Htw. reflexivity.
  - intros Hn Hlen Hgood Hgood'. unfold change_forward.
    rewrite (patch_layers_good _ _ Hgood), (patch_layers_good _ _ Hgood'), Hn.
    f_equal. f_equal.
    revert Hlen Hgood Hgood'. generalize (layers model'). generalize (layers model).
    induction l as [| a l IH]; intros [| a' l'] Hlen Hg Hg'; try discriminate;
      [reflexivity | ].
    inversion Hg; inversion Hg'; subst. simpl. f_equal.
    + unfold patch_layer. unfold class_of in *. congruence.
    + apply IH; auto.
Qed.

(** ** Saving and drawing *)

Lemma append_statistics_present (ls : list (layer_object (T:=T))) (sts : list (statistics (T:=T)))
    (d : saved_dict (T:=T)) :
  map statistics_of ls = map Some sts ->
  append_statistics ls d =
    Ok {| saved_samples_cnt := saved_samples_cnt d;
          importance_sum_list := importance_sum_list d ++ map importance_sum sts;
          importance_loss_sum_list :=
            importance_loss_sum_list d ++ map importance_loss_sum sts;
          load_sum_list := load_sum_list d ++ map load_sum sts;
          load_loss_sum_list := load_loss_sum_list d ++ map load_loss_sum sts |}.
Proof.
  revert sts d. induction ls as [| l ls IH]; intros [| st sts] d Hst;
    try discriminate.
  - simpl. rewrite !app_nil_r. now destruct d.
  - simpl in Hst. injection Hst as Hl Hst. simpl.
    unfold gate_attribute. unfold statistics_of in Hl. rewrite Hl. simpl.
    rewrite (IH sts _ Hst). simpl. now rewrite <- !app_assoc.
Qed.

(** X8: on a model whose gates all carry statistics, the saved mapping
    holds the sample count of the first layer alone and four lists with one
    entry per layer, in the order of the layers; on a model without layers
    the lookup of the first layer raises an [IndexError]. *)
Theorem collect_saved_dict_in_layer_order (model : LlamaModel (T:=T))
    (sts : list (statistics (T:=T))) :
  map statistics_of (layers model) = map Some sts ->
  (sts = [] -> collect_saved_dict model = Err IndexError) /\
  (forall st0 sts', sts = st0 :: sts' ->
     collect_saved_dict model =
       Ok {| saved_samples_cnt := samples_cnt st0;
             importance_sum_list := map importance_sum sts;
             importance_loss_sum_list := map importance_loss_sum sts;
             load_sum_list := map load_sum sts;
             load_loss_sum_list := map load_loss_sum sts |}).
Proof.
  intro Hst. unfold collect_saved_dict. split.
  - intros ->. destruct (layers model); [reflexivity | discriminate].
  - intros st0 sts' ->. destruct (layers model) as [| l ls] eqn:Hls;
      [discriminate | ].
    pose proof Hst as Hst'. simpl in Hst'. injection Hst' as Hl _.
    unfold gate_attribute at 1. unfold statistics_of in Hl. rewrite Hl.
    cbv beta iota delta [bind].
    now rewrite (append_statistics_present (l :: ls) (st0 :: sts') _ Hst).
Qed.

Lemma visualize_from_present (k : nat) (ls : list (layer_object (T:=T)))
    (sts : list (statistics (T:=T))) (name path : string) :
  map statistics_of ls = map Some sts ->
  visualize_from k ls name path =
    (concat (map (charts_of name path) (combine (seq k (length sts)) sts)), None).
Proof.
  revert k sts. induction ls as [| l ls IH]; intros k [| st sts] Hst;
    try discriminate; [reflexivity | ].
  simpl in Hst. injection Hst as Hl Hst. simpl.
  unfold gate_attribute. unfold statistics_of in Hl. rewrite Hl.
  rewrite (IH (S k) sts Hst). reflexivity.
Qed.

Lemma visualize_from_absent (k : nat) (good : list (layer_object (T:=T)))
    (sts : list (statistics (T:=T))) (bad : layer_object (T:=T)) (rest : list (layer_object (T:=T)))
    (name path : string) :
  map statistics_of good = map Some sts ->
  statistics_of bad = None ->
  visualize_from k (good ++ bad :: rest) name path =
    (concat (map (charts_of name path) (combine (seq k (length sts)) sts)),
     Some (AttributeError "load_sum")).
Proof.
  revert k sts. induction good as [| l good IH]; intros k [| st sts] Hst Hbad;
    try discriminate.
  - simpl. unfold gate_attribute. unfold statistics_of in Hbad. now rewrite Hbad.
  - simpl in Hst. injection Hst as Hl Hst. simpl.
    unfold gate_attribute at 1. unfold statistics_of in Hl. rewrite Hl.
    rewrite (IH (S k) sts Hst Hbad). reflexivity.
Qed.

Lemma charts_length (name path : string) (l : list (nat * statistics (T:=T))) :
  length (concat (map (charts_of name path) l)) = 2 * length l.
Proof.
  induction l as [| a l IH]; simpl; [reflexivity | ]. rewrite IH. lia.
Qed.

(** X9: on a model whose gates all carry statistics the drawing raises
    nothing and draws, for the layers in their order and numbered from 0, a
    heat map under [save_path-heat] and a bar chart under [save_path-bar]
    of the [load_sum] of that layer: two charts per layer. *)
Theorem visualize_two_charts_per_layer (model : LlamaModel (T:=T))
    (sts : list (statistics (T:=T))) (name path : string) :
  map statistics_of (layers model) = map Some sts ->
  visualize model name path =
    (concat (map (charts_of name path) (combine (seq 0 (length sts)) sts)), None) /\
  length (fst (visualize model name path)) = 2 * length (layers model).
Proof.
  intro Hst. unfold visualize.
  rewrite (visualize_from_present 0 _ _ name path Hst). split; [reflexivity | ].
  simpl. rewrite charts_length, length_combine, length_seq, Nat.min_id.
  apply (f_equal (@length _)) in Hst. rewrite !length_map in Hst. lia.
Qed.

Lemma append_statistics_absent (good : list (layer_object (T:=T)))
    (sts : list (statistics (T:=T))) (bad : layer_object (T:=T))
    (rest : list (layer_object (T:=T))) (d : saved_dict (T:=T)) :
  map statistics_of good = map Some sts ->
  statistics_of bad = None ->
  append_statistics (good ++ bad :: rest) d = Err (AttributeError "importance_sum").
Proof.
  revert sts d. induction good as [| l good IH]; intros [| st sts] d Hst Hbad;
    try discriminate.
  - simpl. unfold gate_attribute. unfold statistics_of in Hbad. now rewrite Hbad.
  - simpl in Hst. injection Hst as Hl Hst. simpl.
    unfold gate_attribute. unfold statistics_of in Hl. rewrite Hl. simpl.
    now apply (IH sts).
Qed.

(** X10: a gate that was never patched has no statistics: when the gates
    of the layers before it carry theirs, the drawing stops at that layer
    with an [AttributeError] after the charts of the layers before it, and
    the saving raises an [AttributeError] as well, for [samples_cnt] when
    the layer is the first one and for [importance_sum] otherwise. *)
Theorem statistics_missing (model : LlamaModel (T:=T))
    (good : list (layer_object (T:=T))) (sts : list (statistics (T:=T)))
    (bad : layer_object (T:=T)) (rest : list (layer_object (T:=T)))
    (name path : string) :
  layers model = good ++ bad :: rest ->
  map statistics_of good = map Some sts ->
  statistics_of bad = None ->
  visualize model name path =
    (concat (map (charts_of name path) (combine (seq 0 (length sts)) sts)),
     Some (AttributeError "load_sum")) /\
  collect_saved_dict model =
    Err (AttributeError
           (match good with [] => "samples_cnt" | _ :: _ => "importance_sum" end)).
Proof.
  intros Hlayers Hst Hbad. split.
  - unfold visualize. rewrite Hlayers. now apply visualize_from_absent.
  - unfold collect_saved_dict. rewrite Hlayers.
    destruct good as [| l good].
    + simpl. unfold gate_attribute. unfold statistics_of in Hbad. now rewrite Hbad.
    + destruct sts as [| st sts]; [discriminate | ].
      pose proof Hst as Hst'. simpl in Hst'. injection Hst' as Hl _.
      change ((l :: good) ++ bad :: rest) with (l :: (good ++ bad :: rest)).
      cbv beta iota.
      unfold gate_attribute at 1. unfold statistics_of in Hl. rewrite Hl.
      cbv beta iota delta [bind].
      change (l :: (good ++ bad :: rest)) with ((l :: good) ++ bad :: rest).
      now apply (append_statistics_absent (l :: good) (st :: sts)).
Qed.

(** X11: patching and then saving and drawing with no batch in between
    (an empty dataset): on a model with at least one layer whose gates are
    all [TopKBalancedNoisyGate]s nothing is raised, the saved count is 0,
    every saved entry is a zero vector, and every chart is drawn from a
    zero vector of [config.num_experts] entries. *)
Theorem patch_then_save_without_batches (model : LlamaModel (T:=T)) (name path : string) :
  layers model <> [] ->
  Forall (fun l => class_of l = Class_TopKBalancedNoisyGate) (layers model) ->
  let n := length (layers model) in
  let e := config_num_experts model in
  snd (change_forward model) = None /\
  collect_saved_dict (fst (change_forward model)) =
    Ok {| saved_samples_cnt := 0;
          importance_sum_list := repeat (repeat s_zero e) n;
          importance_loss_sum_list := repeat [s_zero] n;
          load_sum_list := repeat (repeat s_zero e) n;
          load_loss_sum_list := repeat [s_zero] n |} /\
  visualize (fst (change_forward model)) name path =
    (concat (map (charts_of name path)
                 (combine (seq 0 n) (repeat (zero_statistics e) n))), None).
Proof.
  intros Hne Hgood n e.
  assert (Hst : map statistics_of (layers (fst (change_forward model))) =
                map Some (repeat (zero_statistics e) n)).
  { unfold change_forward. rewrite (patch_layers_good _ _ Hgood). simpl.
    subst n e. clear. induction (layers model) as [| l ls IH]; simpl;
      [reflexivity | ]. now rewrite IH. }
  split; [unfold change_forward; now rewrite (patch_layers_good _ _ Hgood) | ].
  split.
  - destruct (collect_saved_dict_in_layer_order _ _ Hst) as [_ Hsome].
    destruct (layers model) as [| l ls] eqn:Hls; [congruence | ].
    subst n. simpl length in *. simpl repeat in *.
    rewrite (Hsome _ _ eq_refl). simpl.
    rewrite !map_repeat. reflexivity.
  - destruct (visualize_two_charts_per_layer _ _ name path Hst) as [Hv _].
    rewrite Hv, repeat_length. reflexivity.
Qed.

End Patching.

(** ** The name of the dataset *)

Import ClusteringDistribution ClusteringSpec ClusteringMore.

Lemma path_tail_after_slash (dir file : string) :
  occurs "/" file = false ->
  path_tail (dir ++ String "/" file) = file /\ path_tail file = file.
Proof.
  intro Hno. unfold path_tail. rewrite split_app, (split_absent _ _ Hno).
  split; [ | reflexivity].
  now rewrite last_last.
Qed.

(** X12: the dataset name is the file name up to its first dot, not up to
    its last one, followed by [save_name_prefix]: for a path [dir/name.ext]
    or [name.ext] whose [name] holds no dot and no slash and whose [ext]
    holds no slash it is [name] followed by the prefix, whatever dots
    [ext] holds. *)
Theorem dataset_name_up_to_first_dot (dir name ext save_name_prefix : string) :
  occurs "/" name = false -> occurs "." name = false -> occurs "/" ext = false ->
  dataset_name (dir ++ String "/" (name ++ String "." ext)) save_name_prefix =
    (name ++ save_name_prefix)%string /\
  dataset_name (name ++ String "." ext) save_name_prefix =
    (name ++ save_name_prefix)%string.
Proof.
  intros Hslash Hdot Hext.
  assert (Hfile : occurs "/" (name ++ String "." ext) = false).
  { clear Hdot. induction name as [| c name IH]; simpl in *.
    - exact Hext.
    - apply orb_false_iff in Hslash as [Hc Hn]. now rewrite Hc, IH. }
  destruct (path_tail_after_slash dir _ Hfile) as [Hdir Hplain].
  unfold dataset_name. rewrite Hdir, Hplain, split_app, (split_absent _ _ Hdot).
  auto.
Qed.

(** ** The theorems above at concrete inputs *)

Import VisualizeExamples RealArith.

Lemma change_forward_patches_every_layer_witness :
  snd (change_forward
         (example_model [loaded_layer Class_TopKBalancedNoisyGate;
                         loaded_layer Class_TopKBalancedNoisyGate])) = None /\
  length (layers (fst (change_forward
         (example_model [loaded_layer Class_TopKBalancedNoisyGate;
                         loaded_layer Class_TopKBalancedNoisyGate])))) = 2.
Proof.
  destruct (change_forward_patches_every_layer
              (example_model [loaded_layer Class_TopKBalancedNoisyGate;
                              loaded_layer Class_TopKBalancedNoisyGate]))
    as (Hnone & _ & Hlen & _).
  - repeat constructor.
  - split; [exact Hnone | exact Hlen].
Defined.

Lemma change_forward_stops_at_foreign_gate_witness :
  snd (change_forward
         (example_model [loaded_layer Class_TopKBalancedNoisyGate;
                         loaded_layer (Class_other "Linear");
                         loaded_layer Class_TopKBalancedNoisyGate])) =
    Some AssertionError /\
  layers (fst (change_forward
         (example_model [loaded_layer Class_TopKBalancedNoisyGate;
                         loaded_layer (Class_other "Linear");
                         loaded_layer Class_TopKBalancedNoisyGate]))) =
    [patch_layer 2 (loaded_layer Class_TopKBalancedNoisyGate);
     loaded_layer (Class_other "Linear");
     loaded_layer Class_TopKBalancedNoisyGate].
Proof.
  destruct (change_forward_stops_at_foreign_gate
              (example_model [loaded_layer Class_TopKBalancedNoisyGate;
                              loaded_layer (Class_other "Linear");
                              loaded_layer Class_TopKBalancedNoisyGate])
              [loaded_layer Class_TopKBalancedNoisyGate]
              (loaded_layer (Class_other "Linear"))
              [loaded_layer Class_TopKBalancedNoisyGate])
    as (Herr & _ & Hlayers).
  - reflexivity.
  - repeat constructor.
  - discriminate.
  - split; [exact Herr | exact Hlayers].
Defined.

Lemma change_forward_resets_witness :
  change_forward (example_model [used_layer]) =
  change_forward (example_model [loaded_layer Class_TopKBalancedNoisyGate]).
Proof.
  apply (change_forward_resets (example_model [used_layer])
           (example_model [loaded_layer Class_TopKBalancedNoisyGate]));
    try reflexivity; repeat constructor.
Defined.

Lemma collect_saved_dict_in_layer_order_witness :
  collect_saved_dict (example_model [used_layer; used_layer]) =
    Ok {| saved_samples_cnt := 4;
          importance_sum_list := [[1; 3]; [1; 3]]%R;
          importance_loss_sum_list := [[2]; [2]]%R;
          load_sum_list := [[1; 3]; [1; 3]]%R;
          load_loss_sum_list := [[2]; [2]]%R |} /\
  collect_saved_dict (example_model []) = Err IndexError.
Proof.
  split.
  - apply (proj2 (collect_saved_dict_in_layer_order
                    (example_model [used_layer; used_layer])
                    [used_statistics; used_statistics] eq_refl)
                 used_statistics [used_statistics] eq_refl).
  - apply (proj1 (collect_saved_dict_in_layer_order (example_model []) [] eq_refl)
                 eq_refl).
Defined.

Lemma visualize_two_charts_per_layer_witness :
  visualize (example_model [used_layer; used_layer]) "part-000203" "out/vis" =
    ([Heatmap [1; 3]%R 0 "part-000203" "out/vis-heat";
      Barv [1; 3]%R 0 "part-000203" "out/vis-bar";
      Heatmap [1; 3]%R 1 "part-000203" "out/vis-heat";
      Barv [1; 3]%R 1 "part-000203" "out/vis-bar"], None).
Proof.
  apply (visualize_two_charts_per_layer
           (example_model [used_layer; used_layer])
           [used_statistics; used_statistics] "part-000203" "out/vis" eq_refl).
Defined.

Lemma statistics_missing_witness :
  collect_saved_dict
    (example_model [used_layer; loaded_layer Class_TopKBalancedNoisyGate]) =
    Err (AttributeError "importance_sum") /\
  collect_saved_dict (example_model [loaded_layer Class_TopKBalancedNoisyGate]) =
    Err (AttributeError "samples_cnt").
Proof.
  split.
  - apply (statistics_missing
             (example_model [used_layer; loaded_layer Class_TopKBalancedNoisyGate])
             [used_layer] [used_statistics]
             (loaded_layer Class_TopKBalancedNoisyGate) []
             EmptyString EmptyString eq_refl eq_refl eq_refl).
  - apply (statistics_missing
             (example_model [loaded_layer Class_TopKBalancedNoisyGate])
             [] [] (loaded_layer Class_TopKBalancedNoisyGate) []
             EmptyString EmptyString eq_refl eq_refl eq_refl).
Defined.

Lemma patch_then_save_without_batches_witness :
  collect_saved_dict
    (fst (change_forward
            (example_model [loaded_layer Class_TopKBalancedNoisyGate]))) =
    Ok {| saved_samples_cnt := 0;
          importance_sum_list := [[0; 0]]%R;
          importance_loss_sum_list := [[0]]%R;
          load_sum_list := [[0; 0]]%R;
          load_loss_sum_list := [[0]]%R |}.
Proof.
  destruct (patch_then_save_without_batches
              (example_model [loaded_layer Class_TopKBalancedNoisyGate])
              EmptyString EmptyString) as (_ & Hsaved & _).
  - discriminate.
  - repeat constructor.
  - exact Hsaved.
Defined.

Lemma dataset_name_up_to_first_dot_witness :
  dataset_name "data/vis/commoncrawl-part-000203.head1000.jsonl" "-v2" =
    "commoncrawl-part-000203-v2"%string.
Proof.
  apply (dataset_name_up_to_first_dot "data/vis" "commoncrawl-part-000203"
           "head1000.jsonl" "-v2"); reflexivity.
Defined.

End VisualizeSpec.

(* ===================================================================== *)
(** * More on the gate: construction, reset and the runs of [forward] *)
(* ===================================================================== *)

Module MoeGatesMore.

Import MoeGates TensorFacts MoeGatesSpec RealArith.

Section Generic.

Context {T : Type} {ST : Scalar T}.

Lemma zero_fill_entries (w : matrix T) :
  Forall (Forall (fun a => a = s_zero)) (map (map (fun _ => s_zero)) w).
Proof.
  apply Forall_map, Forall_forall.
  intros row _. apply Forall_map, Forall_forall. reflexivity.
Qed.

(** X13: a construction succeeds exactly when the assertion and the gate
    type pass; the gate it returns is in training mode, holds the three
    flags it was given, is well formed (every weight has the shape its
    layer declares, for [input_size] inputs and [num_experts] outputs), has
    a noise projection of zeros, and for the gate type [linear] a gate
    projection of zeros, whatever the library drew. *)
Theorem init_establishes (input_size num_experts num_selects : nat)
    (gate_network_type : string) (ub an us : bool) (draws : initial_draws (T:=T)) :
  ((exists self, __init__ input_size num_experts num_selects gate_network_type
                   ub an us draws = Ok self) <->
   (num_selects <= num_experts /\ In (lower gate_network_type) valid_gate_type)) /\
  (forall self,
     __init__ input_size num_experts num_selects gate_network_type
       ub an us draws = Ok self ->
     Gate_wf self /\ training self = true /\
     use_balance self = ub /\ add_noise self = an /\ use_softmax self = us /\
     MoeGates.input_size self = input_size /\
     MoeGates.num_experts self = num_experts /\
     MoeGates.num_selects self = num_selects /\
     Forall (Forall (fun a => a = s_zero)) (weight (weight_noise self)) /\
     (lower gate_network_type = "linear"%string ->
      exists l, gate_network self = GateLinear l /\
                Forall (Forall (fun a => a = s_zero)) (weight l))).
Proof.
  split.
  - unfold __init__, get_gate_network. split.
    + intros [self Hself].
      destruct (Nat.leb_spec num_selects num_experts) as [Hle | _];
        [ | discriminate].
      split; [exact Hle | ]. simpl.
      destruct (String.eqb_spec (lower gate_network_type) "linear") as [-> | _];
        [now left | ].
      destruct (String.eqb_spec (lower gate_network_type) "mlp") as [-> | _];
        [right; now left | discriminate].
    + intros [Hle Hin].
      destruct (Nat.leb_spec num_selects num_experts) as [_ | Hgt]; [ | lia].
      simpl in Hin. destruct Hin as [<- | [<- | []]]; simpl; eauto.
  - intros self Hself. split; [exact (init_wf _ _ _ _ _ _ _ _ _ Hself) | ].
    unfold __init__ in Hself.
    destruct (num_selects <=? num_experts); [ | discriminate].
    apply bind_ok in Hself as (gn & Hgn & Hself).
    inversion Hself; subst; clear Hself. simpl.
    repeat (split; [reflexivity | ]).
    split; [apply zero_fill_entries | ].
    intro Hlin. unfold get_gate_network in Hgn. rewrite Hlin in Hgn. simpl in Hgn.
    inversion Hgn; subst. eexists. split; [reflexivity | apply zero_fill_entries].
Qed.

Lemma zeros__twice (l : Linear T) : zeros_ (zeros_ l) = zeros_ l.
Proof.
  unfold zeros_. simpl. f_equal. rewrite map_map. apply map_ext.
  intro row. rewrite map_map. reflexivity.
Qed.

(** X14: [reset_parameters] touches the noise projection only, which it
    fills with zeros; it keeps the gate well formed, a second call changes
    nothing, and outside the noisy branch (evaluation mode, or [add_noise]
    off) [forward] returns the same result before and after it. *)
Theorem reset_parameters_only_zeroes_noise (self : TopKBalancedNoisyGate)
    (x : matrix T) (randn : nat -> nat -> T) (noise_epsilon loss_coef : T) :
  gate_network (reset_parameters self) = gate_network self /\
  Forall (Forall (fun a => a = s_zero)) (weight (weight_noise (reset_parameters self))) /\
  reset_parameters (reset_parameters self) = reset_parameters self /\
  (Gate_wf self -> Gate_wf (reset_parameters self)) /\
  (training self && add_noise self = false ->
   forward (reset_parameters self) x randn noise_epsilon loss_coef =
     forward self x randn noise_epsilon loss_coef).
Proof.
  split; [reflexivity | ]. split; [apply zero_fill_entries | ].
  split; [unfold reset_parameters; simpl; now rewrite zeros__twice | ].
  split.
  - intros (Hns & Hgn & Hwn & Hin & Hout). unfold Gate_wf. simpl.
    split; [exact Hns | ]. split; [exact Hgn | ].
    split; [now apply zeros__wf | auto].
  - intro Hoff. unfold forward, forward_body, noisy_logits. simpl.
    rewrite Hoff. reflexivity.
Qed.

(** ** When [forward] raises *)

Lemma rows_have_false_shape (d : nat) (x : matrix T) :
  Exists (fun row => length row <> d) x -> rows_have d x = false.
Proof.
  intro Hex. unfold rows_have. apply not_true_is_false. intro Hall.
  rewrite forallb_forall in Hall. apply Exists_exists in Hex as (row & Hin & Hlen).
  apply Hall, Nat.eqb_eq in Hin. contradiction.
Qed.

Lemma GateNetwork_forward_bad_width (gn : GateNetwork) (x : matrix T) (i n : nat) :
  GateNetwork_wf i n gn ->
  Exists (fun row => length row <> i) x ->
  GateNetwork_forward gn x = Err (RuntimeError ShapeMismatch).
Proof.
  intros Hwf Hbad. destruct gn as [l | l1 l2]; simpl in *.
  - destruct Hwf as (_ & Hin & _). unfold Linear_forward, F_linear.
    now rewrite Hin, (rows_have_false_shape _ _ Hbad).
  - destruct Hwf as (_ & Hin & _). unfold Linear_forward at 1. unfold F_linear.
    now rewrite Hin, (rows_have_false_shape _ _ Hbad).
Qed.

(** X15: a batch with a row that has not [input_size] entries makes
    [forward] and [forward_return_scores] raise the shape error of the gate
    network, in every mode and before anything else is computed. *)
Theorem forward_rejects_wrong_width (self : TopKBalancedNoisyGate) (x : matrix T)
    (randn : nat -> nat -> T) (noise_epsilon loss_coef : T) :
  Gate_wf self ->
  Exists (fun row => length row <> input_size self) x ->
  forward self x randn noise_epsilon loss_coef = Err (RuntimeError ShapeMismatch) /\
  forward_return_scores self x randn noise_epsilon loss_coef =
    Err (RuntimeError ShapeMismatch).
Proof.
  intros (_ & Hgn & _) Hbad.
  pose proof (GateNetwork_forward_bad_width _ x _ _ Hgn Hbad) as Herr.
  unfold forward, forward_body, forward_return_scores. now rewrite Herr.
Qed.

(** X16: on a well-formed gate and a batch of the right width, [forward]
    returns whenever it does not enter the noisy estimate of the load, that
    is in evaluation mode, with [use_balance] off or with [add_noise] off.
    Inside the estimate, on a batch that is not empty with [num_selects]
    equal to 0 or to [num_experts], it raises the index error of
    [torch.gather] (lines 158-164, before [Normal.cdf] is reached).  The
    other runs of the estimate are left out: [Normal.cdf] checks its
    argument there. *)
Theorem forward_returns_outside_noisy_load (self : TopKBalancedNoisyGate)
    (x : matrix T) (randn : nat -> nat -> T) (noise_epsilon loss_coef : T)
    (b : nat) :
  Gate_wf self ->
  shape_is b (input_size self) x ->
  (training self && use_balance self && add_noise self = false ->
   exists r, forward self x randn noise_epsilon loss_coef = Ok r) /\
  (training self = true -> use_balance self = true -> add_noise self = true ->
   0 < b -> num_selects self = 0 \/ num_selects self = num_experts self ->
   exists position size,
     forward self x randn noise_epsilon loss_coef =
       Err (RuntimeError (IndexOutOfBounds position size))).
Proof.
  intros Hwf Hx. rewrite forward_of_body. split.
  - intro Hoff.
    destruct (forward_body_total self x randn noise_epsilon loss_coef b Hwf Hx)
      as (loc & Hloc).
    + intros Htr Hub Hn. rewrite Htr, Hub, Hn in Hoff. discriminate.
    + rewrite Hloc. simpl. eauto.
  - intros Htr Hub Hn Hb Hedge.
    destruct (Nat.eq_dec (num_selects self) (num_experts self)) as [Heq | Hne].
    + rewrite (forward_body_no_slot self x randn noise_epsilon loss_coef b)
        by assumption. simpl. eauto.
    + destruct Hedge as [Hzero | Heq]; [ | contradiction].
      rewrite (forward_body_nothing_selected self x randn noise_epsilon loss_coef b)
        by (try assumption; lia). simpl. eauto.
Qed.

(** X25: whenever [forward] returns on a well-formed gate and a batch of
    [b] rows of the right width, the indices and the scores both have the
    shape [(b, num_selects)], every index is below [num_experts], and the
    indices of a row are pairwise distinct. *)
Theorem forward_result_shapes (self : TopKBalancedNoisyGate) (x : matrix T)
    (randn : nat -> nat -> T) (noise_epsilon loss_coef : T) (b : nat)
    (idx : list (list nat)) (scores : matrix T) (gl : option T) :
  Gate_wf self ->
  shape_is b (input_size self) x ->
  forward self x randn noise_epsilon loss_coef = Ok (idx, scores, gl) ->
  shape_is b (num_selects self) idx /\
  shape_is b (num_selects self) scores /\
  Forall (fun row => NoDup row /\ Forall (fun i => i < num_experts self) row) idx.
Proof.
  intros Hwf Hx Hrun. rewrite forward_of_body in Hrun.
  apply bind_ok in Hrun as (loc & Hloc & Hret). inversion Hret; subst; clear Hret.
  destruct (forward_body_ok self x randn noise_epsilon loss_coef b loc Hwf Hx Hloc)
    as (_ & _ & _ & _ & (_ & Hshape & Hrange & Hscores) & _).
  auto.
Qed.

End Generic.

(** ** The theorems above at concrete inputs *)

Lemma forward_result_shapes_witness :
  exists idx scores gl,
    forward (trained_gate 2 false true true true) example_batch
      example_randn default_noise_epsilon default_loss_coef = Ok (idx, scores, gl) /\
    shape_is 1 2 idx /\ shape_is 1 2 scores.
Proof.
  destruct (forward_body_total (trained_gate 2 false true true true) example_batch
              example_randn default_noise_epsilon default_loss_coef 1
              (trained_gate_wf 2 false true true true (Nat.le_refl 2))
              example_batch_shape) as (loc & Hloc).
  { intros _ Hub. discriminate Hub. }
  assert (Hrun : forward (trained_gate 2 false true true true) example_batch
                   example_randn default_noise_epsilon default_loss_coef =
                 Ok (top_k_indices (selected loc), top_k_scores (selected loc),
                     gate_loss loc)).
  { rewrite forward_of_body, Hloc. reflexivity. }
  destruct (forward_result_shapes (trained_gate 2 false true true true)
              example_batch example_randn default_noise_epsilon default_loss_coef 1
              _ _ _ (trained_gate_wf 2 false true true true (Nat.le_refl 2))
              example_batch_shape Hrun) as (Hidx & Hscores & _).
  do 3 eexists. split; [exact Hrun | ]. split; assumption.
Defined.

Lemma init_establishes_witness :
  exists self,
    __init__ 16 8 2 "MLP" true false true RealArith.example_draws = Ok self /\
    Gate_wf self /\ training self = true /\ add_noise self = false.
Proof.
  destruct (init_establishes 16 8 2 "MLP" true false true RealArith.example_draws)
    as [[_ Hex] Hst].
  destruct Hex as [self Hself].
  - split; [lia | ]. right. left. reflexivity.
  - exists self. destruct (Hst self Hself) as (Hwf & Htr & _ & Han & _). auto.
Defined.

Lemma reset_parameters_only_zeroes_noise_witness :
  Gate_wf (reset_parameters (RealArith.trained_gate 1 true false true true)) /\
  forward (reset_parameters (RealArith.trained_gate 1 true false true true))
    RealArith.example_batch RealArith.example_randn
    default_noise_epsilon default_loss_coef =
  forward (RealArith.trained_gate 1 true false true true)
    RealArith.example_batch RealArith.example_randn
    default_noise_epsilon default_loss_coef.
Proof.
  destruct (reset_parameters_only_zeroes_noise
              (RealArith.trained_gate 1 true false true true)
              RealArith.example_batch RealArith.example_randn
              default_noise_epsilon default_loss_coef)
    as (_ & _ & _ & Hwf & Hfw).
  split.
  - apply Hwf, trained_gate_wf. lia.
  - apply Hfw. reflexivity.
Defined.

Lemma forward_rejects_wrong_width_witness :
  forward (RealArith.trained_gate 1 true true true true) [[1; 2]%R]
    RealArith.example_randn default_noise_epsilon default_loss_coef =
    Err (RuntimeError ShapeMismatch).
Proof.
  apply (forward_rejects_wrong_width
           (RealArith.trained_gate 1 true true true true) [[1; 2]%R]).
  - apply trained_gate_wf. lia.
  - apply Exists_cons_hd. simpl. lia.
Defined.

Lemma forward_returns_outside_noisy_load_witness :
  (exists r,
     forward (RealArith.trained_gate 2 false true true true) RealArith.example_batch
       RealArith.example_randn default_noise_epsilon default_loss_coef = Ok r) /\
  (exists position size,
     forward (RealArith.trained_gate 2 true true true true) RealArith.example_batch
       RealArith.example_randn default_noise_epsilon default_loss_coef =
       Err (RuntimeError (IndexOutOfBounds position size))).
Proof.
  split.
  - apply (proj1 (forward_returns_outside_noisy_load
                    (RealArith.trained_gate 2 false true true true)
                    RealArith.example_batch RealArith.example_randn
                    default_noise_epsilon default_loss_coef 1
                    (trained_gate_wf 2 false true true true (Nat.le_refl 2))
                    example_batch_shape)).
    reflexivity.
  - apply (proj2 (forward_returns_outside_noisy_load
                    (RealArith.trained_gate 2 true true true true)
                    RealArith.example_batch RealArith.example_randn
                    default_noise_epsilon default_loss_coef 1
                    (trained_gate_wf 2 true true true true (Nat.le_refl 2))
                    example_batch_shape));
      try reflexivity; [lia | right; reflexivity].
Defined.

End MoeGatesMore.

(* ===================================================================== *)
(** * More on the gate: what the selection and the scores are *)
(* ===================================================================== *)

Module MoeGatesRuns.

Import MoeGates TensorFacts MoeGatesSpec RealArith MoeGatesExact.

Section Generic.

Context {T : Type} {ST : Scalar T}.

(** The entries of [logits] at the positions [index], row by row. *)
Lemma topk_values (k : nat) (x top : matrix T) (idx : list (list nat)) :
  topk k x = Ok (top, idx) ->
  top = map2 (fun row irow => map (fun e => nth e row s_zero) irow) x idx.
Proof.
  unfold topk. intro Htop. apply bind_ok in Htop as (rs & Hrs & Htop).
  inversion Htop; subst; clear Htop. apply mapM_ok_Forall2 in Hrs.
  induction Hrs as [| row [vals idxs] x rs Hrow _ IH]; [reflexivity | ].
  simpl map. rewrite map2_cons. f_equal; [ | exact IH].
  exact (topk_row_values _ _ _ _ Hrow).
Qed.

Lemma select_top_k_values (self : TopKBalancedNoisyGate) (logits : matrix T)
    (sel : selection) :
  select_top_k self logits = Ok sel ->
  top_k_logits sel =
    map2 (fun row irow => map (fun e => nth e row s_zero) irow)
         logits (top_k_indices sel).
Proof.
  unfold select_top_k. intro Hsel. apply bind_ok in Hsel as ([top idx] & Htop & Hsel).
  inversion Hsel; subst; clear Hsel. simpl.
  rewrite (topk_values _ _ _ _ Htop). clear Htop.
  revert idx. induction logits as [| row logits IH]; intros [| irow idx];
    try reflexivity.
  rewrite map2_cons. simpl map. rewrite map2_cons. f_equal; [ | apply IH].
  now rewrite firstn_map.
Qed.

(** X17: outside the noisy branch and without softmax, the scores that
    [forward] returns are the outputs of the gate network at the indices it
    returns: the score at [(i, j)] is the logit of expert
    [top_k_indices[i][j]] for row [i]. *)
Theorem forward_scores_are_gate_logits (self : TopKBalancedNoisyGate)
    (x : matrix T) (randn : nat -> nat -> T) (noise_epsilon loss_coef : T)
    (idx : list (list nat)) (scores : matrix T) (gl : option T) :
  training self && add_noise self = false ->
  use_softmax self = false ->
  forward self x randn noise_epsilon loss_coef = Ok (idx, scores, gl) ->
  exists logits,
    GateNetwork_forward (gate_network self) x = Ok logits /\
    scores = map2 (fun row irow => map (fun e => nth e row s_zero) irow) logits idx.
Proof.
  intros Hoff Hraw Hrun. unfold forward, forward_body, noisy_logits in Hrun.
  rewrite Hoff in Hrun.
  apply bind_ok in Hrun as (loc & Hloc & Hret).
  apply bind_ok in Hloc as (lg & Hlg & Hloc). simpl in Hloc.
  apply bind_ok in Hloc as (sel & Hsel & Hloc).
  apply bind_ok in Hloc as ([bal gl'] & _ & Hloc).
  inversion Hloc; subst; clear Hloc. inversion Hret; subst; clear Hret. simpl.
  exists lg. split; [exact Hlg | ].
  rewrite <- (select_top_k_values _ _ _ Hsel).
  pose proof (select_top_k_scores_eq _ _ _ Hsel) as Hsc. now rewrite Hraw in Hsc.
Qed.

(** X18: the unused class [WeightNoise] computes what the noise
    projection of a constructed gate computes: for the same sizes, its
    [forward] after construction and the [weight_noise] layer of the gate
    return the same result on every input, whatever was in memory or drawn
    at construction. *)
Theorem WeightNoise_agrees_with_gate (input_size num_experts num_selects : nat)
    (gate_network_type : string) (ub an us : bool) (draws : initial_draws (T:=T))
    (self : TopKBalancedNoisyGate) (empty : nat -> nat -> T) (x : matrix T) :
  __init__ input_size num_experts num_selects gate_network_type ub an us draws =
    Ok self ->
  WeightNoiseClass.forward (WeightNoiseClass.__init__ input_size num_experts empty) x =
    Linear_forward (weight_noise self) x.
Proof.
  unfold __init__. destruct (num_selects <=? num_experts); [ | discriminate].
  intro Hself. apply bind_ok in Hself as (gn & _ & Hself).
  inversion Hself; subst; clear Hself.
  unfold WeightNoiseClass.forward, WeightNoiseClass.__init__,
    WeightNoiseClass.reset_parameters, Linear_forward. simpl.
  f_equal. rewrite !map_map. apply map_ext. intro i. rewrite !map_map. reflexivity.
Qed.

End Generic.

Lemma forward_scores_are_gate_logits_witness :
  exists idx scores gl logits,
    forward (trained_gate 1 true false false true) example_batch
      example_randn default_noise_epsilon default_loss_coef = Ok (idx, scores, gl) /\
    GateNetwork_forward (gate_network (trained_gate 1 true false false true))
      example_batch = Ok logits /\
    scores = map2 (fun row irow => map (fun e => nth e row 0%R) irow) logits idx.
Proof.
  assert (Hrun : exists idx scores gl,
            forward (trained_gate 1 true false false true) example_batch
              example_randn default_noise_epsilon default_loss_coef =
              Ok (idx, scores, gl)).
  { do 3 eexists. unfold forward, forward_body. eval_real. reflexivity. }
  destruct Hrun as (idx & scores & gl & Hrun).
  destruct (forward_scores_are_gate_logits
              (trained_gate 1 true false false true) example_batch
              example_randn default_noise_epsilon default_loss_coef
              idx scores gl eq_refl eq_refl Hrun)
    as (logits & Hlogits & Hscores).
  exists idx, scores, gl, logits. auto.
Defined.

Lemma WeightNoise_agrees_with_gate_witness :
  WeightNoiseClass.forward (WeightNoiseClass.__init__ 1 2 (fun _ _ => 5%R))
    example_batch =
  Linear_forward (weight_noise (example_gate 2 1 true true true true)) example_batch.
Proof.
  apply (WeightNoise_agrees_with_gate 1 2 1 "Linear" true true true example_draws).
  reflexivity.
Defined.

End MoeGatesRuns.

(* ===================================================================== *)
(** * More on the gate in exact real arithmetic *)
(* ===================================================================== *)

Module MoeGatesRunsExact.

Import MoeGates TensorFacts MoeGatesSpec RealArith MoeGatesExact MoeGatesRuns.

Local Open Scope R_scope.

(** ** The selection takes the largest logits *)

Local Notation "'ge_fst'" := (fun a b : R * nat => fst a >= fst b).

Lemma insert_desc_sorted (p : R * nat) (l : list (R * nat)) :
  StronglySorted ge_fst l -> StronglySorted ge_fst (insert_desc p l).
Proof.
  induction 1 as [| q l Hl IH Hq]; simpl.
  - repeat constructor.
  - change (s_gt (fst q) (fst p)) with (Rgtb (fst q) (fst p)). unfold Rgtb.
    destruct (Rgt_dec (fst q) (fst p)) as [Hgt | Hle].
    + constructor; [exact IH | ].
      apply (Permutation_Forall (Permutation_sym (insert_desc_perm p l))).
      constructor; [simpl; lra | exact Hq].
    + constructor; [now constructor | ].
      constructor; [simpl; lra | ].
      eapply Forall_impl; [ | exact Hq]. intros c Hc. simpl in *. lra.
Qed.

Lemma sort_desc_sorted (l : list (R * nat)) : StronglySorted ge_fst (sort_desc l).
Proof.
  induction l as [| p l IH]; simpl; [constructor | ].
  now apply insert_desc_sorted.
Qed.

Lemma strongly_sorted_firstn {A : Type} (R : A -> A -> Prop) (k : nat) (l : list A) :
  StronglySorted R l -> StronglySorted R (firstn k l).
Proof.
  intro Hl. revert k. induction Hl as [| a l Hl IH Ha]; intros [| k]; simpl;
    try constructor; [apply IH | now apply Forall_firstn].
Qed.

Lemma strongly_sorted_split {A : Type} (R : A -> A -> Prop) (k : nat) (l : list A) :
  StronglySorted R l ->
  forall a b, In a (firstn k l) -> In b (skipn k l) -> R a b.
Proof.
  intro Hl. revert k. induction Hl as [| c l Hl IH Hc]; intros [| k] a b Ha Hb;
    simpl in *; try contradiction.
  destruct Ha as [<- | Ha].
  - rewrite Forall_forall in Hc. apply Hc.
    rewrite <- (firstn_skipn k l). apply in_or_app. now right.
  - now apply (IH k).
Qed.

Lemma strongly_sorted_map_fst (l : list (R * nat)) :
  StronglySorted ge_fst l -> StronglySorted Rge (map fst l).
Proof.
  induction 1 as [| a l Hl IH Ha]; simpl; constructor; [exact IH | ].
  apply Forall_map. exact Ha.
Qed.

Lemma in_combine_nth (row : list R) (k e : nat) :
  (e < length row)%nat ->
  In (nth e row 0, (k + e)%nat) (combine row (seq k (length row))).
Proof.
  revert k e. induction row as [| a row IH]; intros k [| e] He; simpl in *;
    try lia.
  - left. f_equal. lia.
  - right. replace (k + S e)%nat with (S k + e)%nat by lia. apply IH. lia.
Qed.

(** Row by row: an expert that is not among the first [m] selected has a
    logit that is at most the logit of each of them. *)
Lemma topk_row_largest (k m : nat) (row vals : list R) (idxs : list nat) :
  topk_row k row = Ok (vals, idxs) -> (m <= k)%nat ->
  StronglySorted Rge (firstn m vals) /\
  forall e e', (e < length row)%nat ->
               ~ In e (firstn m idxs) -> In e' (firstn m idxs) ->
               nth e row 0 <= nth e' row 0.
Proof.
  unfold topk_row. destruct (k <=? length row)%nat; [ | discriminate].
  intros Hr Hm. inversion Hr; subst; clear Hr.
  set (sorted := sort_desc (combine row (seq 0 (length row)))).
  pose proof (sort_desc_sorted (combine row (seq 0 (length row)))) as Hsorted.
  fold sorted in Hsorted.
  assert (Hfirst : forall A (f : R * nat -> A),
             firstn m (map f (firstn k sorted)) = map f (firstn m sorted)).
  { intros A f. rewrite firstn_map, firstn_firstn. now rewrite Nat.min_l. }
  rewrite !Hfirst. split.
  - apply strongly_sorted_map_fst, strongly_sorted_firstn, Hsorted.
  - intros e e' He Hout Hin.
    assert (Ha : In (nth e row 0, e) sorted).
    { apply (Permutation_in _ (Permutation_sym (sort_desc_perm _))).
      exact (in_combine_nth row 0 e He). }
    rewrite <- (firstn_skipn m sorted) in Ha. apply in_app_or in Ha as [Ha | Ha].
    { exfalso. apply Hout. apply in_map_iff. now exists (nth e row 0, e). }
    apply in_map_iff in Hin as ([v' e''] & Heq & Hin). simpl in Heq. subst e''.
    pose proof (strongly_sorted_split _ m sorted Hsorted _ _ Hin Ha) as Hge.
    simpl in Hge.
    apply In_firstn in Hin.
    apply (Permutation_in _ (sort_desc_perm _)) in Hin.
    apply in_combine_seq in Hin as [_ Hnth]. rewrite Nat.sub_0_r in Hnth.
    change (@s_zero R R_scalar) with 0 in Hnth. rewrite Hnth. lra.
Qed.

Lemma forward_body_select {T : Type} {ST : Scalar T}
    (self : TopKBalancedNoisyGate) (x : matrix T)
    (randn : nat -> nat -> T) (noise_epsilon loss_coef : T) (loc : forward_locals) :
  forward_body self x randn noise_epsilon loss_coef = Ok loc ->
  select_top_k self (logits loc) = Ok (selected loc) /\
  balance_loss self loss_coef (logits_gate loc) (noise loc) (logits loc)
    (selected loc) = Ok (balance loc, gate_loss loc).
Proof.
  unfold forward_body. intro Hloc.
  apply bind_ok in Hloc as (lg & _ & Hloc).
  apply bind_ok in Hloc as ([noise logits] & _ & Hloc).
  apply bind_ok in Hloc as (sel & Hsel & Hloc).
  apply bind_ok in Hloc as ([bal gl] & Hbl & Hloc).
  inversion Hloc; subst; clear Hloc. simpl. auto.
Qed.

(** X19: the selection takes the largest logits: in every row the
    selected logits are in descending order, and the logit of an expert
    that was not selected is at most the logit of every selected expert
    (the logits being the noisy ones in the noisy branch). *)
Theorem selection_takes_largest_logits (self : TopKBalancedNoisyGate)
    (x : matrix R) (randn : nat -> nat -> R) (noise_epsilon loss_coef : R)
    (loc : forward_locals) :
  (num_selects self <= num_experts self)%nat ->
  forward_body self x randn noise_epsilon loss_coef = Ok loc ->
  Forall (StronglySorted Rge) (top_k_logits (selected loc)) /\
  Forall2 (fun row irow =>
             forall e e', (e < length row)%nat -> ~ In e irow -> In e' irow ->
                          nth e row 0 <= nth e' row 0)
          (logits loc) (top_k_indices (selected loc)).
Proof.
  intros Hns Hrun. apply forward_body_select in Hrun as [Hsel _].
  unfold select_top_k in Hsel.
  apply bind_ok in Hsel as ([top idx] & Htop & Hsel).
  inversion Hsel as [Hsel']; clear Hsel Hsel'. simpl.
  unfold topk in Htop. apply bind_ok in Htop as (rs & Hrs & Htop).
  inversion Htop; subst; clear Htop. apply mapM_ok_Forall2 in Hrs.
  assert (Hm : (num_selects self <=
                Nat.min (num_selects self + 1) (num_experts self))%nat) by lia.
  revert Hrs Hm. generalize (Nat.min (num_selects self + 1) (num_experts self)) as k.
  generalize (num_selects self) as m. intros m k Hrs Hm. clear Hns.
  induction Hrs as [| row [vals idxs] rows rs Hrow _ IH]; simpl.
  - split; constructor.
  - destruct IH as [IHs IHl].
    destruct (topk_row_largest k m row vals idxs Hrow Hm) as [Hsorted Hlargest].
    split; constructor; assumption.
Qed.

Lemma selection_takes_largest_logits_witness :
  exists loc,
    forward_body (trained_gate 1 true false false true) example_batch
      example_randn default_noise_epsilon default_loss_coef = Ok loc /\
    Forall (StronglySorted Rge) (top_k_logits (selected loc)) /\
    top_k_indices (selected loc) = [[0%nat]] /\
    nth 1 (nth 0 (logits loc) []) 0 <= nth 0 (nth 0 (logits loc) []) 0.
Proof.
  assert (Hrun : exists loc,
            forward_body (trained_gate 1 true false false true) example_batch
              example_randn default_noise_epsilon default_loss_coef = Ok loc /\
            logits loc = [[1 * -1 + 0; 1 * -2 + 0]] /\
            top_k_indices (selected loc) = [[0%nat]]).
  { eexists. split; [unfold forward_body; eval_real; reflexivity | ].
    split; reflexivity. }
  destruct Hrun as (loc & Hrun & Hlogits & Hidx).
  destruct (selection_takes_largest_logits
              (trained_gate 1 true false false true) example_batch
              example_randn default_noise_epsilon default_loss_coef loc
              (Nat.le_succ_diag_r 1) Hrun) as [Hsorted Hlargest].
  exists loc. split; [exact Hrun | ]. split; [exact Hsorted | ].
  split; [exact Hidx | ].
  rewrite Hlogits, Hidx in Hlargest. inversion Hlargest as [| ? ? ? ? Hrow _]; subst.
  rewrite Hlogits. simpl nth at 2 4.
  apply (Hrow 1%nat 0%nat); simpl; [lia | intros [H | []]; discriminate H | now left].
Defined.

(** ** The balance loss is not negative *)

Lemma cv_squared_nonneg (x : tensor1) (eps : R) :
  0 < eps -> 0 <= cv_squared x eps.
Proof.
  intro Heps. rewrite cv_squared_eq.
  destruct (shape0 x =? 1)%nat; [lra | ].
  apply Rmult_le_pos; [apply var_nonneg | ].
  apply Rlt_le, Rinv_0_lt_compat.
  pose proof (Rle_0_sqr (mean (float x))) as Hsq. unfold Rsqr in Hsq. lra.
Qed.

(** X20: with at least one expert and a loss coefficient that is not
    negative, the gate loss [forward] returns is not negative. *)
Theorem gate_loss_nonneg (self : TopKBalancedNoisyGate) (x : matrix R)
    (randn : nat -> nat -> R) (noise_epsilon loss_coef : R)
    (idx : list (list nat)) (scores : matrix R) (gl : R) :
  (0 < num_experts self)%nat ->
  0 <= loss_coef ->
  forward self x randn noise_epsilon loss_coef = Ok (idx, scores, Some gl) ->
  0 <= gl.
Proof.
  intros _ Hcoef Hrun. unfold forward in Hrun.
  apply bind_ok in Hrun as (loc & Hloc & Hret). inversion Hret; subst; clear Hret.
  apply forward_body_select in Hloc as [_ Hbl].
  unfold balance_loss in Hbl.
  destruct (training self && use_balance self); [ | inversion Hbl; congruence].
  apply bind_ok in Hbl as (sf & _ & Hbl). apply bind_ok in Hbl as (ld & _ & Hbl).
  inversion Hbl as [[Hbal Hgl]].
  match goal with H : gate_loss loc = Some gl |- _ => rewrite H in Hgl end.
  inversion Hgl; subst gl.
  assert (Heps : 0 < cv_squared_eps) by (rewrite cv_squared_eps_eq; lra).
  apply Rmult_le_pos; [ | exact Hcoef].
  apply Rplus_le_le_0_compat; now apply cv_squared_nonneg.
Qed.

Lemma gate_loss_nonneg_witness :
  exists idx scores gl,
    forward (trained_gate 1 true false true true) example_batch
      example_randn default_noise_epsilon default_loss_coef =
      Ok (idx, scores, Some gl) /\ 0 <= gl.
Proof.
  assert (Hrun : exists idx scores gl,
            forward (trained_gate 1 true false true true) example_batch
              example_randn default_noise_epsilon default_loss_coef =
              Ok (idx, scores, Some gl)).
  { do 3 eexists. unfold forward, forward_body. eval_real. reflexivity. }
  destruct Hrun as (idx & scores & gl & Hrun). exists idx, scores, gl.
  split; [exact Hrun | ].
  apply (gate_loss_nonneg (trained_gate 1 true false true true) example_batch
           example_randn default_noise_epsilon default_loss_coef idx scores gl).
  - simpl. lia.
  - unfold default_loss_coef. simpl. unfold Q2R. simpl. lra.
  - exact Hrun.
Defined.

(** ** A noise projection of zeros *)

Lemma dot_all_zero (row w : list R) : all_zero w -> dot row w = 0.
Proof.
  intro Hw. revert row. induction Hw as [| a w Ha _ IH]; intros [| r row];
    try reflexivity.
  change (dot (r :: row) (a :: w)) with (r * a + dot row w).
  rewrite IH, Ha. lra.
Qed.

Lemma map_constant {A B : Type} (f : A -> B) (c : B) (l : list A) :
  (forall a, In a l -> f a = c) -> map f l = repeat c (length l).
Proof.
  induction l as [| a l IH]; intro Hf; simpl; [reflexivity | ].
  rewrite (Hf a) by now left. f_equal. apply IH. intros a' Ha'. apply Hf. now right.
Qed.

(** A layer of zeros returns zeros. *)
Lemma zero_layer_output (x w : matrix R) (d b n : nat) :
  shape_is b d x -> length w = n -> Forall all_zero w ->
  F_linear x w d = Ok (repeat (repeat 0 n) b).
Proof.
  intros Hx Hn Hw. unfold F_linear. rewrite (shape_is_rows _ _ _ Hx). f_equal.
  destruct Hx as [<- _]. apply map_constant. intros row _.
  rewrite <- Hn. apply map_constant. intros wrow Hwrow.
  apply dot_all_zero. rewrite Forall_forall in Hw. now apply Hw.
Qed.

Lemma softplus_0 : softplus 0 = ln 2.
Proof.
  unfold softplus. destruct (Rgt_dec 0 20) as [Hgt | _]; [lra | ].
  rewrite exp_0. replace (1 + 1) with 2 by lra. reflexivity.
Qed.

(** X21: while the noise projection holds zeros, as it does after a
    construction or a [reset_parameters], every entry of the noise scale of
    a noisy run is [ln 2 + noise_epsilon], whatever the input is. *)
Theorem zero_noise_projection_scale (self : TopKBalancedNoisyGate) (x : matrix R)
    (randn : nat -> nat -> R) (noise_epsilon loss_coef : R) (b : nat)
    (loc : forward_locals) :
  Gate_wf self ->
  Forall all_zero (weight (weight_noise self)) ->
  shape_is b (input_size self) x ->
  training self = true -> add_noise self = true ->
  forward_body self x randn noise_epsilon loss_coef = Ok loc ->
  exists nl,
    noise loc = Some nl /\
    noise_control nl = repeat (repeat (ln 2 + noise_epsilon) (num_experts self)) b.
Proof.
  intros Hwf Hzero Hx Htr Hn Hrun.
  destruct (forward_body_ok self x randn noise_epsilon loss_coef b loc Hwf Hx Hrun)
    as (_ & Hnl & _).
  destruct Hwf as (_ & _ & [Hrows _] & Hin & Hout).
  unfold noisy_logits in Hnl. rewrite Htr, Hn in Hnl. simpl in Hnl.
  unfold Linear_forward in Hnl.
  rewrite Hin, (zero_layer_output x _ _ b (num_experts self) Hx) in Hnl;
    [ | now rewrite Hrows | exact Hzero].
  simpl in Hnl. inversion Hnl as [[Hnoise Hlogits]].
  eexists. split; [reflexivity | ]. simpl.
  rewrite !map_repeat. change (s_softplus 0) with (softplus 0).
  now rewrite softplus_0.
Qed.

Lemma zero_noise_projection_scale_witness :
  exists loc nl,
    forward_body (reset_parameters (trained_gate 1 true true true true))
      example_batch example_randn default_noise_epsilon default_loss_coef = Ok loc /\
    noise loc = Some nl /\
    noise_control nl = [[ln 2 + default_noise_epsilon; ln 2 + default_noise_epsilon]].
Proof.
  assert (Hwf : Gate_wf (reset_parameters (trained_gate 1 true true true true))).
  { apply MoeGatesMore.reset_parameters_only_zeroes_noise;
      try exact example_batch; try exact example_randn; try exact 0.
    apply trained_gate_wf. lia. }
  destruct (forward_body_total
              (reset_parameters (trained_gate 1 true true true true)) example_batch
              example_randn default_noise_epsilon default_loss_coef 1 Hwf
              example_batch_shape) as (loc & Hrun).
  { intros _ _ _. right. simpl. lia. }
  destruct (zero_noise_projection_scale
              (reset_parameters (trained_gate 1 true true true true)) example_batch
              example_randn default_noise_epsilon default_loss_coef 1 loc Hwf)
    as (nl & Hnoise & Hscale); try reflexivity; try assumption.
  - simpl. repeat constructor.
  - exact example_batch_shape.
  - exists loc, nl. auto.
Defined.

(** ** A gate projection of zeros *)

Lemma softmax_row_zeros (n : nat) :
  (0 < n)%nat -> softmax_row (repeat 0 n) = repeat (1 / INR n) n.
Proof.
  intro Hn. rewrite softmax_row_eq, !map_repeat, sum_repeat, exp_0.
  f_equal. field. apply not_0_INR. lia.
Qed.

Lemma gather_from_zeros (rows : matrix R) (idx : list (list nat)) (b k : nat) :
  Forall all_zero rows -> length rows = b -> shape_is b k idx ->
  map2 (fun row irow => map (fun e => nth e row 0) irow) rows idx =
    repeat (repeat 0 k) b.
Proof.
  intros Hz Hb [Hib Hik]. subst b. revert idx Hib Hik.
  induction Hz as [| row rows Hrow _ IH]; intros [| irow idx] Hib Hik;
    try discriminate; [reflexivity | ].
  rewrite map2_cons. simpl length. simpl repeat.
  inversion Hik; subst. f_equal.
  - apply map_constant. intros e _. now apply all_zero_nth.
  - apply IH; [simpl in Hib; lia | assumption].
Qed.

(** X22: a linear gate whose projection holds zeros, as it does right
    after construction, routes uniformly: outside the noisy branch and with
    softmax every returned score is [1 / num_selects], whatever the input
    is. *)
Theorem zero_gate_scores_uniform (self : TopKBalancedNoisyGate) (l : Linear R)
    (x : matrix R) (randn : nat -> nat -> R) (noise_epsilon loss_coef : R)
    (b : nat) (idx : list (list nat)) (scores : matrix R) (gl : option R) :
  Gate_wf self ->
  gate_network self = GateLinear l -> Forall all_zero (weight l) ->
  shape_is b (input_size self) x ->
  training self && add_noise self = false ->
  use_softmax self = true -> (0 < num_selects self)%nat ->
  forward self x randn noise_epsilon loss_coef = Ok (idx, scores, gl) ->
  scores = repeat (repeat (1 / INR (num_selects self)) (num_selects self)) b.
Proof.
  intros Hwf Hgn Hzero Hx Hoff Hsoft Hns Hrun.
  rewrite forward_of_body in Hrun. apply bind_ok in Hrun as (loc & Hloc & Hret).
  inversion Hret; subst; clear Hret.
  destruct (forward_body_ok self x randn noise_epsilon loss_coef b loc Hwf Hx Hloc)
    as (Hlg & Hnl & Hsel & Hlogits & (_ & Hidx & _) & _).
  unfold noisy_logits in Hnl. rewrite Hoff in Hnl. inversion Hnl as [[Hnone Heq]].
  rewrite Hgn in Hlg. simpl in Hlg. unfold Linear_forward in Hlg.
  pose proof Hwf as (_ & Hgwf & _). rewrite Hgn in Hgwf. simpl in Hgwf.
  destruct Hgwf as ([Hrows _] & Hin & Hout).
  rewrite Hin, (zero_layer_output x _ _ b (num_experts self) Hx) in Hlg;
    [ | now rewrite Hrows | exact Hzero].
  inversion Hlg as [Hlg']. rewrite <- Heq, <- Hlg' in Hsel.
  rewrite (select_top_k_scores_eq _ _ _ Hsel), Hsoft.
  rewrite (select_top_k_values _ _ _ Hsel).
  change (@s_zero R R_scalar) with 0.
  rewrite (gather_from_zeros _ _ b (num_selects self)).
  - unfold softmax. rewrite map_repeat. now rewrite softmax_row_zeros.
  - apply Forall_forall. intros row Hrow. apply repeat_spec in Hrow. subst row.
    apply Forall_forall. intros a Ha. now apply repeat_spec in Ha.
  - apply repeat_length.
  - exact Hidx.
Qed.

Lemma zero_gate_scores_uniform_witness :
  exists idx gl,
    forward (example_gate 4 2 true true true false) [[3]; [7]]
      example_randn default_noise_epsilon default_loss_coef =
      Ok (idx, [[1 / INR 2; 1 / INR 2]; [1 / INR 2; 1 / INR 2]], gl).
Proof.
  assert (Hwf : Gate_wf (example_gate 4 2 true true true false)).
  { apply example_gate_wf. lia. }
  assert (Hx : shape_is 2 1 [[3]; [7]]).
  { split; [reflexivity | repeat constructor]. }
  destruct (forward_body_total (example_gate 4 2 true true true false) [[3]; [7]]
              example_randn default_noise_epsilon default_loss_coef 2 Hwf Hx)
    as (loc & Hloc).
  { intro Htr. discriminate Htr. }
  exists (top_k_indices (selected loc)), (gate_loss loc).
  assert (Hrun : forward (example_gate 4 2 true true true false) [[3]; [7]]
                   example_randn default_noise_epsilon default_loss_coef =
                 Ok (top_k_indices (selected loc), top_k_scores (selected loc),
                     gate_loss loc)).
  { rewrite forward_of_body, Hloc. reflexivity. }
  rewrite Hrun. do 3 f_equal.
  apply (zero_gate_scores_uniform (example_gate 4 2 true true true false)
           (zero_Linear 4) [[3]; [7]] example_randn
           default_noise_epsilon default_loss_coef 2
           (top_k_indices (selected loc)) (top_k_scores (selected loc))
           (gate_loss loc) Hwf eq_refl);
    try reflexivity; try assumption.
  - simpl. repeat constructor.
  - simpl. lia.
Defined.

(** ** [forward_return_scores] outside the noisy branch *)

(** X23: outside the noisy branch [forward_return_scores] returns
    whenever [forward] does, with the same gate loss and a score for every
    expert of every row: the outputs of the gate network themselves without
    softmax, and with softmax (and at least one expert) rows without
    negative entries that add up to 1. *)
Theorem forward_return_scores_outside_noise (self : TopKBalancedNoisyGate)
    (x : matrix R) (randn : nat -> nat -> R) (noise_epsilon loss_coef : R)
    (b : nat) (idx : list (list nat)) (top_scores : matrix R) (gl : option R) :
  Gate_wf self ->
  shape_is b (input_size self) x ->
  training self && add_noise self = false ->
  forward self x randn noise_epsilon loss_coef = Ok (idx, top_scores, gl) ->
  exists scores,
    forward_return_scores self x randn noise_epsilon loss_coef = Ok (scores, gl) /\
    shape_is b (num_experts self) scores /\
    (use_softmax self = false ->
     GateNetwork_forward (gate_network self) x = Ok scores) /\
    (use_softmax self = true -> (0 < num_experts self)%nat ->
     Forall (fun row => sum row = 1 /\ Forall (fun a => 0 <= a) row) scores).
Proof.
  intros Hwf Hx Hoff Hrun.
  rewrite forward_of_body in Hrun. apply bind_ok in Hrun as (loc & Hloc & Hret).
  inversion Hret; subst; clear Hret.
  destruct (forward_body_ok self x randn noise_epsilon loss_coef b loc Hwf Hx Hloc)
    as (Hlg & Hnl & _ & Hlogits & _).
  unfold noisy_logits in Hnl. rewrite Hoff in Hnl. inversion Hnl as [[Hnone Heq]].
  rewrite (forward_return_scores_without_noise _ _ _ _ _ Hoff), Hloc. simpl.
  eexists. split; [reflexivity | ]. split; [ | split].
  - destruct (use_softmax self); [ | exact Hlogits].
    unfold softmax. eapply shape_is_map; [ | exact Hlogits].
    intros row Hrow. now rewrite softmax_row_length.
  - intros ->. rewrite <- Heq. exact Hlg.
  - intros -> Hne. unfold softmax. apply Forall_map.
    destruct Hlogits as [_ Hrows]. eapply Forall_impl; [ | exact Hrows].
    intros row Hrow. cbv beta in Hrow. split.
    + apply softmax_row_sum. intro Hnil. subst row. simpl in Hrow. lia.
    + eapply Forall_impl; [ | apply softmax_row_pos]. intros a Ha.
      cbv beta in Ha. lra.
Qed.

Lemma forward_return_scores_outside_noise_witness :
  exists scores gl,
    forward_return_scores (trained_gate 1 true false true true) example_batch
      example_randn default_noise_epsilon default_loss_coef = Ok (scores, gl) /\
    shape_is 1 2 scores /\
    Forall (fun row => sum row = 1 /\ Forall (fun a => 0 <= a) row) scores.
Proof.
  assert (Hrun : exists idx scores gl,
            forward (trained_gate 1 true false true true) example_batch
              example_randn default_noise_epsilon default_loss_coef =
              Ok (idx, scores, gl)).
  { do 3 eexists. unfold forward, forward_body. eval_real. reflexivity. }
  destruct Hrun as (idx & top_scores & gl & Hrun).
  destruct (forward_return_scores_outside_noise
              (trained_gate 1 true false true true) example_batch
              example_randn default_noise_epsilon default_loss_coef 1
              idx top_scores gl
              (trained_gate_wf 1 true false true true (Nat.le_succ_diag_r 1))
              example_batch_shape eq_refl Hrun)
    as (scores & Hfrs & Hshape & _ & Hsum).
  exists scores, gl. repeat split; try assumption; try apply Hshape.
  apply Hsum; [reflexivity | simpl; lia].
Defined.

(** ** The loads add up *)

Local Close Scope R_scope.

Lemma selected_count_cons (row : list nat) (idx : list (list nat)) (e : nat) :
  selected_count (row :: idx) e =
    (if existsb (Nat.eqb e) row then 1 else 0) + selected_count idx e.
Proof.
  unfold selected_count. simpl. destruct (existsb (Nat.eqb e) row); reflexivity.
Qed.

Lemma list_sum_map_add {A : Type} (f g : A -> nat) (l : list A) :
  list_sum (map (fun a => f a + g a) l) = list_sum (map f l) + list_sum (map g l).
Proof. induction l as [| a l IH]; simpl; [reflexivity | rewrite IH; lia]. Qed.

Lemma list_sum_indicator {A : Type} (p : A -> bool) (l : list A) :
  list_sum (map (fun a => if p a then 1 else 0) l) = length (filter p l).
Proof.
  induction l as [| a l IH]; simpl; [reflexivity | ].
  destruct (p a); simpl; rewrite IH; reflexivity.
Qed.

(** Over all experts, a row of distinct indices in range is met once per
    entry. *)
Lemma membership_count (row : list nat) (n : nat) :
  NoDup row -> Forall (fun i => i < n) row ->
  list_sum (map (fun e => if existsb (Nat.eqb e) row then 1 else 0) (seq 0 n)) =
    length row.
Proof.
  intros Hnd Hlt. rewrite list_sum_indicator. apply Permutation_length.
  apply NoDup_Permutation; [apply NoDup_filter, seq_NoDup | exact Hnd | ].
  intro e. rewrite filter_In, in_seq, existsb_exists. rewrite Forall_forall in Hlt.
  split.
  - intros [_ (e' & He' & Heq)]. apply Nat.eqb_eq in Heq. now subst.
  - intro He. split; [specialize (Hlt e He); lia | ].
    exists e. split; [exact He | apply Nat.eqb_refl].
Qed.

Lemma selected_count_total (idx : list (list nat)) (n : nat) :
  Forall (fun row => NoDup row /\ Forall (fun i => i < n) row) idx ->
  list_sum (map (selected_count idx) (seq 0 n)) = list_sum (map (@length nat) idx).
Proof.
  induction 1 as [| row idx [Hnd Hlt] _ IH]; simpl.
  - unfold selected_count. simpl. induction (seq 0 n); simpl; auto.
  - rewrite <- IH, <- (membership_count row n Hnd Hlt), <- list_sum_map_add.
    f_equal. apply map_ext. intro e. apply selected_count_cons.
Qed.

Lemma list_sum_lengths {A : Type} (b k : nat) (x : list (list A)) :
  shape_is b k x -> list_sum (map (@length A) x) = b * k.
Proof.
  intros [Hb Hrows]. subst b. induction Hrows as [| row x Hrow _ IH]; simpl;
    [reflexivity | ]. rewrite IH, Hrow. reflexivity.
Qed.

Lemma list_sum_from_nth (l : list nat) (n : nat) (f : nat -> nat) :
  length l = n -> (forall e, e < n -> nth e l 0 = f e) ->
  list_sum l = list_sum (map f (seq 0 n)).
Proof.
  intros Hlen Hnth. f_equal. apply (nth_ext _ _ 0 (f 0)).
  - now rewrite length_map, length_seq.
  - intros e He. rewrite Hlen in He.
    rewrite (map_nth f (seq 0 n) 0 e), seq_nth by exact He. now apply Hnth.
Qed.

(** X24: in training mode with [use_balance] and softmax and without
    noise, every row adds one to the load of each of its [num_selects]
    experts: the loads of all experts add up to
    [batch_size * num_selects]. *)
Theorem load_total_is_batch_times_selects (self : TopKBalancedNoisyGate)
    (x : matrix R) (randn : nat -> nat -> R) (noise_epsilon loss_coef : R)
    (b : nat) (loc : forward_locals) :
  Gate_wf self ->
  shape_is b (input_size self) x ->
  training self = true -> use_balance self = true -> add_noise self = false ->
  use_softmax self = true ->
  forward_body self x randn noise_epsilon loss_coef = Ok loc ->
  exists bl counts,
    balance loc = Some bl /\ load bl = IntTensor counts /\
    list_sum counts = b * num_selects self.
Proof.
  intros Hwf Hx Htr Hub Hn Hsoft Hrun.
  destruct (forward_body_balance_no_noise self x randn noise_epsilon loss_coef b loc
              Hwf Hx Htr Hub Hn Hrun) as (bl & Hbl & Hsf & Hshape & Hload).
  destruct (forward_body_ok self x randn noise_epsilon loss_coef b loc Hwf Hx Hrun)
    as (_ & _ & Hsel & Hlogits & (_ & Hidx & Hrange & _) & _).
  exists bl, (count_positive0 (num_experts self) (scores_filtered bl)).
  split; [exact Hbl | ]. split; [exact Hload | ].
  rewrite (list_sum_from_nth _ (num_experts self)
             (selected_count (top_k_indices (selected loc)))).
  - rewrite (selected_count_total _ _ Hrange). now apply list_sum_lengths.
  - apply count_positive0_length, Hshape.
  - intros e He.
    rewrite (count_positive0_nth (num_experts self) e (scores_filtered bl)
               (proj2 Hshape) He).
    apply (scatter_positive_count _ _ _ _ e Hsf).
    + rewrite length_map.
      exact (eq_trans (proj1 Hidx) (eq_sym (proj1 Hlogits))).
    + apply zeros_like_all_zero.
    + rewrite (select_top_k_scores_eq _ _ _ Hsel), Hsoft.
      apply softmax_rows_positive.
Qed.

Lemma load_total_is_batch_times_selects_witness :
  exists loc bl counts,
    forward_body (trained_gate 1 true false true true) example_batch
      example_randn default_noise_epsilon default_loss_coef = Ok loc /\
    balance loc = Some bl /\ load bl = IntTensor counts /\
    list_sum counts = 1 * 1.
Proof.
  assert (Hrun : exists loc,
            forward_body (trained_gate 1 true false true true) example_batch
              example_randn default_noise_epsilon default_loss_coef = Ok loc).
  { eexists. unfold forward_body. eval_real. reflexivity. }
  destruct Hrun as (loc & Hrun).
  destruct (load_total_is_batch_times_selects
              (trained_gate 1 true false true true) example_batch
              example_randn default_noise_epsilon default_loss_coef 1 loc
              (trained_gate_wf 1 true false true true (Nat.le_succ_diag_r 1))
              example_batch_shape eq_refl eq_refl eq_refl eq_refl Hrun)
    as (bl & counts & Hbl & Hload & Hsum).
  exists loc, bl, counts. auto.
Defined.

End MoeGatesRunsExact.

(* ===================================================================== *)
(** * The load without noise *)
(* ===================================================================== *)

Module MoeGatesLoad.

Import MoeGates TensorFacts MoeGatesSpec RealArith MoeGatesExact MoeGatesRuns.

Section Generic.

Context {T : Type} {ST : Scalar T}.

Lemma existsb_eqb_absent (e : nat) (l : list nat) :
  ~ In e l -> existsb (Nat.eqb e) l = false.
Proof.
  intro Hnot. destruct (existsb (Nat.eqb e) l) eqn:Hex; [ | reflexivity].
  apply existsb_exists in Hex as (e' & He' & Heq). apply Nat.eqb_eq in Heq.
  subst e'. contradiction.
Qed.

Lemma slot_absent (e : nat) (irow : list nat) (vrow : list T) :
  existsb (Nat.eqb e) irow = false ->
  existsb (fun q => Nat.eqb e (fst q) && s_gt (snd q) s_zero) (combine irow vrow)
    = false.
Proof.
  revert vrow. induction irow as [| i irow IH]; intros [| v vrow] Hnot;
    try reflexivity.
  simpl in *. apply orb_false_iff in Hnot as [-> Hrest]. simpl. now apply IH.
Qed.

(** After a scatter along distinct positions, an entry at a position of
    the index is positive when the score written there is, and the other
    entries are the ones of [self]. *)
Lemma scatter_row_positive (self : vector T) (irow : list nat) (vrow r : vector T)
    (e : nat) :
  scatter_row self irow vrow = Ok r ->
  NoDup irow ->
  s_gt (nth e r s_zero) s_zero =
    if existsb (Nat.eqb e) irow
    then existsb (fun q => Nat.eqb e (fst q) && s_gt (snd q) s_zero)
                 (combine irow vrow)
    else s_gt (nth e self s_zero) s_zero.
Proof.
  revert self vrow. induction irow as [| i irow IH]; intros self vrow Hr Hnd.
  - simpl in Hr. inversion Hr; subst. reflexivity.
  - destruct vrow as [| v vrow]; simpl in Hr; [discriminate | ].
    destruct (Nat.ltb_spec i (length self)) as [Hi | Hi]; [ | discriminate].
    inversion Hnd as [| i' irow' Hnot Hnd']; subst.
    rewrite (IH _ _ Hr Hnd'). simpl.
    destruct (Nat.eqb_spec e i) as [-> | Hne]; simpl.
    + rewrite (existsb_eqb_absent i irow Hnot).
      rewrite (slot_absent i irow vrow (existsb_eqb_absent i irow Hnot)).
      rewrite orb_false_r. now rewrite nth_set_nth_eq.
    + rewrite nth_set_nth_neq by congruence. reflexivity.
Qed.

Lemma nth_zero_row (e : nat) (row : vector T) :
  Forall (fun a => a = s_zero) row -> nth e row s_zero = s_zero.
Proof.
  intro Hz. revert e. induction Hz as [| a row -> _ IH]; intros [| e];
    simpl; auto.
Qed.

(** The rows of a scattered matrix of zeros with a positive entry at [e]
    are the rows in which [e] was selected with a positive score. *)
Lemma scatter_positive_score_count (self : matrix T) (index : list (list nat))
    (src sf : matrix T) (e : nat) :
  s_gt s_zero s_zero = false ->
  scatter self index src = Ok sf ->
  length index = length self ->
  Forall (Forall (fun a => a = s_zero)) self ->
  Forall (@NoDup nat) index ->
  length (filter (fun row => s_gt (nth e row s_zero) s_zero) sf) =
    positive_score_count index src e.
Proof.
  intro Hzero. revert self src sf.
  induction index as [| irow index IH]; intros self src sf Hsf Hlen Hz Hnd.
  - destruct self; [ | discriminate]. simpl in Hsf. inversion Hsf; subst. reflexivity.
  - destruct self as [| srow self]; [discriminate | ].
    destruct src as [| vrow src]; [destruct irow; discriminate | ].
    simpl in Hsf. apply bind_ok in Hsf as (r & Hr & Hsf).
    apply bind_ok in Hsf as (rs & Hrs & Hsf). inversion Hsf; subst; clear Hsf.
    inversion Hz as [| ? ? Hzrow Hzrest]; inversion Hnd as [| ? ? Hndrow Hndrest]; subst.
    assert (Htest : s_gt (nth e r s_zero) s_zero =
                    existsb (fun q => Nat.eqb e (fst q) && s_gt (snd q) s_zero)
                            (combine irow vrow)).
    { rewrite (scatter_row_positive _ _ _ _ e Hr Hndrow).
      destruct (existsb (Nat.eqb e) irow) eqn:Hsel; [reflexivity | ].
      rewrite (slot_absent e irow vrow Hsel), (nth_zero_row e srow Hzrow).
      exact Hzero. }
    unfold positive_score_count in *. simpl combine. simpl filter.
    rewrite Htest.
    destruct (existsb (fun q => Nat.eqb e (fst q) && s_gt (snd q) s_zero)
                      (combine irow vrow));
      simpl; [f_equal | ]; eapply IH; eauto.
Qed.

(** A selected expert's score without softmax is its logit. *)
Lemma slot_of_logit (e : nat) (irow : list nat) (lrow : vector T) :
  existsb (fun q => Nat.eqb e (fst q) && s_gt (snd q) s_zero)
          (combine irow (map (fun e' => nth e' lrow s_zero) irow)) =
  existsb (Nat.eqb e) irow && s_gt (nth e lrow s_zero) s_zero.
Proof.
  induction irow as [| i irow IH]; [reflexivity | ].
  simpl. rewrite IH. destruct (Nat.eqb_spec e i) as [-> | _]; simpl.
  - destruct (s_gt (nth i lrow s_zero) s_zero); [reflexivity | ].
    now rewrite andb_false_r.
  - reflexivity.
Qed.

Lemma positive_score_count_of_logits (index : list (list nat)) (logits : matrix T)
    (e : nat) :
  positive_score_count index
    (map2 (fun row irow => map (fun e' => nth e' row s_zero) irow) logits index) e =
  positive_logit_count index logits e.
Proof.
  unfold positive_score_count, positive_logit_count. revert logits.
  induction index as [| irow index IH]; intros [| lrow logits]; try reflexivity.
  rewrite map2_cons. simpl combine. simpl filter. simpl fst. simpl snd.
  rewrite slot_of_logit.
  destruct (existsb (Nat.eqb e) irow && s_gt (nth e lrow s_zero) s_zero);
    simpl; now rewrite IH.
Qed.

(** The locals of the balance branch of a run without noise, in any
    arithmetic. *)
Lemma forward_body_load_no_noise (self : TopKBalancedNoisyGate) (x : matrix T)
    (randn : nat -> nat -> T) (noise_epsilon loss_coef : T) (b : nat)
    (loc : forward_locals) :
  Gate_wf self ->
  shape_is b (input_size self) x ->
  training self = true -> use_balance self = true -> add_noise self = false ->
  forward_body self x randn noise_epsilon loss_coef = Ok loc ->
  logits loc = logits_gate loc /\
  exists bl,
    balance loc = Some bl /\
    scatter (map (map (fun _ => s_zero)) (logits loc))
            (top_k_indices (selected loc)) (top_k_scores (selected loc))
      = Ok (scores_filtered bl) /\
    shape_is b (num_experts self) (scores_filtered bl) /\
    load bl = IntTensor (count_positive0 (num_experts self) (scores_filtered bl)).
Proof.
  intros Hwf Hx Htr Hub Hn Hrun.
  destruct (forward_body_ok self x randn noise_epsilon loss_coef b loc Hwf Hx Hrun)
    as (_ & Hnl & _ & Hlogits & Hselok & Hbl).
  split.
  { unfold noisy_logits in Hnl. rewrite Htr, Hn in Hnl. simpl in Hnl.
    now inversion Hnl. }
  assert (Hbal : training self && use_balance self = true) by now rewrite Htr, Hub.
  destruct (balance_loss_on self loss_coef (logits_gate loc) (noise loc) (logits loc)
              (selected loc) b Hbal Hlogits Hselok) as (sf & Hsf & Hshape & Heq).
  rewrite Heq, compute_load_no_noise in Hbl by assumption. simpl in Hbl.
  inversion Hbl as [[Hbalance Hloss]].
  eexists. split; [reflexivity | ]. simpl. auto.
Qed.

End Generic.

(** C5, as the code has it: in training mode with [use_balance] and
    without noise, [load] is an integer tensor with one entry per expert.
    In any arithmetic in which 0 is not above 0, [load[e]] is the number of
    rows in which expert [e] was selected with a positive score, for every
    [use_softmax] setting; without softmax the score is the output of the
    gate network, so that [load[e]] is the number of rows in which [e] was
    selected and its logit is positive, and a row that selects [e] with a
    logit that is not positive is not counted.  With softmax, in exact real
    arithmetic (every score is positive there), [load[e]] is the number of
    rows in which [e] was selected. *)
Theorem load_counts_positive_scores :
  (forall (T : Type) (ST : Scalar T) (self : TopKBalancedNoisyGate) (x : matrix T)
          (randn : nat -> nat -> T) (noise_epsilon loss_coef : T) (b : nat)
          (loc : forward_locals),
     s_gt s_zero s_zero = false ->
     Gate_wf self ->
     shape_is b (input_size self) x ->
     training self = true -> use_balance self = true -> add_noise self = false ->
     forward_body self x randn noise_epsilon loss_coef = Ok loc ->
     exists bl counts,
       balance loc = Some bl /\ load bl = IntTensor counts /\
       length counts = num_experts self /\
       forall e, e < num_experts self ->
         nth e counts 0 =
           positive_score_count (top_k_indices (selected loc))
                                (top_k_scores (selected loc)) e /\
         (use_softmax self = false ->
          nth e counts 0 =
            positive_logit_count (top_k_indices (selected loc)) (logits_gate loc) e)) /\
  (forall (self : TopKBalancedNoisyGate) (x : matrix R)
          (randn : nat -> nat -> R) (noise_epsilon loss_coef : R) (b : nat)
          (loc : forward_locals),
     Gate_wf self ->
     shape_is b (input_size self) x ->
     training self = true -> use_balance self = true -> add_noise self = false ->
     use_softmax self = true ->
     forward_body self x randn noise_epsilon loss_coef = Ok loc ->
     exists bl counts,
       balance loc = Some bl /\ load bl = IntTensor counts /\
       forall e, e < num_experts self ->
         nth e counts 0 = selected_count (top_k_indices (selected loc)) e).
Proof.
  split.
  - intros T ST self x randn noise_epsilon loss_coef b loc Hzero
      Hwf Hx Htr Hub Hn Hrun.
    destruct (forward_body_load_no_noise self x randn noise_epsilon loss_coef b loc
                Hwf Hx Htr Hub Hn Hrun) as (Hraw & bl & Hbl & Hsf & Hshape & Hload).
    destruct (forward_body_ok self x randn noise_epsilon loss_coef b loc Hwf Hx Hrun)
      as (_ & _ & Hsel & Hlogits & Hselok & _).
    exists bl, (count_positive0 (num_experts self) (scores_filtered bl)).
    split; [exact Hbl | ]. split; [exact Hload | ].
    split; [apply count_positive0_length, Hshape | ].
    intros e He.
    assert (Hcount :
              nth e (count_positive0 (num_experts self) (scores_filtered bl)) 0 =
              positive_score_count (top_k_indices (selected loc))
                                   (top_k_scores (selected loc)) e).
    { rewrite (count_positive0_nth (num_experts self) e (scores_filtered bl)
                 (proj2 Hshape) He).
      apply (scatter_positive_score_count _ _ _ _ e Hzero Hsf).
      - rewrite length_map. destruct Hlogits as [Hb _].
        destruct Hselok as (_ & [Hb' _] & _). congruence.
      - apply Forall_map, Forall_forall. intros row _.
        apply Forall_map, Forall_forall. reflexivity.
      - destruct Hselok as (_ & _ & Hrange & _).
        eapply Forall_impl; [ | exact Hrange]. now intros row [Hnd _]. }
    split; [exact Hcount | ].
    intro Hraw_scores. rewrite Hcount.
    pose proof (select_top_k_scores_eq _ _ _ Hsel) as Hsc.
    rewrite Hraw_scores in Hsc. rewrite Hsc.
    rewrite (select_top_k_values _ _ _ Hsel), Hraw.
    apply positive_score_count_of_logits.
  - intros self x randn noise_epsilon loss_coef b loc Hwf Hx Htr Hub Hn Hsoft Hrun.
    destruct (forward_body_balance_no_noise self x randn noise_epsilon loss_coef b loc
                Hwf Hx Htr Hub Hn Hrun) as (bl & Hbl & Hsf & Hshape & Hload).
    destruct (forward_body_ok self x randn noise_epsilon loss_coef b loc Hwf Hx Hrun)
      as (_ & _ & Hsel & Hlogits & Hselok & _).
    exists bl, (count_positive0 (num_experts self) (scores_filtered bl)).
    split; [exact Hbl | ]. split; [exact Hload | ].
    intros e He.
    rewrite (count_positive0_nth (num_experts self) e (scores_filtered bl)
               (proj2 Hshape) He).
    apply (scatter_positive_count _ _ _ _ e Hsf).
    + rewrite length_map. destruct Hlogits as [-> _].
      destruct Hselok as (_ & [-> _] & _). reflexivity.
    + apply zeros_like_all_zero.
    + rewrite (select_top_k_scores_eq _ _ _ Hsel), Hsoft. apply softmax_rows_positive.
Qed.

Lemma load_counts_positive_scores_witness :
  (exists loc bl counts,
     forward_body (trained_gate 1 true false false true) example_batch
       example_randn default_noise_epsilon default_loss_coef = Ok loc /\
     balance loc = Some bl /\ load bl = IntTensor counts /\
     nth 0 counts 0 =
       positive_score_count (top_k_indices (selected loc))
                            (top_k_scores (selected loc)) 0 /\
     nth 0 counts 0 =
       positive_logit_count (top_k_indices (selected loc)) (logits_gate loc) 0) /\
  (exists loc bl counts,
     forward_body (trained_gate 1 true false true true) example_batch
       example_randn default_noise_epsilon default_loss_coef = Ok loc /\
     balance loc = Some bl /\ load bl = IntTensor counts /\
     nth 0 counts 0 = selected_count (top_k_indices (selected loc)) 0).
Proof.
  split.
  - assert (Hrun : exists loc,
              forward_body (trained_gate 1 true false false true) example_batch
                example_randn default_noise_epsilon default_loss_coef = Ok loc).
    { eexists. unfold forward_body. eval_real. reflexivity. }
    destruct Hrun as (loc & Hrun).
    destruct (proj1 load_counts_positive_scores R R_scalar
                (trained_gate 1 true false false true) example_batch
                example_randn default_noise_epsilon default_loss_coef 1 loc
                (Rgtb_le 0 0 (Rle_refl 0))
                (trained_gate_wf 1 true false false true (Nat.le_succ_diag_r 1))
                example_batch_shape eq_refl eq_refl eq_refl Hrun)
      as (bl & counts & Hbl & Hload & _ & Hcounts).
    exists loc, bl, counts. repeat split; try assumption.
    + apply (Hcounts 0). simpl. lia.
    + apply (Hcounts 0); [simpl; lia | reflexivity].
  - assert (Hrun : exists loc,
              forward_body (trained_gate 1 true false true true) example_batch
                example_randn default_noise_epsilon default_loss_coef = Ok loc).
    { eexists. unfold forward_body. eval_real. reflexivity. }
    destruct Hrun as (loc & Hrun).
    destruct (proj2 load_counts_positive_scores
                (trained_gate 1 true false true true) example_batch
                example_randn default_noise_epsilon default_loss_coef 1 loc
                (trained_gate_wf 1 true false true true (Nat.le_succ_diag_r 1))
                example_batch_shape eq_refl eq_refl eq_refl eq_refl Hrun)
      as (bl & counts & Hbl & Hload & Hcounts).
    exists loc, bl, counts. repeat split; try assumption.
    apply (Hcounts 0). simpl. lia.
Defined.

End MoeGatesLoad.
